(** * djs-premium: the premium manager, its two storages and its cache

    A shallow embedding of [PremiumManager], [MongoStorage] and
    [LocalStorage], together with the parts of the libraries they are built
    on that decide their behaviour (node-cache, the event emitter, the JSON
    round trip of the local files, the mongoose model calls).

    Conventions.
    - A JavaScript [number] that holds a duration in days or a time in
      milliseconds is an integer of [Z]. A capacity ([maxActivations]) is
      a rational of [Q]: the code stores the number it is given and only
      compares it with a length, which a fraction takes part in as well
      as a whole number. Arithmetic is exact.
    - The clock is an argument [now] of every operation: all the readings
      of [Date.now()] and [new Date()] inside one operation see the same
      instant. A [Date] made from a computed number goes through
      [new_Date], which knows the range of time values.
    - Storage I/O itself never fails; the errors that remain are the ones
      the code and the libraries raise on well-formed data. *)

From Stdlib Require Import ZArith QArith Lia Lqa.
From stdpp Require Import base option list strings gmap.

Open Scope Z_scope.

(** ** Dates as the code meets them

    A date is a [Date] object inside the process and in MongoDB, and an ISO
    string once it went through [JSON.stringify] / [JSON.parse]
    ([readJsonFile] passes no reviver). Both carry a time value. *)

Inductive jsdate :=
| DateObj (t : Z)
| IsoString (t : Z).

(** [new Date(d).getTime()] *)
Definition getTime (d : jsdate) : Z :=
  match d with DateObj t => t | IsoString t => t end.

(** [Date.prototype.toJSON], applied by [JSON.stringify]. *)
Definition toJSON (d : jsdate) : jsdate := IsoString (getTime d).

(** The cast of a [Date] schema path. *)
Definition castDate (d : jsdate) : jsdate := DateObj (getTime d).

(** [d < new Date()] and [d > new Date()]: a [Date] compares by its time
    value; a string operand is converted with [ToNumber], an ISO string
    gives [NaN], and every comparison with [NaN] is false. *)
Definition date_lt (d : jsdate) (now : Z) : bool :=
  match d with DateObj t => t <? now | IsoString _ => false end.

Definition date_gt (d : jsdate) (now : Z) : bool :=
  match d with DateObj t => now <? t | IsoString _ => false end.

(** Truthiness of a nullable date: objects and non-empty strings are
    truthy, [null] is not. *)
Definition truthy_date (d : option jsdate) : bool :=
  match d with Some _ => true | None => false end.

(** ** [Date] objects made from a number

    [new Date(value)] clips its argument (TimeClip): further than
    8.64e15 ms from the epoch there is no time value, and the object is an
    Invalid Date. Such an object lives in memory only; no stored record
    holds one, because [JSON.stringify] writes [null] for it and the cast
    of a [Date] schema path refuses it (see [Storage.savePremium_literal] and
    [Storage.assign_expiresAt]). *)

Definition max_time : Z := 8640000000000000.

Inductive Date :=
| ValidDate (d : jsdate)
| InvalidDate.

Definition new_Date (value : Z) : Date :=
  if Z.abs value <=? max_time then ValidDate (DateObj value) else InvalidDate.

(** ** types.d.ts *)

Record IPremium := mkPremium {
  entityId : string;
  isPremium : bool;
  expiresAt : option jsdate;
  activatedBy : option string;
  activatedAt : option jsdate
}.

(** One element of [IPremiumCode.activations]. The entity is optional
    because the mongoose schema of the array has no [entityId] path. *)
Module Activation.
Record t := mk {
  entityId : option string;
  activatedAt : jsdate
}.
End Activation.

Record IPremiumCode := mkPremiumCode {
  code : string;
  duration : Z;
  maxActivations : Q;
  activations : list Activation.t;
  createdBy : string;
  createdAt : jsdate
}.

(** [IPremiumConfig]: every key is optional. *)
Record IPremiumConfig := mkConfig {
  cacheTTL : option Z;
  codeLength : option Z;
  defaultPremiumDuration : option Z;
  maxActivationsPerCode : option Q;
  preloadTables : option bool
}.

(** [Required<IPremiumConfig>], the shape of [this.config]. *)
Module Required.
Record t := mk {
  maxActivationsPerCode : Q;
  cacheTTL : Z;
  preloadTables : bool;
  codeLength : Z;
  defaultPremiumDuration : Z
}.
End Required.

(** An object handed to or returned by a storage: a plain object, or a
    document loaded by a mongoose query ([isNew] is false on those). *)
Record doc (A : Type) := mkDoc {
  loaded : bool;
  body : A
}.
Arguments mkDoc {A} _ _.
Arguments loaded {A} _.
Arguments body {A} _.

Definition plain {A} (a : A) : doc A := mkDoc false a.

(** ** Errors an operation can reject with *)

Inductive error :=
| EntityNotPremium              (* new Error("Entity is not premium") *)
| DuplicateKey (key : string)   (* E11000, raised by a unique index *)
| DocumentNotFound (key : string)
| ValidationError (paths : list string) (* the schema paths whose validator failed *)
| CastError (path : string)     (* a value the schema path cannot take *)
| ListenerError (msg : string). (* whatever a listener threw *)

Inductive outcome (A : Type) :=
| Returned (a : A)
| Thrown (e : error).
Arguments Returned {A} _.
Arguments Thrown {A} _.

(** ** JSON round trip of the records *)

Definition premium_toJSON (p : IPremium) : IPremium :=
  {| entityId := entityId p;
     isPremium := isPremium p;
     expiresAt := toJSON <$> expiresAt p;
     activatedBy := activatedBy p;
     activatedAt := toJSON <$> activatedAt p |}.

Definition activation_toJSON (a : Activation.t) : Activation.t :=
  {| Activation.entityId := Activation.entityId a;
     Activation.activatedAt := toJSON (Activation.activatedAt a) |}.

Definition code_toJSON (c : IPremiumCode) : IPremiumCode :=
  {| code := code c;
     duration := duration c;
     maxActivations := maxActivations c;
     activations := activation_toJSON <$> activations c;
     createdBy := createdBy c;
     createdAt := toJSON (createdAt c) |}.

(** [Array.prototype.findIndex]; [None] stands for -1. *)
Fixpoint findIndex {A} (f : A → bool) (l : list A) : option nat :=
  match l with
  | [] => None
  | x :: l' => if f x then Some 0%nat else S <$> findIndex f l'
  end.

(** ** MongoStorage *)

Module MongoStorage.

(** The two collections behind [premiumModel] and [premiumCodeModel],
    in insertion order. *)
Record t := mk {
  premiumModel : list IPremium;
  premiumCodeModel : list IPremiumCode
}.

Definition empty : t := mk [] [].

(** Casting by [PremiumSchema]. *)
Definition castPremium (p : IPremium) : IPremium :=
  {| entityId := entityId p;
     isPremium := isPremium p;
     expiresAt := castDate <$> expiresAt p;
     activatedBy := activatedBy p;
     activatedAt := castDate <$> activatedAt p |}.

(** Casting by [PremiumCodeSchema]: the elements of [activations] are
    [{ guildId: String, activatedAt: Date }], so [entityId] is not a path
    of the sub-document and is dropped. *)
Definition castActivation (a : Activation.t) : Activation.t :=
  {| Activation.entityId := None;
     Activation.activatedAt := castDate (Activation.activatedAt a) |}.

Definition castCode (c : IPremiumCode) : IPremiumCode :=
  {| code := code c;
     duration := duration c;
     maxActivations := maxActivations c;
     activations := castActivation <$> activations c;
     createdBy := createdBy c;
     createdAt := castDate (createdAt c) |}.

(** [premiumModel.findOne({ entityId })] *)
Definition findPremium (id : string) (s : t) : option IPremium :=
  find (λ p, String.eqb (entityId p) id) (premiumModel s).

(** [findOneAndUpdate(filter, premium, { upsert: true })]: the first
    document matching the filter takes the fields of [premium]; without
    a match a document is inserted. *)
Definition savePremium (premium : IPremium) (s : t) : outcome t :=
  let docs := premiumModel s in
  let docs' :=
    match findIndex (λ p, String.eqb (entityId p) (entityId premium)) docs with
    | Some i => <[i := castPremium premium]> docs
    | None => docs ++ [castPremium premium]
    end in
  Returned (mk docs' (premiumCodeModel s)).

(** [premiumCodeModel.findOne({ code })] *)
Definition findPremiumCode (c : string) (s : t) : option (doc IPremiumCode) :=
  mkDoc true <$> find (λ pc, String.eqb (code pc) c) (premiumCodeModel s).

(** The validators of [PremiumCodeSchema]: the paths marked [required].
    A required string must not be empty; [duration] and [maxActivations]
    are numbers here, and so are present. The result lists the paths that
    fail, in the order of the schema. *)
Definition validate (c : IPremiumCode) : list string :=
  (if String.eqb (code c) "" then ["code"] else []) ++
  (if String.eqb (createdBy c) "" then ["createdBy"] else []).

(** [premiumCodeModel.create(premiumCode)]. A loaded document is saved in
    place: it passed the validators when it was inserted and the manager
    changes nothing of it but [activations], so [save] finds them
    satisfied. Anything else becomes a new document: it is validated, with
    a [ValidationError] when a validator fails, and then inserted, which
    the unique index on [code] refuses for a code already there. *)
Definition savePremiumCode (premiumCode : doc IPremiumCode) (s : t) : outcome t :=
  let docs := premiumCodeModel s in
  let key := code (body premiumCode) in
  let found := findIndex (λ pc, String.eqb (code pc) key) docs in
  if loaded premiumCode then
    match found with
    | Some i => Returned (mk (premiumModel s) (<[i := castCode (body premiumCode)]> docs))
    | None => Thrown (DocumentNotFound key)
    end
  else
    match validate (body premiumCode) with
    | [] =>
        match found with
        | Some _ => Thrown (DuplicateKey key)
        | None => Returned (mk (premiumModel s) (docs ++ [castCode (body premiumCode)]))
        end
    | paths => Thrown (ValidationError paths)
    end.

(** The query operator [{ $lt: now }] on a stored field: it matches
    dates only, never [null]. *)
Definition matches_lt (field : option jsdate) (now : Z) : bool :=
  match field with
  | Some d => getTime d <? now
  | None => false
  end.

(** [premiumModel.find({ isPremium: true, expiresAt: { $lt: new Date() } })] *)
Definition findExpiredPremiums (now : Z) (s : t) : list IPremium :=
  List.filter (λ p, isPremium p && matches_lt (expiresAt p) now)
              (premiumModel s).

Definition getAllPremiums (s : t) : list IPremium := premiumModel s.

Definition getAllPremiumCodes (s : t) : list IPremiumCode := premiumCodeModel s.

End MongoStorage.

(** ** LocalStorage *)

Module LocalStorage.

(** The content of the two files, [premiums.json] at [premiumPath] and
    [premiumsCodes.json] at [premiumCodePath]. A file that does not exist
    reads as the empty array ([readJsonFile] answers [ENOENT] with []). *)
Record t := mk {
  premiumPath : list IPremium;
  premiumCodePath : list IPremiumCode
}.

Definition empty : t := mk [] [].

(** [writeJsonFile]: what [JSON.stringify] leaves of the records. *)
Definition writePremiums (data : list IPremium) (s : t) : t :=
  mk (premium_toJSON <$> data) (premiumCodePath s).

Definition writePremiumCodes (data : list IPremiumCode) (s : t) : t :=
  mk (premiumPath s) (code_toJSON <$> data).

(** [premiums.find((p) => p.entityId === entityId) || null] *)
Definition findPremium (id : string) (s : t) : option IPremium :=
  find (λ p, String.eqb (entityId p) id) (premiumPath s).

Definition savePremium (premium : IPremium) (s : t) : outcome t :=
  let premiums := premiumPath s in
  let premiums' :=
    match findIndex (λ p, String.eqb (entityId p) (entityId premium)) premiums with
    | Some index => <[index := premium]> premiums
    | None => premiums ++ [premium]
    end in
  Returned (writePremiums premiums' s).

Definition findPremiumCode (c : string) (s : t) : option (doc IPremiumCode) :=
  plain <$> find (λ pc, String.eqb (code pc) c) (premiumCodePath s).

(** [{ ...existing, ...premiumCode }]: [premiumCode] has every key of
    [IPremiumCode], so each key of the result comes from it. *)
Definition spread (existing premiumCode : IPremiumCode) : IPremiumCode :=
  {| code := code premiumCode;
     duration := duration premiumCode;
     maxActivations := maxActivations premiumCode;
     activations := activations premiumCode;
     createdBy := createdBy premiumCode;
     createdAt := createdAt premiumCode |}.

Definition savePremiumCode (premiumCode : doc IPremiumCode) (s : t) : outcome t :=
  let premiumCodes := premiumCodePath s in
  let premiumCodes' :=
    match findIndex (λ c, String.eqb (code c) (code (body premiumCode))) premiumCodes with
    | Some existingCodeIndex =>
        match premiumCodes !! existingCodeIndex with
        | Some existing =>
            <[existingCodeIndex := spread existing (body premiumCode)]> premiumCodes
        | None => premiumCodes
        end
    | None => premiumCodes ++ [body premiumCode]
    end in
  Returned (writePremiumCodes premiumCodes' s).

(** [premiums.filter((p) => p.isPremium && p.expiresAt && p.expiresAt < now)] *)
Definition findExpiredPremiums (now : Z) (s : t) : list IPremium :=
  List.filter (λ p, isPremium p && truthy_date (expiresAt p) &&
                    match expiresAt p with
                    | Some d => date_lt d now
                    | None => false
                    end) (premiumPath s).

Definition getAllPremiums (s : t) : list IPremium := premiumPath s.

Definition getAllPremiumCodes (s : t) : list IPremiumCode := premiumCodePath s.

End LocalStorage.

(** ** IStorage: the storage the manager holds *)

Inductive IStorage :=
| Mongo (s : MongoStorage.t)
| Local (s : LocalStorage.t).

Module Storage.

Definition lift {S} (wrap : S → IStorage) (r : outcome S) : outcome IStorage :=
  match r with
  | Returned s => Returned (wrap s)
  | Thrown e => Thrown e
  end.

Definition findPremium (id : string) (st : IStorage) : option IPremium :=
  match st with
  | Mongo s => MongoStorage.findPremium id s
  | Local s => LocalStorage.findPremium id s
  end.

Definition savePremium (p : IPremium) (st : IStorage) : outcome IStorage :=
  match st with
  | Mongo s => lift Mongo (MongoStorage.savePremium p s)
  | Local s => lift Local (LocalStorage.savePremium p s)
  end.

Definition findPremiumCode (c : string) (st : IStorage) : option (doc IPremiumCode) :=
  match st with
  | Mongo s => MongoStorage.findPremiumCode c s
  | Local s => LocalStorage.findPremiumCode c s
  end.

Definition savePremiumCode (pc : doc IPremiumCode) (st : IStorage) : outcome IStorage :=
  match st with
  | Mongo s => lift Mongo (MongoStorage.savePremiumCode pc s)
  | Local s => lift Local (LocalStorage.savePremiumCode pc s)
  end.

Definition findExpiredPremiums (now : Z) (st : IStorage) : list IPremium :=
  match st with
  | Mongo s => MongoStorage.findExpiredPremiums now s
  | Local s => LocalStorage.findExpiredPremiums now s
  end.

Definition getAllPremiums (st : IStorage) : list IPremium :=
  match st with
  | Mongo s => MongoStorage.getAllPremiums s
  | Local s => LocalStorage.getAllPremiums s
  end.

Definition getAllPremiumCodes (st : IStorage) : list IPremiumCode :=
  match st with
  | Mongo s => MongoStorage.getAllPremiumCodes s
  | Local s => LocalStorage.getAllPremiumCodes s
  end.

(** [savePremium({ ..., expiresAt, ... })] for an object literal whose
    [expiresAt] is the [Date] object just made; [premium] is the literal as
    a function of the [expiresAt] that reaches the storage. A date with a
    time value goes through [savePremium] as it is. For an Invalid Date,
    [JSON.stringify] calls [toJSON], which answers [null], so the local
    file gets [null]; [findOneAndUpdate] casts its update by the schema
    before anything is sent, and the cast of a [Date] path refuses an
    Invalid Date, so the call rejects and nothing is written. *)
Definition savePremium_literal (expiresAt_ : Date) (premium : option jsdate → IPremium)
    (st : IStorage) : outcome IStorage :=
  match expiresAt_, st with
  | ValidDate d, _ => savePremium (premium (Some d)) st
  | InvalidDate, Local _ => savePremium (premium None) st
  | InvalidDate, Mongo _ => Thrown (CastError "expiresAt")
  end.

(** [entity.expiresAt = d] on an entity that [findPremium] of the storage
    returned, for a [Date] object [d] just made; the result is the entity
    as [savePremium] takes it next. A date with a time value is assigned.
    For an Invalid Date: the plain object of the local storage holds it
    until [JSON.stringify] writes [null] for it; the document of the Mongo
    storage casts what it is assigned, refuses the value and keeps the
    [expiresAt] it had. *)
Definition assign_expiresAt (d : Date) (entity : IPremium) (st : IStorage) : IPremium :=
  let assigned (x : option jsdate) :=
    {| entityId := entityId entity;
       isPremium := isPremium entity;
       expiresAt := x;
       activatedBy := activatedBy entity;
       activatedAt := activatedAt entity |} in
  match d, st with
  | ValidDate d', _ => assigned (Some d')
  | InvalidDate, Local _ => assigned None
  | InvalidDate, Mongo _ => entity
  end.

(** [premiumCode.activations.push(a)] on an object a storage returned:
    the array of a loaded document casts what is pushed. *)
Definition push (a : Activation.t) (pc : doc IPremiumCode) : doc IPremiumCode :=
  let c := body pc in
  let a' := if loaded pc then MongoStorage.castActivation a else a in
  mkDoc (loaded pc)
    {| code := code c;
       duration := duration c;
       maxActivations := maxActivations c;
       activations := activations c ++ [a'];
       createdBy := createdBy c;
       createdAt := createdAt c |}.

End Storage.

(** ** Values that travel through the cache *)

Inductive value :=
| VUndefined
| VNull
| VBool (b : bool)
| VPremium (p : IPremium)
| VPremiumCode (c : IPremiumCode).

Definition is_undefined (x : value) : bool :=
  match x with VUndefined => true | _ => false end.

Definition truthy (x : value) : bool :=
  match x with
  | VUndefined | VNull => false
  | VBool b => b
  | VPremium _ | VPremiumCode _ => true
  end.

(** [status ? status : null] for a storage answer. *)
Definition premium_or_null (p : option IPremium) : value :=
  match p with Some e => VPremium e | None => VNull end.

Definition code_or_null (c : option (doc IPremiumCode)) : value :=
  match c with Some d => VPremiumCode (body d) | None => VNull end.

(** ** node-cache *)

Module NodeCache.

(** A wrapped value: [t] is the instant it dies, 0 for never. With the
    default [useClones] the cache holds copies of its own, which the
    immutable values here already are. *)
Record entry := mk {
  t : Z;
  v : value
}.

Definition _wrap (stdTTL now : Z) (x : value) : entry :=
  {| t := if stdTTL =? 0 then 0 else now + stdTTL * 1000; v := x |}.

(** [_check]: false once the entry is out of date. *)
Definition _check (now : Z) (e : entry) : bool :=
  negb (negb (t e =? 0) && (t e <? now)).

(** [_unwrap]: [value.v != null] fails for [undefined] as for [null],
    and both come back as [null]. *)
Definition _unwrap (e : entry) : value :=
  match v e with
  | VUndefined | VNull => VNull
  | x => x
  end.

(** [get]: [undefined] is the answer for a key that is absent or out of
    date, and an entry found out of date is deleted. *)
Definition get (now : Z) (key : string) (data : gmap string entry)
  : value * gmap string entry :=
  match data !! key with
  | Some e =>
      if _check now e then (_unwrap e, data)
      else (VUndefined, delete key data)
  | None => (VUndefined, data)
  end.

Definition set (stdTTL now : Z) (key : string) (x : value)
    (data : gmap string entry) : gmap string entry :=
  <[key := _wrap stdTTL now x]> data.

Definition del (key : string) (data : gmap string entry) : gmap string entry :=
  delete key data.

Definition flushAll (data : gmap string entry) : gmap string entry := ∅.

End NodeCache.

(** ** Events *)

Inductive event :=
| premiumAdded (entityId : string) (expiresAt : Date) (activatedBy : string)
| premiumRemoved (entityId : string)
| premiumCodeCreated (code : string) (duration : option Z) (createdBy : string)
| premiumCodeRedeemed (entityId code redeemedBy : string)
| premiumExtended (entityId : string) (newExpiresAt : Date).

Inductive event_name :=
| PremiumAdded
| PremiumRemoved
| PremiumCodeCreated
| PremiumCodeRedeemed
| PremiumExtended.

Definition name_of (e : event) : event_name :=
  match e with
  | premiumAdded _ _ _ => PremiumAdded
  | premiumRemoved _ => PremiumRemoved
  | premiumCodeCreated _ _ _ => PremiumCodeCreated
  | premiumCodeRedeemed _ _ _ => PremiumCodeRedeemed
  | premiumExtended _ _ => PremiumExtended
  end.

Definition event_name_eqb (a b : event_name) : bool :=
  match a, b with
  | PremiumAdded, PremiumAdded
  | PremiumRemoved, PremiumRemoved
  | PremiumCodeCreated, PremiumCodeCreated
  | PremiumCodeRedeemed, PremiumCodeRedeemed
  | PremiumExtended, PremiumExtended => true
  | _, _ => false
  end.

(** A listener, as far as the manager can tell: it is called with the
    payload and either returns or throws. [lid] names it in the record of
    calls. *)
Record listener := mkListener {
  lid : nat;
  react : event → option string
}.

(** [EventEmitter.prototype.emit]: the listeners of the event are called
    one after the other in the order [on] registered them; there is no
    handler around the calls, so the first exception leaves [emit] with
    the later listeners not called. Returns the calls made and the
    exception, if any. *)
Fixpoint call_listeners (ls : list (event_name * listener)) (e : event)
  : list (nat * event) * option string :=
  match ls with
  | [] => ([], None)
  | (n, l) :: ls' =>
      if event_name_eqb n (name_of e) then
        match react l e with
        | Some msg => ([(lid l, e)], Some msg)
        | None =>
            let '(calls, r) := call_listeners ls' e in
            ((lid l, e) :: calls, r)
        end
      else call_listeners ls' e
  end.

(** ** PremiumManager *)

Module PremiumManager.

(** The manager: its three private fields, the listeners of the
    [EventEmitter] it extends, and two records kept for the statements:
    the events passed to [emit] and the listener calls made, oldest
    first. *)
Record t := mk {
  storage : IStorage;
  config : Required.t;
  cache : gmap string NodeCache.entry;
  listeners : list (event_name * listener);
  emitted : list event;
  calls : list (nat * event)
}.

(** An operation runs on the manager and returns or throws; what it did
    to the manager before throwing stays done. *)
Definition M (A : Type) : Type := t → outcome A * t.

Definition ret {A} (a : A) : M A := λ m, (Returned a, m).

Definition throw {A} (e : error) : M A := λ m, (Thrown e, m).

Definition bind {A B} (c : M A) (k : A → M B) : M B :=
  λ m, match c m with
       | (Returned a, m') => k a m'
       | (Thrown e, m') => (Thrown e, m')
       end.

Notation "'let!' x ':=' c 'in' k" := (bind c (λ x, k))
  (at level 10, x name, c at level 100, k at level 200, only parsing).

(** [try { c } catch (error) { console.error(...) }] *)
Definition try_catch (c : M unit) : M unit :=
  λ m, match c m with
       | (Thrown _, m') => (Returned tt, m')
       | r => r
       end.

Definition with_storage (s : IStorage) (m : t) : t :=
  mk s (config m) (cache m) (listeners m) (emitted m) (calls m).

Definition with_cache (c : gmap string NodeCache.entry) (m : t) : t :=
  mk (storage m) (config m) c (listeners m) (emitted m) (calls m).

(** *** The private fields at work *)

Definition storage_findPremium (id : string) : M (option IPremium) :=
  λ m, (Returned (Storage.findPremium id (storage m)), m).

Definition storage_findPremiumCode (c : string) : M (option (doc IPremiumCode)) :=
  λ m, (Returned (Storage.findPremiumCode c (storage m)), m).

Definition storage_update (f : IStorage → outcome IStorage) : M unit :=
  λ m, match f (storage m) with
       | Returned s => (Returned tt, with_storage s m)
       | Thrown e => (Thrown e, m)
       end.

Definition storage_savePremium (p : IPremium) : M unit :=
  storage_update (Storage.savePremium p).

Definition storage_savePremium_literal (expiresAt_ : Date)
    (premium : option jsdate → IPremium) : M unit :=
  storage_update (Storage.savePremium_literal expiresAt_ premium).

Definition storage_assign_expiresAt (d : Date) (entity : IPremium) : M IPremium :=
  λ m, (Returned (Storage.assign_expiresAt d entity (storage m)), m).

Definition storage_savePremiumCode (pc : doc IPremiumCode) : M unit :=
  storage_update (Storage.savePremiumCode pc).

Definition cache_get (now : Z) (key : string) : M value :=
  λ m, let '(x, data) := NodeCache.get now key (cache m) in
       (Returned x, with_cache data m).

Definition cache_set (now : Z) (key : string) (x : value) : M unit :=
  λ m, (Returned tt,
        with_cache (NodeCache.set (Required.cacheTTL (config m)) now key x (cache m)) m).

Definition cache_del (key : string) : M unit :=
  λ m, (Returned tt, with_cache (NodeCache.del key (cache m)) m).

Definition cache_flushAll : M unit :=
  λ m, (Returned tt, with_cache (NodeCache.flushAll (cache m)) m).

(** [this.emit(name, payload)] *)
Definition emit (e : event) : M unit :=
  λ m, let '(made, r) := call_listeners (listeners m) e in
       let m' := mk (storage m) (config m) (cache m) (listeners m)
                    (emitted m ++ [e]) (calls m ++ made) in
       match r with
       | Some msg => (Thrown (ListenerError msg), m')
       | None => (Returned tt, m')
       end.

(** [this.on(name, listener)] *)
Definition on (n : event_name) (l : listener) : M unit :=
  λ m, (Returned tt,
        mk (storage m) (config m) (cache m) (listeners m ++ [(n, l)])
           (emitted m) (calls m)).

(** *** The constructor *)

(** [{ maxActivationsPerCode: 1, cacheTTL: 0, preloadTables: true,
      codeLength: 12, defaultPremiumDuration: 30, ...config }] *)
Definition defaults (c : IPremiumConfig) : Required.t :=
  {| Required.maxActivationsPerCode := default 1%Q (maxActivationsPerCode c);
     Required.cacheTTL := default 0 (cacheTTL c);
     Required.preloadTables := default true (preloadTables c);
     Required.codeLength := default 12 (codeLength c);
     Required.defaultPremiumDuration := default 30 (defaultPremiumDuration c) |}.

(** [new PremiumManager(config)]; [st] is the storage that
    [config.storage] (and [config.localDataDir]) designate, with
    whatever it holds already. *)
Definition constructor (c : IPremiumConfig) (st : IStorage) : t :=
  {| storage := st;
     config := defaults c;
     cache := ∅;
     listeners := [];
     emitted := [];
     calls := [] |}.

Definition getCacheKey (type id : string) : string :=
  type +:+ "_" +:+ id.

(** [Math.ceil(a / b)] for integers [a] and [b > 0]. *)
Definition ceil_div (a b : Z) : Z := - ((- a) / b).

(** [x || fallback] on an optional number: [undefined] and [0] are
    falsy. *)
Definition number_or (x : option Z) (fallback : Z) : Z :=
  match x with
  | Some n => if n =? 0 then fallback else n
  | None => fallback
  end.

(** The same for a capacity. *)
Definition capacity_or (x : option Q) (fallback : Q) : Q :=
  match x with
  | Some n => if Qeq_bool n 0 then fallback else n
  | None => fallback
  end.

(** *** Operations *)

Definition addPremium (now : Z) (entityId : string) (duration : Z)
    (activatedBy : string) : M unit :=
  let expiresAt := new_Date (now + duration * 24 * 60 * 60 * 1000) in
  let! _ := storage_savePremium_literal expiresAt
              (λ written,
                 {| entityId := entityId;
                    isPremium := true;
                    expiresAt := written;
                    activatedBy := Some activatedBy;
                    activatedAt := Some (DateObj now) |}) in
  let! _ := cache_del (getCacheKey "isPremium" entityId) in
  let! _ := cache_del (getCacheKey "premiumStatus" entityId) in
  emit (premiumAdded entityId expiresAt activatedBy).

Definition removePremium (id : string) : M unit :=
  let! entity := storage_findPremium id in
  match entity with
  | Some entity =>
      let entity' :=
        {| entityId := entityId entity;
           isPremium := false;
           expiresAt := None;
           activatedBy := activatedBy entity;
           activatedAt := activatedAt entity |} in
      let! _ := storage_savePremium entity' in
      let! _ := cache_del (getCacheKey "isPremium" id) in
      let! _ := cache_del (getCacheKey "premiumStatus" id) in
      emit (premiumRemoved id)
  | None => ret tt
  end.

Definition getPremiumStatus (now : Z) (id : string) : M value :=
  let cacheKey := getCacheKey "premiumStatus" id in
  let! cachedResult := cache_get now cacheKey in
  if negb (is_undefined cachedResult) then ret cachedResult
  else
    let! status := storage_findPremium id in
    let! _ := cache_set now cacheKey (premium_or_null status) in
    ret (premium_or_null status).

(** [number | null] *)
Definition getPremiumTimeRemaining (now : Z) (id : string) : M (option Z) :=
  let! status := getPremiumStatus now id in
  match status with
  | VPremium status =>
      if negb (isPremium status) || negb (truthy_date (expiresAt status))
      then ret None
      else
        match expiresAt status with
        | Some e =>
            ret (Some (Z.max 0 (ceil_div (getTime e - now) (1000 * 60 * 60 * 24))))
        | None => ret None
        end
  | _ => ret None
  end.

(** [generateCode(this.config.codeLength)] draws from
    [crypto.randomBytes]; the token it returned is the argument [token]. *)
Definition createPremiumCode (now : Z) (token : string) (by_ : string)
    (duration_ : option Z) (maxActivations_ : option Q) : M string :=
  let! cfg := (λ m, (Returned (config m), m)) in
  let! _ := storage_savePremiumCode
              (plain
                 {| code := token;
                    duration := number_or duration_ (Required.defaultPremiumDuration cfg);
                    maxActivations := capacity_or maxActivations_ (Required.maxActivationsPerCode cfg);
                    createdBy := by_;
                    createdAt := DateObj now;
                    activations := [] |}) in
  let! _ := emit (premiumCodeCreated token duration_ by_) in
  ret token.

Definition redeemPremiumCode (now : Z) (id : string) (code_ : string)
    (redeemedBy : string) : M bool :=
  let! premiumCode := storage_findPremiumCode code_ in
  match premiumCode with
  | None => ret false
  | Some premiumCode =>
      if Qle_bool (maxActivations (body premiumCode))
                  (inject_Z (Z.of_nat (length (activations (body premiumCode)))))
      then ret false
      else
        let premiumCode' :=
          Storage.push {| Activation.entityId := Some id;
                          Activation.activatedAt := DateObj now |}
                       premiumCode in
        let! _ := storage_savePremiumCode premiumCode' in
        let! _ := addPremium now id (duration (body premiumCode')) redeemedBy in
        let! _ := emit (premiumCodeRedeemed id code_ redeemedBy) in
        ret true
  end.

(** [for (const entity of expiredEntities) await this.removePremium(...)] *)
Fixpoint for_each {A} (l : list A) (f : A → M unit) : M unit :=
  match l with
  | [] => ret tt
  | x :: l' => let! _ := f x in for_each l' f
  end.

Definition checkExpiredPremiums (now : Z) : M unit :=
  let! expiredEntities :=
    (λ m, (Returned (Storage.findExpiredPremiums now (storage m)), m)) in
  for_each expiredEntities (λ entity, removePremium (entityId entity)).

Definition getPremiumCodeInfo (now : Z) (code_ : string) : M value :=
  let cacheKey := getCacheKey "premiumCodeInfo" code_ in
  let! cachedResult := cache_get now cacheKey in
  if negb (is_undefined cachedResult) then ret cachedResult
  else
    let! codeInfo := storage_findPremiumCode code_ in
    let! _ := cache_set now cacheKey (code_or_null codeInfo) in
    ret (code_or_null codeInfo).

Definition extendPremium (now : Z) (id : string) (days : Z) : M unit :=
  let! entity := storage_findPremium id in
  match entity with
  | None => throw EntityNotPremium
  | Some entity =>
      if negb (isPremium entity) then throw EntityNotPremium
      else
        let newExpiresAt :=
          match expiresAt entity with
          | Some e => new_Date (getTime e + days * 86400000)
          | None => new_Date (now + days * 86400000)
          end in
        let! entity' := storage_assign_expiresAt newExpiresAt entity in
        let! _ := storage_savePremium entity' in
        let! _ := cache_del (getCacheKey "isPremium" id) in
        let! _ := cache_del (getCacheKey "premiumStatus" id) in
        emit (premiumExtended id newExpiresAt)
  end.

Definition onPremiumRemoved : listener → M unit := on PremiumRemoved.
Definition onPremiumCodeCreated : listener → M unit := on PremiumCodeCreated.
Definition onPremiumCodeRedeemed : listener → M unit := on PremiumCodeRedeemed.
Definition onPremiumExtended : listener → M unit := on PremiumExtended.

(** [preloadTables], the private method (the configuration key of the
    same name is [Required.preloadTables]). *)
Definition preloadTables (now : Z) : M unit :=
  try_catch (
    let! premiums := (λ m, (Returned (Storage.getAllPremiums (storage m)), m)) in
    let! premiumCodes := (λ m, (Returned (Storage.getAllPremiumCodes (storage m)), m)) in
    let! _ := for_each premiums (λ premium,
                let! _ := cache_set now (getCacheKey "isPremium" (entityId premium))
                                    (VBool (isPremium premium)) in
                cache_set now (getCacheKey "premiumStatus" (entityId premium))
                          (VPremium premium)) in
    for_each premiumCodes (λ c,
      cache_set now (getCacheKey "premiumCodeInfo" (code c)) (VPremiumCode c))).

Definition clearCache (now : Z) : M unit :=
  let! _ := cache_flushAll in
  let! cfg := (λ m, (Returned (config m), m)) in
  if Required.preloadTables cfg then preloadTables now else ret tt.

(** [isPremium]; a cached result is returned as the cache gives it, so
    the answer is a value. Inside the definition [isPremium] is still the
    field of [IPremium]. *)
Definition isPremium (now : Z) (id : string) : M value :=
  let cacheKey := getCacheKey "isPremium" id in
  let! cachedResult := cache_get now cacheKey in
  if negb (is_undefined cachedResult) then ret cachedResult
  else
    let! entity := storage_findPremium id in
    let isPremium' : value :=
      match entity with
      | None => VUndefined
      | Some entity =>
          if isPremium entity
          then VBool (negb (truthy_date (expiresAt entity)) ||
                      match expiresAt entity with
                      | Some e => date_gt e now
                      | None => false
                      end)
          else VBool false
      end in
    let! _ :=
      (if negb (truthy isPremium') &&
          match entity with Some entity => isPremium entity | None => false end
       then removePremium id
       else ret tt) in
    let! _ := cache_set now cacheKey isPremium' in
    ret (if truthy isPremium' then isPremium' else VBool false).

End PremiumManager.

(** ** Sequences of calls *)

(** One call on the public surface of the manager, with what the
    environment contributes to it: the clock and, for a new code, the
    token drawn. *)
Inductive call :=
| IsPremium (id : string)
| AddPremium (id : string) (duration : Z) (activatedBy : string)
| RemovePremium (id : string)
| GetPremiumStatus (id : string)
| GetPremiumTimeRemaining (id : string)
| CreatePremiumCode (token createdBy : string) (duration : option Z)
    (maxActivations : option Q)
| RedeemPremiumCode (id code redeemedBy : string)
| CheckExpiredPremiums
| GetPremiumCodeInfo (code : string)
| ExtendPremium (id : string) (days : Z)
| ClearCache
| On (n : event_name) (l : listener).

(** The manager after the call, returned or thrown. *)
Definition exec (now : Z) (c : call) (m : PremiumManager.t) : PremiumManager.t :=
  match c with
  | IsPremium id => snd (PremiumManager.isPremium now id m)
  | AddPremium id d by_ => snd (PremiumManager.addPremium now id d by_ m)
  | RemovePremium id => snd (PremiumManager.removePremium id m)
  | GetPremiumStatus id => snd (PremiumManager.getPremiumStatus now id m)
  | GetPremiumTimeRemaining id => snd (PremiumManager.getPremiumTimeRemaining now id m)
  | CreatePremiumCode token by_ d n =>
      snd (PremiumManager.createPremiumCode now token by_ d n m)
  | RedeemPremiumCode id c by_ => snd (PremiumManager.redeemPremiumCode now id c by_ m)
  | CheckExpiredPremiums => snd (PremiumManager.checkExpiredPremiums now m)
  | GetPremiumCodeInfo c => snd (PremiumManager.getPremiumCodeInfo now c m)
  | ExtendPremium id days => snd (PremiumManager.extendPremium now id days m)
  | ClearCache => snd (PremiumManager.clearCache now m)
  | On n l => snd (PremiumManager.on n l m)
  end.

Definition run (cs : list (Z * call)) (m : PremiumManager.t) : PremiumManager.t :=
  foldl (λ m c, exec (fst c) (snd c) m) m cs.

Definition empty_storage (st : IStorage) : Prop :=
  st = Mongo MongoStorage.empty ∨ st = Local LocalStorage.empty.

(** The states of a manager built over an empty storage and used by one
    caller, one call after the other. *)
Inductive reachable : PremiumManager.t → Prop :=
| reach_new cfg st :
    empty_storage st → reachable (PremiumManager.constructor cfg st)
| reach_call now c m :
    reachable m → reachable (exec now c m).

Definition stored_codes (m : PremiumManager.t) : list IPremiumCode :=
  Storage.getAllPremiumCodes (PremiumManager.storage m).

Definition stored_premiums (m : PremiumManager.t) : list IPremium :=
  Storage.getAllPremiums (PremiumManager.storage m).

(** ** utils: [generateCode] *)

(** ["0123456789abcdef"[n]] *)
Definition hex_digit (n : N) : Ascii.ascii :=
  if (n <? 10)%N then Ascii.ascii_of_N (48 + n) else Ascii.ascii_of_N (87 + n).

(** [buffer.toString("hex")]: two digits per byte, the high one first. *)
Fixpoint toString_hex (buffer : list Byte.byte) : string :=
  match buffer with
  | [] => EmptyString
  | b :: buffer' =>
      String (hex_digit (Byte.to_N b / 16))
        (String (hex_digit (Byte.to_N b mod 16)) (toString_hex buffer'))
  end.

(** [s.slice(0, end)]: a negative [end] counts from the end of [s], and
    the result stops at the end of [s] at the latest. *)
Definition slice0 (end_ : Z) (s : string) : string :=
  let len := Z.of_nat (String.length s) in
  let to := if end_ <? 0 then Z.max (len + end_) 0 else Z.min end_ len in
  String.substring 0 (Z.to_nat to) s.

(** [generateCode(length)]; [randomBytes] is the buffer that
    [crypto.randomBytes(Math.ceil(length / 2))] returned. *)
Definition generateCode (length : Z) (randomBytes : list Byte.byte) : string :=
  slice0 length (toString_hex randomBytes).

(** [createPremiumCode] with the token drawn by [generateCode] from the
    bytes the random source gave. *)
Definition createPremiumCode_drawing (now : Z) (randomBytes : list Byte.byte)
    (by_ : string) (d : option Z) (n : option Q) : PremiumManager.M string :=
  λ m, PremiumManager.createPremiumCode now
         (generateCode (Required.codeLength (PremiumManager.config m)) randomBytes)
         by_ d n m.

(** * Definitions for the statements *)

(** ** Frames *)

(** [c] keeps the relation [R] between the manager it starts from and the
    manager it leaves. *)
Definition keeps (R : PremiumManager.t → PremiumManager.t → Prop) {A}
    (c : PremiumManager.M A) : Prop :=
  ∀ m, R m (snd (c m)).

(** A property [I] of the storage, once true, stays true. *)
Definition inv_kept (I : IStorage → Prop) (a b : PremiumManager.t) : Prop :=
  I (PremiumManager.storage a) → I (PremiumManager.storage b).

(** ** What the storages keep and what the operations write *)

(** The record as the storage keeps it. *)
Definition kept_premium (st : IStorage) (p : IPremium) : IPremium :=
  match st with
  | Mongo _ => MongoStorage.castPremium p
  | Local _ => premium_toJSON p
  end.

Definition kept_code (st : IStorage) (c : IPremiumCode) : IPremiumCode :=
  match st with
  | Mongo _ => MongoStorage.castCode c
  | Local _ => code_toJSON c
  end.

(** A number of milliseconds that is a time value. *)
Definition valid_time (t : Z) : Prop := Z.abs t <= max_time.

(** The entitlement [addPremium] saves, when its expiry is a time value. *)
Definition granted (now : Z) (id : string) (d : Z) (by_ : string) : IPremium :=
  {| entityId := id;
     isPremium := true;
     expiresAt := Some (DateObj (now + d * 24 * 60 * 60 * 1000));
     activatedBy := Some by_;
     activatedAt := Some (DateObj now) |}.

(** The entitlement [removePremium] writes back. *)
Definition removed (e : IPremium) : IPremium :=
  {| entityId := entityId e;
     isPremium := false;
     expiresAt := None;
     activatedBy := activatedBy e;
     activatedAt := activatedAt e |}.

(** The instant [extendPremium] computes, and the [Date] it makes of it
    when it is a time value. *)
Definition extended_time (now days : Z) (e : IPremium) : Z :=
  match expiresAt e with Some d => getTime d | None => now end + days * 86400000.

Definition extended_expiry (now days : Z) (e : IPremium) : jsdate :=
  DateObj (extended_time now days e).

(** The entitlement [extendPremium] saves, when the new expiry is a time
    value. *)
Definition extended (now days : Z) (e : IPremium) : IPremium :=
  {| entityId := entityId e;
     isPremium := isPremium e;
     expiresAt := Some (extended_expiry now days e);
     activatedBy := activatedBy e;
     activatedAt := activatedAt e |}.

(** An entitlement with [expiresAt: null] in place of its expiry. *)
Definition without_expiry (e : IPremium) : IPremium :=
  {| entityId := entityId e;
     isPremium := isPremium e;
     expiresAt := None;
     activatedBy := activatedBy e;
     activatedAt := activatedAt e |}.

(** The code [createPremiumCode] saves. *)
Definition created (now : Z) (token by_ : string) (d : option Z) (n : option Q)
    (cfg : Required.t) : IPremiumCode :=
  {| code := token;
     duration := PremiumManager.number_or d (Required.defaultPremiumDuration cfg);
     maxActivations := PremiumManager.capacity_or n (Required.maxActivationsPerCode cfg);
     activations := [];
     createdBy := by_;
     createdAt := DateObj now |}.

(** [!x] for an optional number. *)
Definition falsy (x : option Z) : Prop := x = None ∨ x = Some 0.

Definition falsy_capacity (x : option Q) : Prop :=
  match x with Some q => (q == 0)%Q | None => True end.

(** The token drawn is refused by the storage: only the unique index of
    the Mongo collection refuses one, when a code of that name exists. *)
Definition token_taken (token : string) (st : IStorage) : bool :=
  match st with
  | Mongo s =>
      match MongoStorage.findPremiumCode token s with
      | Some _ => true
      | None => false
      end
  | Local _ => false
  end.

(** The error with which the storage refuses a new code, if it does. The
    local storage refuses none. The Mongo storage refuses a code that
    fails a validator of the schema and, after that, a code whose name
    the collection holds already. *)
Definition refusal (c : IPremiumCode) (st : IStorage) : option error :=
  match st with
  | Mongo s =>
      match MongoStorage.validate c with
      | [] => if token_taken (code c) st then Some (DuplicateKey (code c)) else None
      | paths => Some (ValidationError paths)
      end
  | Local _ => None
  end.

(** How an operation ends when its last step is [emit e]. *)
Definition ends_with {A} (a : A) (e : event) (m : PremiumManager.t) : outcome A :=
  match snd (call_listeners (PremiumManager.listeners m) e) with
  | None => Returned a
  | Some msg => Thrown (ListenerError msg)
  end.

(** The listeners of an event, in registration order. *)
Definition listeners_of (e : event) (ls : list (event_name * listener)) : list listener :=
  snd <$> List.filter (λ nl, event_name_eqb (fst nl) (name_of e)) ls.

(** ** Capacity and date predicates *)

(** What the test of [redeemPremiumCode] maintains: a code has no
    activation, or its last activation was accepted, which means that the
    ones before it were fewer than [maxActivations]. *)
Definition within_capacity (c : IPremiumCode) : Prop :=
  activations c = [] ∨
  (inject_Z (Z.of_nat (length (activations c))) < maxActivations c + 1)%Q.

Definition codes_within_capacity (m : PremiumManager.t) : Prop :=
  Forall within_capacity (stored_codes m).

(** A record as [JSON.parse] returns it: no [Date] in it. *)
Definition from_json (p : IPremium) : Prop :=
  match expiresAt p with
  | Some (DateObj _) => False
  | _ => True
  end.

(** The local storage holds parsed JSON only. *)
Definition parsed_from_json (st : IStorage) : Prop :=
  match st with
  | Local s => Forall from_json (LocalStorage.premiumPath s)
  | Mongo _ => True
  end.

(** ** The cache after a preload *)

(** The cache after the two [forEach] loops of [preloadTables]. *)
Definition warm_premiums (ttl now : Z) (premiums : list IPremium)
    (data : gmap string NodeCache.entry) : gmap string NodeCache.entry :=
  foldl (λ d p,
           NodeCache.set ttl now (PremiumManager.getCacheKey "premiumStatus" (entityId p))
             (VPremium p)
             (NodeCache.set ttl now (PremiumManager.getCacheKey "isPremium" (entityId p))
                (VBool (isPremium p)) d))
        data premiums.

Definition warm_codes (ttl now : Z) (codes : list IPremiumCode)
    (data : gmap string NodeCache.entry) : gmap string NodeCache.entry :=
  foldl (λ d c,
           NodeCache.set ttl now (PremiumManager.getCacheKey "premiumCodeInfo" (code c))
             (VPremiumCode c) d)
        data codes.

(** ** The sweep on a collection *)

(** The filter of [MongoStorage.findExpiredPremiums]. *)
Definition expired (now : Z) (p : IPremium) : bool :=
  isPremium p && MongoStorage.matches_lt (expiresAt p) now.

(** An entitlement after the sweep. *)
Definition swept (now : Z) (p : IPremium) : IPremium :=
  if expired now p then MongoStorage.castPremium (removed p) else p.

(** [removePremium] on the documents of the collection. *)
Definition remove_doc (docs : list IPremium) (id : string) : list IPremium :=
  match findIndex (λ p, String.eqb (entityId p) id) docs with
  | Some i =>
      match docs !! i with
      | Some p => <[i := MongoStorage.castPremium (removed p)]> docs
      | None => docs
      end
  | None => docs
  end.

Definition quiet_removal (m : PremiumManager.t) : Prop :=
  ∀ id, snd (call_listeners (PremiumManager.listeners m) (premiumRemoved id)) = None.

(** ** Managers and records used as examples *)

Definition no_config : IPremiumConfig := mkConfig None None None None None.

Definition local_manager : PremiumManager.t :=
  PremiumManager.constructor no_config (Local LocalStorage.empty).

Definition mongo_manager : PremiumManager.t :=
  PremiumManager.constructor no_config (Mongo MongoStorage.empty).

(** A code created with capacity -1. *)
Definition negative_capacity : PremiumManager.t :=
  run [(0, CreatePremiumCode "abc" "admin" None (Some (-1 # 1)%Q))] local_manager.

(** A code created with capacity 1.5 and redeemed twice. *)
Definition fractional_capacity : PremiumManager.t :=
  run [(0, CreatePremiumCode "abc" "admin" None (Some (3 # 2)%Q));
       (1, RedeemPremiumCode "e" "abc" "user");
       (2, RedeemPremiumCode "f" "abc" "user")] local_manager.

(** A code of capacity 1, redeemed once. *)
Definition code_used_up : PremiumManager.t :=
  run [(0, CreatePremiumCode "abc" "admin" None None);
       (1, RedeemPremiumCode "e" "abc" "user")] local_manager.

(** Premium for one day, never asked about. *)
Definition one_day_premium : PremiumManager.t :=
  run [(0, AddPremium "e" 1 "admin")] mongo_manager.

(** Premium for one day, on the local storage. *)
Definition local_one_day_premium : PremiumManager.t :=
  run [(0, AddPremium "e" 1 "admin")] local_manager.

(** Premium for one day, asked for while it ran: the answer is cached. *)
Definition cached_premium : PremiumManager.t :=
  run [(0, AddPremium "e" 1 "admin"); (1, IsPremium "e")] mongo_manager.

Definition throwing_listener : listener := mkListener 1 (λ _, Some "boom").

Definition quiet_listener : listener := mkListener 2 (λ _, None).

(** Two listeners of [premiumAdded]; the first one throws. *)
Definition two_listeners : PremiumManager.t :=
  run [(0, On PremiumAdded throwing_listener);
       (0, On PremiumAdded quiet_listener)] local_manager.

Definition abc_stored : IPremiumCode :=
  {| code := "abc"; duration := 30; maxActivations := 1%Q; activations := [];
     createdBy := "admin"; createdAt := DateObj 0 |}.

Definition abc_again : IPremiumCode :=
  {| code := "abc"; duration := 7; maxActivations := 5%Q; activations := [];
     createdBy := "owner"; createdAt := DateObj 9 |}.

(** A local storage found with one entitlement and one code in it. *)
Definition stocked_storage : IStorage :=
  Local (LocalStorage.mk
           [mkPremium "e" true (Some (IsoString 86400000)) (Some "admin")
              (Some (IsoString 0))]
           [code_toJSON abc_stored]).

(** A manager over the local storage found with that content. *)
Definition stocked_manager : PremiumManager.t :=
  PremiumManager.constructor no_config stocked_storage.

(** ** Predicates of the further properties *)

(** A character of ["0123456789abcdef"]. *)
Definition is_hex (c : Ascii.ascii) : bool :=
  let n := Ascii.N_of_ascii c in
  ((48 <=? n)%N && (n <=? 57)%N) || ((97 <=? n)%N && (n <=? 102)%N).

(** An entitlement up to the representation of its dates ([Date] or ISO
    string). *)
Definition status_of (p : IPremium) : bool * option Z * option string * option Z :=
  (isPremium p, getTime <$> expiresAt p, activatedBy p, getTime <$> activatedAt p).

(** The entity ids and the codes a storage holds, in its order. *)
Definition entityIds (st : IStorage) : list string :=
  entityId <$> Storage.getAllPremiums st.

Definition codes (st : IStorage) : list string :=
  code <$> Storage.getAllPremiumCodes st.

(** A code up to the representation of its dates and of its
    activations. *)
Definition code_status_of (c : IPremiumCode) : string * Z * Q * nat * string :=
  (code c, duration c, maxActivations c, length (activations c), createdBy c).

(** The keys after an upsert of [k]: as before when [k] is among them,
    with [k] added at the end otherwise. *)
Definition upserted (k : string) (keys : list string) : list string :=
  if decide (k ∈ keys) then keys else keys ++ [k].

(** The three kinds of cache key the manager uses. *)
Definition categories : list string := ["isPremium"; "premiumStatus"; "premiumCodeInfo"].

(** What [isPremium] computes from the stored entitlement before
    [|| false]. *)
Definition effective (now : Z) (entity : option IPremium) : value :=
  match entity with
  | None => VUndefined
  | Some entity =>
      if isPremium entity
      then VBool (negb (truthy_date (expiresAt entity)) ||
                  match expiresAt entity with
                  | Some e => date_gt e now
                  | None => false
                  end)
      else VBool false
  end.

(** The [premiumCodeInfo] cache entry of a code is the same in two
    managers. *)
Definition same_code_entry (k : string) (a b : PremiumManager.t) : Prop :=
  PremiumManager.cache b !! PremiumManager.getCacheKey "premiumCodeInfo" k
  = PremiumManager.cache a !! PremiumManager.getCacheKey "premiumCodeInfo" k.

(** The codes read the same in two managers. *)
Definition same_codes (a b : PremiumManager.t) : Prop :=
  ∀ k, Storage.findPremiumCode k (PremiumManager.storage b)
       = Storage.findPremiumCode k (PremiumManager.storage a).

(** * Properties *)

(** ** Arrays: [find], [findIndex] and assignment by index *)

Section Arrays.
Context {A : Type} (f : A → bool).

Lemma findIndex_find (l : list A) (i : nat) :
  findIndex f l = Some i → ∃ x, l !! i = Some x ∧ f x = true ∧ find f l = Some x.
Proof.
  revert i. induction l as [|y l IH]; intros i; simpl; [done|].
  destruct (f y) eqn:Hy.
  - intros [= <-]. eauto.
  - destruct (findIndex f l) as [j|]; [|done].
    intros [= <-]. destruct (IH j eq_refl) as (x & ? & ? & ?). eauto.
Qed.

Lemma findIndex_None (l : list A) :
  findIndex f l = None → find f l = None.
Proof.
  induction l as [|y l IH]; simpl; [done|].
  destruct (f y); [done|]. destruct (findIndex f l); [done|]. auto.
Qed.

Lemma find_findIndex (l : list A) (x : A) :
  find f l = Some x → ∃ i, findIndex f l = Some i ∧ l !! i = Some x.
Proof.
  induction l as [|y l IH]; simpl; [done|].
  destruct (f y).
  - intros [= <-]. by exists 0%nat.
  - intros H. destruct (IH H) as (i & -> & ?). by exists (S i).
Qed.

Lemma find_insert_at (l : list A) (i : nat) (x : A) :
  findIndex f l = Some i → f x = true → find f (<[i := x]> l) = Some x.
Proof.
  revert i. induction l as [|y l IH]; intros i; simpl; [done|].
  destruct (f y) eqn:Hy.
  - intros [= <-] Hx. simpl. by rewrite Hx.
  - destruct (findIndex f l) as [j|]; [|done].
    intros [= <-] Hx. simpl. rewrite Hy. by apply IH.
Qed.

Lemma find_push (l : list A) (x : A) :
  findIndex f l = None → f x = true → find f (l ++ [x]) = Some x.
Proof.
  induction l as [|y l IH]; simpl.
  - intros _ ->. done.
  - destruct (f y); [done|]. destruct (findIndex f l); [done|]. auto.
Qed.

End Arrays.

Lemma find_fmap {A} (f : A → bool) (h : A → A) (l : list A) :
  (∀ x, f (h x) = f x) → find f (h <$> l) = h <$> find f l.
Proof.
  intros Hh. induction l as [|y l IH]; simpl; [done|].
  rewrite Hh. by destruct (f y).
Qed.

(** ** Cache keys *)

Lemma getCacheKey_inj (type a b : string) :
  PremiumManager.getCacheKey type a = PremiumManager.getCacheKey type b → a = b.
Proof.
  unfold PremiumManager.getCacheKey.
  induction type as [|c type IH]; cbn.
  - intros [= H]. exact H.
  - intros [= H]. auto.
Qed.

Lemma isPremium_key_ne_status (a b : string) :
  PremiumManager.getCacheKey "isPremium" a ≠ PremiumManager.getCacheKey "premiumStatus" b.
Proof. done. Qed.

Lemma isPremium_key_ne_codeInfo (a b : string) :
  PremiumManager.getCacheKey "isPremium" a ≠ PremiumManager.getCacheKey "premiumCodeInfo" b.
Proof. done. Qed.

Lemma status_key_ne_codeInfo (a b : string) :
  PremiumManager.getCacheKey "premiumStatus" a ≠ PremiumManager.getCacheKey "premiumCodeInfo" b.
Proof. unfold PremiumManager.getCacheKey. simpl. intros [= ?]. Qed.

(** ** What a storage holds after a save *)

Lemma savePremium_returns (p : IPremium) (st : IStorage) :
  ∃ st', Storage.savePremium p st = Returned st'.
Proof. destruct st; simpl; eauto. Qed.

Lemma savePremium_codes (p : IPremium) (st st' : IStorage) :
  Storage.savePremium p st = Returned st' →
  Storage.getAllPremiumCodes st' = Storage.getAllPremiumCodes st.
Proof. destruct st; simpl; intros [= <-]; done. Qed.

Lemma findPremium_entityId (id : string) (st : IStorage) (p : IPremium) :
  Storage.findPremium id st = Some p → entityId p = id.
Proof.
  destruct st as [s|s]; simpl;
    [unfold MongoStorage.findPremium | unfold LocalStorage.findPremium];
    intros H; apply find_some in H as [_ H]; by apply String.eqb_eq.
Qed.

Lemma findPremium_savePremium (p : IPremium) (st st' : IStorage) :
  Storage.savePremium p st = Returned st' →
  Storage.findPremium (entityId p) st' = Some (kept_premium st p).
Proof.
  destruct st as [s|s]; simpl; intros [= <-]; simpl.
  - unfold MongoStorage.findPremium; simpl.
    destruct (findIndex _ _) as [i|] eqn:Hi.
    + eapply find_insert_at; [exact Hi|]. simpl. apply String.eqb_refl.
    + eapply find_push; [exact Hi|]. simpl. apply String.eqb_refl.
  - unfold LocalStorage.findPremium; simpl.
    rewrite find_fmap by done.
    destruct (findIndex _ _) as [i|] eqn:Hi.
    + erewrite find_insert_at; [done|exact Hi|]. apply String.eqb_refl.
    + erewrite find_push; [done|exact Hi|]. apply String.eqb_refl.
Qed.

Lemma findPremiumCode_code (k : string) (st : IStorage) (d : doc IPremiumCode) :
  Storage.findPremiumCode k st = Some d → code (body d) = k.
Proof.
  destruct st as [s|s]; simpl;
    [unfold MongoStorage.findPremiumCode | unfold LocalStorage.findPremiumCode];
    destruct (find _ _) as [c|] eqn:H; simpl; intros [= <-]; simpl;
    apply find_some in H as [_ H]; by apply String.eqb_eq.
Qed.

(** The two ways [MongoStorage.savePremiumCode] returns: a loaded
    document saved in place, or a new document that passed the validators
    and was inserted at the end. *)
Lemma mongo_savePremiumCode_returned (pc : doc IPremiumCode) (s s' : MongoStorage.t) :
  MongoStorage.savePremiumCode pc s = Returned s' →
  MongoStorage.premiumModel s' = MongoStorage.premiumModel s ∧
  ((∃ i, findIndex (λ c, String.eqb (code c) (code (body pc)))
                   (MongoStorage.premiumCodeModel s) = Some i ∧
         loaded pc = true ∧
         MongoStorage.premiumCodeModel s'
         = <[i := MongoStorage.castCode (body pc)]> (MongoStorage.premiumCodeModel s))
   ∨ (findIndex (λ c, String.eqb (code c) (code (body pc)))
                (MongoStorage.premiumCodeModel s) = None ∧
      loaded pc = false ∧
      MongoStorage.validate (body pc) = [] ∧
      MongoStorage.premiumCodeModel s'
      = MongoStorage.premiumCodeModel s ++ [MongoStorage.castCode (body pc)])).
Proof.
  unfold MongoStorage.savePremiumCode.
  destruct (loaded pc).
  - destruct (findIndex _ _) as [i|] eqn:Hi; [|done].
    intros [= <-]. split; [done|]. left. by exists i.
  - destruct (MongoStorage.validate (body pc)) eqn:Hv; [|done].
    destruct (findIndex _ _) as [i|] eqn:Hi; [done|].
    intros [= <-]. split; [done|]. by right.
Qed.

Lemma findPremiumCode_savePremiumCode (pc : doc IPremiumCode) (st st' : IStorage) :
  Storage.savePremiumCode pc st = Returned st' →
  body <$> Storage.findPremiumCode (code (body pc)) st' = Some (kept_code st (body pc)).
Proof.
  destruct st as [s|s]; simpl.
  - destruct (MongoStorage.savePremiumCode pc s) as [s'|] eqn:Hs; simpl; [|done].
    intros [= <-].
    destruct (mongo_savePremiumCode_returned _ _ _ Hs)
      as [_ [(i & Hi & _ & Hc) | (Hi & _ & _ & Hc)]];
      simpl; unfold MongoStorage.findPremiumCode; rewrite Hc.
    + erewrite find_insert_at; [done|exact Hi|]. simpl. apply String.eqb_refl.
    + erewrite find_push; [done|exact Hi|]. simpl. apply String.eqb_refl.
  - intros [= <-].
    unfold Storage.findPremiumCode, LocalStorage.findPremiumCode,
      LocalStorage.writePremiumCodes.
    cbn [LocalStorage.premiumCodePath].
    rewrite find_fmap by done.
    destruct (findIndex _ _) as [i|] eqn:Hi.
    + destruct (findIndex_find _ _ _ Hi) as (x & -> & _ & _).
      erewrite find_insert_at; [done|exact Hi|]. simpl. apply String.eqb_refl.
    + erewrite find_push; [done|exact Hi|]. apply String.eqb_refl.
Qed.

(** ** Operations that leave a part of the manager alone *)

Section Keeps.
Import PremiumManager.

Variable R : t → t → Prop.
Hypothesis R_refl : ∀ m, R m m.
Hypothesis R_trans : ∀ a b c, R a b → R b c → R a c.

Lemma keeps_ret {A} (a : A) : keeps R (ret a).
Proof. intros m. apply R_refl. Qed.

Lemma keeps_throw {A} (e : error) : keeps R (@throw A e).
Proof. intros m. apply R_refl. Qed.

Lemma keeps_read {A} (f : t → A) : keeps R (λ m, (Returned (f m), m)).
Proof. intros m. apply R_refl. Qed.

Lemma keeps_bind {A B} (c : M A) (k : A → M B) :
  keeps R c → (∀ a, keeps R (k a)) → keeps R (bind c k).
Proof.
  intros Hc Hk m. unfold bind. specialize (Hc m).
  destruct (c m) as [[a|e] m']; simpl in *; [|done].
  eapply R_trans; [exact Hc|]. apply Hk.
Qed.

Lemma keeps_for_each {A} (l : list A) (f : A → M unit) :
  (∀ x, keeps R (f x)) → keeps R (for_each l f).
Proof.
  intros Hf. induction l as [|x l IH]; simpl.
  - apply keeps_ret.
  - apply keeps_bind; auto.
Qed.

Lemma keeps_try_catch (c : M unit) : keeps R c → keeps R (try_catch c).
Proof.
  intros Hc m. unfold try_catch. specialize (Hc m).
  by destruct (c m) as [[a|e] m'].
Qed.

End Keeps.

(** Case analysis on the conditionals of an operation, down to its
    primitive steps; [Hr] and [Ht] are the reflexivity and transitivity of
    the relation kept. *)
Ltac keeps_steps Hr Ht :=
  repeat first
    [ apply (keeps_bind _ Ht)
    | apply (keeps_for_each _ Hr Ht)
    | apply keeps_try_catch
    | apply (keeps_ret _ Hr)
    | apply (keeps_throw _ Hr)
    | apply (keeps_read _ Hr)
    | match goal with
      | |- ∀ _, _ => intro
      | |- keeps _ (match ?x with _ => _ end) => destruct x eqn:?
      end ].

(** ** The capacity of a redemption code *)

Lemma within_capacity_castCode c :
  within_capacity (MongoStorage.castCode c) ↔ within_capacity c.
Proof.
  unfold within_capacity. simpl. rewrite length_fmap.
  split; (intros [H|H]; [left|by right]).
  - by apply fmap_nil_inv in H.
  - by rewrite H.
Qed.

Lemma within_capacity_toJSON c :
  within_capacity (code_toJSON c) ↔ within_capacity c.
Proof.
  unfold within_capacity. simpl. rewrite length_fmap.
  split; (intros [H|H]; [left|by right]).
  - by apply fmap_nil_inv in H.
  - by rewrite H.
Qed.

Lemma savePremiumCode_within_capacity pc st st' :
  within_capacity (body pc) →
  Forall within_capacity (Storage.getAllPremiumCodes st) →
  Storage.savePremiumCode pc st = Returned st' →
  Forall within_capacity (Storage.getAllPremiumCodes st').
Proof.
  intros Hpc Hst. destruct st as [s|s]; simpl in *.
  - destruct (MongoStorage.savePremiumCode pc s) as [s'|] eqn:Hs; simpl; [|done].
    intros [= <-].
    destruct (mongo_savePremiumCode_returned _ _ _ Hs)
      as [_ [(i & _ & _ & Hc) | (_ & _ & _ & Hc)]];
      simpl; unfold MongoStorage.getAllPremiumCodes; rewrite Hc.
    + apply Forall_insert; [done|]. by apply within_capacity_castCode.
    + apply Forall_app. split; [done|].
      apply Forall_singleton. by apply within_capacity_castCode.
  - intros [= <-]. simpl. apply Forall_fmap.
    assert (Forall within_capacity
      match findIndex (λ c, String.eqb (code c) (code (body pc)))
                      (LocalStorage.premiumCodePath s) with
      | Some i =>
          match LocalStorage.premiumCodePath s !! i with
          | Some existing =>
              <[i := LocalStorage.spread existing (body pc)]> (LocalStorage.premiumCodePath s)
          | None => LocalStorage.premiumCodePath s
          end
      | None => LocalStorage.premiumCodePath s ++ [body pc]
      end) as H.
    { destruct (findIndex _ _) as [i|].
      - destruct (_ !! i); [|done]. apply Forall_insert; [done|].
        by destruct pc as [? []].
      - apply Forall_app. split; [done|]. by apply Forall_singleton. }
    eapply Forall_impl; [exact H|]. intros c Hc. by apply within_capacity_toJSON.
Qed.

(** ** Invariants of the storage *)

(** A property [I] of the storage that the two saves maintain, for the
    codes [Q] that the manager hands to [savePremiumCode], holds after
    every call. *)
Section StorageInvariant.
Import PremiumManager.

Variable I : IStorage → Prop.
Variable P : IPremiumCode → Prop.

Hypothesis I_savePremium : ∀ p st st',
  I st → Storage.savePremium p st = Returned st' → I st'.
Hypothesis I_savePremiumCode : ∀ pc st st',
  P (body pc) → I st → Storage.savePremiumCode pc st = Returned st' → I st'.
Hypothesis P_new : ∀ c, activations c = [] → P c.
Hypothesis P_push : ∀ a d,
  (inject_Z (Z.of_nat (length (activations (body d)))) < maxActivations (body d))%Q →
  P (body (Storage.push a d)).

Lemma inv_kept_refl m : inv_kept I m m.
Proof. by intros ?. Qed.

Lemma inv_kept_trans a b c : inv_kept I a b → inv_kept I b c → inv_kept I a c.
Proof. unfold inv_kept. auto. Qed.

Local Abbreviation kept := (keeps (inv_kept I)).

Lemma kept_same_storage {A} (c : M A) :
  (∀ m, storage (snd (c m)) = storage m) → kept c.
Proof. intros H m Hm. by rewrite H. Qed.

Lemma kept_storage_findPremium id : kept (storage_findPremium id).
Proof. by apply kept_same_storage. Qed.

Lemma kept_storage_findPremiumCode k : kept (storage_findPremiumCode k).
Proof. by apply kept_same_storage. Qed.

Lemma kept_storage_savePremium p : kept (storage_savePremium p).
Proof.
  intros m Hm. unfold storage_savePremium, storage_update.
  destruct (Storage.savePremium p (storage m)) eqn:H; [|done].
  exact (I_savePremium _ _ _ Hm H).
Qed.

Lemma kept_storage_savePremium_literal d premium :
  kept (storage_savePremium_literal d premium).
Proof.
  intros m Hm. unfold storage_savePremium_literal, storage_update.
  destruct (Storage.savePremium_literal d premium (storage m)) eqn:H; [|done].
  unfold Storage.savePremium_literal in H.
  destruct d as [d|].
  - exact (I_savePremium _ _ _ Hm H).
  - revert Hm H. generalize (storage m). intros [s|s] Hm H; [done|].
    exact (I_savePremium _ _ _ Hm H).
Qed.

Lemma kept_storage_assign_expiresAt d entity :
  kept (storage_assign_expiresAt d entity).
Proof. by apply kept_same_storage. Qed.

Lemma kept_storage_savePremiumCode pc :
  P (body pc) → kept (storage_savePremiumCode pc).
Proof.
  intros Hpc m Hm. unfold storage_savePremiumCode, storage_update.
  destruct (Storage.savePremiumCode pc (storage m)) eqn:H; [|done].
  exact (I_savePremiumCode _ _ _ Hpc Hm H).
Qed.

Lemma kept_cache_get now key : kept (cache_get now key).
Proof.
  apply kept_same_storage. intros m. unfold cache_get.
  by destruct (NodeCache.get now key (cache m)).
Qed.

Lemma kept_cache_set now key x : kept (cache_set now key x).
Proof. by apply kept_same_storage. Qed.

Lemma kept_cache_del key : kept (cache_del key).
Proof. by apply kept_same_storage. Qed.

Lemma kept_cache_flushAll : kept cache_flushAll.
Proof. by apply kept_same_storage. Qed.

Lemma kept_emit e : kept (emit e).
Proof.
  apply kept_same_storage. intros m. unfold emit.
  by destruct (call_listeners (listeners m) e) as [? []].
Qed.

Lemma kept_on n l : kept (on n l).
Proof. by apply kept_same_storage. Qed.

Create HintDb kept.

Hint Resolve kept_storage_findPremium kept_storage_findPremiumCode
  kept_storage_savePremium kept_storage_savePremium_literal
  kept_storage_assign_expiresAt kept_cache_get kept_cache_set kept_cache_del
  kept_cache_flushAll kept_emit kept_on : kept.

Ltac kept_op :=
  keeps_steps inv_kept_refl inv_kept_trans; auto with kept.

Lemma kept_addPremium now id d by_ : kept (addPremium now id d by_).
Proof. unfold addPremium. kept_op. Qed.

Lemma kept_removePremium id : kept (removePremium id).
Proof. unfold removePremium. kept_op. Qed.

Hint Resolve kept_addPremium kept_removePremium : kept.

Lemma kept_isPremium now id : kept (PremiumManager.isPremium now id).
Proof. unfold PremiumManager.isPremium. kept_op. Qed.

Lemma kept_getPremiumStatus now id : kept (getPremiumStatus now id).
Proof. unfold getPremiumStatus. kept_op. Qed.

Hint Resolve kept_getPremiumStatus : kept.

Lemma kept_getPremiumTimeRemaining now id : kept (getPremiumTimeRemaining now id).
Proof. unfold getPremiumTimeRemaining. kept_op. Qed.

Lemma kept_createPremiumCode now token by_ d n :
  kept (createPremiumCode now token by_ d n).
Proof.
  unfold createPremiumCode. kept_op.
  apply kept_storage_savePremiumCode. by apply P_new.
Qed.

Lemma kept_redeemPremiumCode now id k by_ :
  kept (redeemPremiumCode now id k by_).
Proof.
  unfold redeemPremiumCode. kept_op.
  apply kept_storage_savePremiumCode, P_push.
  match goal with
  | H : Qle_bool _ _ = false |- _ =>
      apply Qnot_le_lt; rewrite <- Qle_bool_iff; by rewrite H
  end.
Qed.

Lemma kept_checkExpiredPremiums now : kept (checkExpiredPremiums now).
Proof. unfold checkExpiredPremiums. kept_op. Qed.

Lemma kept_getPremiumCodeInfo now k : kept (getPremiumCodeInfo now k).
Proof. unfold getPremiumCodeInfo. kept_op. Qed.

Lemma kept_extendPremium now id days : kept (extendPremium now id days).
Proof. unfold extendPremium. kept_op. Qed.

Lemma kept_clearCache now : kept (clearCache now).
Proof. unfold clearCache, PremiumManager.preloadTables. kept_op. Qed.

Lemma exec_inv_kept now c m : inv_kept I m (exec now c m).
Proof.
  destruct c; simpl.
  - apply kept_isPremium.
  - apply kept_addPremium.
  - apply kept_removePremium.
  - apply kept_getPremiumStatus.
  - apply kept_getPremiumTimeRemaining.
  - apply kept_createPremiumCode.
  - apply kept_redeemPremiumCode.
  - apply kept_checkExpiredPremiums.
  - apply kept_getPremiumCodeInfo.
  - apply kept_extendPremium.
  - apply kept_clearCache.
  - apply kept_on.
Qed.

Lemma reachable_inv m :
  I (Mongo MongoStorage.empty) → I (Local LocalStorage.empty) →
  reachable m → I (storage m).
Proof.
  intros Hmongo Hlocal.
  induction 1 as [cfg st [-> | ->] | now c m _ IH]; [done|done|].
  by apply exec_inv_kept.
Qed.

End StorageInvariant.

Lemma reachable_within_capacity m : reachable m → codes_within_capacity m.
Proof.
  apply (reachable_inv
           (λ st, Forall within_capacity (Storage.getAllPremiumCodes st))
           within_capacity).
  - intros p st st' Hst Hsave. by rewrite (savePremium_codes _ _ _ Hsave).
  - intros pc st st' Hpc Hst Hsave.
    exact (savePremiumCode_within_capacity _ _ _ Hpc Hst Hsave).
  - intros c Hc. by left.
  - intros a d Hlt. right. unfold Storage.push.
    cbn [body activations maxActivations].
    rewrite length_app, Nat2Z.inj_add, inject_Z_plus.
    change (inject_Z (Z.of_nat (length [_]))) with 1%Q. lra.
  - constructor.
  - constructor.
Qed.

Lemma reachable_run cs cfg st :
  empty_storage st → reachable (run cs (PremiumManager.constructor cfg st)).
Proof.
  intros Hst. unfold run.
  assert (reachable (PremiumManager.constructor cfg st)) as H by by constructor.
  revert H. generalize (PremiumManager.constructor cfg st).
  induction cs as [|[now c] cs IH]; intros m Hm; simpl; [done|].
  apply IH. by constructor.
Defined.

(** ** C1: capacity of the redemption codes *)

(** C1, as stated, fails: [createPremiumCode] stores the capacity it is
    given whenever that is truthy, and [redeemPremiumCode] accepts as long
    as the activations are fewer than it. A code of capacity 1.5 is redeemed
    twice, and then holds two activations. *)
Lemma capacity_bound_fails_for_fractional_capacity :
  reachable fractional_capacity ∧
  ∃ c, stored_codes fractional_capacity = [c] ∧
       (1 <= maxActivations c)%Q ∧
       length (activations c) = 2%nat ∧
       ¬ (inject_Z (Z.of_nat (length (activations c))) <= maxActivations c)%Q.
Proof.
  split.
  - apply reachable_run. by right.
  - eexists. split; [vm_compute; reflexivity|]. simpl.
    split; [by vm_compute|]. split; [done|]. intros H. by vm_compute in H.
Qed.

(** Nor is the capacity checked when the code is created: with capacity -1
    the empty list of activations is already longer than the capacity. *)
Lemma capacity_bound_fails_for_negative_capacity :
  reachable negative_capacity ∧
  ∃ c, stored_codes negative_capacity = [c] ∧
       ¬ (inject_Z (Z.of_nat (length (activations c))) <= maxActivations c)%Q.
Proof.
  split.
  - apply reachable_run. by right.
  - eexists. split; [vm_compute; reflexivity|]. simpl.
    intros H. by vm_compute in H.
Qed.

(** C1 (amended): in every state reached by calls in sequence from an empty
    storage, every stored code has no activation, or has fewer than
    [maxActivations + 1] of them; so it has at most [maxActivations]
    activations whenever [maxActivations] is a whole number that is not
    negative. And [redeemPremiumCode] returns false and leaves the whole
    manager as it was when the code is unknown or has [maxActivations]
    activations or more. *)
Theorem redemption_capacity (m : PremiumManager.t) :
  reachable m →
  Forall (λ c,
            (activations c = [] ∨
             (inject_Z (Z.of_nat (length (activations c))) < maxActivations c + 1)%Q) ∧
            ∀ k : Z, 0 <= k → (maxActivations c == inject_Z k)%Q →
                     Z.of_nat (length (activations c)) <= k)
         (stored_codes m)
  ∧ ∀ now id k by_,
      match Storage.findPremiumCode k (PremiumManager.storage m) with
      | None => True
      | Some d =>
          (maxActivations (body d)
           <= inject_Z (Z.of_nat (length (activations (body d)))))%Q
      end →
      PremiumManager.redeemPremiumCode now id k by_ m = (Returned false, m).
Proof.
  intros Hm. split.
  - eapply Forall_impl; [exact (reachable_within_capacity m Hm)|].
    intros c Hc. split; [exact Hc|].
    intros k Hk Heq. destruct Hc as [Hnil|Hlt].
    + rewrite Hnil. simpl. lia.
    + rewrite Heq in Hlt. change 1%Q with (inject_Z 1) in Hlt.
      rewrite <- inject_Z_plus, <- Zlt_Qlt in Hlt. lia.
  - intros now id k by_ Hk.
    unfold PremiumManager.redeemPremiumCode, PremiumManager.bind,
      PremiumManager.storage_findPremiumCode.
    destruct (Storage.findPremiumCode k (PremiumManager.storage m)) as [d|]; [|done].
    by rewrite (proj2 (Qle_bool_iff _ _) Hk).
Qed.

Lemma redemption_capacity_witness :
  Forall (λ c,
            (activations c = [] ∨
             (inject_Z (Z.of_nat (length (activations c))) < maxActivations c + 1)%Q) ∧
            ∀ k : Z, 0 <= k → (maxActivations c == inject_Z k)%Q →
                     Z.of_nat (length (activations c)) <= k)
         (stored_codes code_used_up)
  ∧ PremiumManager.redeemPremiumCode 2 "e" "abc" "user" code_used_up
    = (Returned false, code_used_up)
  ∧ PremiumManager.redeemPremiumCode 2 "e" "unknown" "user" code_used_up
    = (Returned false, code_used_up).
Proof.
  destruct (redemption_capacity code_used_up
              (reachable_run _ _ _ (or_intror eq_refl))) as [H1 H2].
  split; [exact H1|]. split; apply H2; vm_compute; [discriminate|exact I].
Defined.

(** ** C3: lazy expiry in [isPremium] *)

(** C3, as stated, fails: [isPremium] answers from the cache first. With
    the default [cacheTTL] of 0 the [true] cached while the premium ran is
    still returned two days later, when the stored entitlement is flagged
    premium with an expiry in the past, and nothing is removed. *)
Lemma isPremium_cached_after_expiry :
  let now := 2 * 86400000 in
  (∃ e d, Storage.findPremium "e" (PremiumManager.storage cached_premium) = Some e ∧
          isPremium e = true ∧ expiresAt e = Some d ∧ getTime d <= now) ∧
  fst (PremiumManager.isPremium now "e" cached_premium) = Returned (VBool true) ∧
  stored_premiums (snd (PremiumManager.isPremium now "e" cached_premium))
    = stored_premiums cached_premium ∧
  PremiumManager.emitted (snd (PremiumManager.isPremium now "e" cached_premium))
    = PremiumManager.emitted cached_premium.
Proof.
  split; [|by vm_compute].
  eexists _, _. split; [vm_compute; reflexivity|].
  repeat split. vm_compute. discriminate.
Qed.

Lemma date_gt_past (d : jsdate) (now : Z) : getTime d <= now → date_gt d now = false.
Proof. destruct d; simpl; [|done]. intros. by apply Z.ltb_ge. Qed.

(** What [removePremium] does to a manager whose storage knows the
    entity. *)
Lemma removePremium_known (id : string) (m : PremiumManager.t) (e : IPremium) :
  Storage.findPremium id (PremiumManager.storage m) = Some e →
  ∃ st', Storage.savePremium (removed e) (PremiumManager.storage m) = Returned st' ∧
    let r := PremiumManager.removePremium id m in
    PremiumManager.storage (snd r) = st' ∧
    PremiumManager.cache (snd r)
      = delete (PremiumManager.getCacheKey "premiumStatus" id)
          (delete (PremiumManager.getCacheKey "isPremium" id) (PremiumManager.cache m)) ∧
    PremiumManager.emitted (snd r) = PremiumManager.emitted m ++ [premiumRemoved id] ∧
    PremiumManager.listeners (snd r) = PremiumManager.listeners m ∧
    PremiumManager.config (snd r) = PremiumManager.config m ∧
    fst r = match snd (call_listeners (PremiumManager.listeners m) (premiumRemoved id)) with
            | None => Returned tt
            | Some msg => Thrown (ListenerError msg)
            end.
Proof.
  intros He.
  destruct (savePremium_returns (removed e) (PremiumManager.storage m)) as [st' Hst'].
  exists st'. split; [done|].
  unfold PremiumManager.removePremium, PremiumManager.bind,
    PremiumManager.storage_findPremium.
  rewrite He.
  unfold PremiumManager.storage_savePremium, PremiumManager.storage_update.
  fold (removed e). rewrite Hst'. simpl.
  unfold PremiumManager.emit. simpl.
  destruct (call_listeners _ _) as [made [msg|]]; done.
Qed.

(** C3 (amended): when the cache has no live [isPremium] entry for the
    entity, and the stored entitlement is flagged premium with an expiry
    that is not in the future, [isPremium] runs [removePremium]: the
    entitlement is persisted with [isPremium = false] and
    [expiresAt = null], the [isPremium] and [premiumStatus] cache entries
    are deleted and [premiumRemoved] is emitted. It then caches and returns
    false, unless a listener of [premiumRemoved] threw, in which case the
    call rejects with what the listener threw. *)
Theorem isPremium_lazy_expiry (now : Z) (id : string) (m : PremiumManager.t)
    (e : IPremium) (d : jsdate) :
  fst (NodeCache.get now (PremiumManager.getCacheKey "isPremium" id)
         (PremiumManager.cache m)) = VUndefined →
  Storage.findPremium id (PremiumManager.storage m) = Some e →
  isPremium e = true →
  expiresAt e = Some d →
  getTime d <= now →
  let key := PremiumManager.getCacheKey "isPremium" id in
  let removal :=
    PremiumManager.removePremium id (snd (PremiumManager.cache_get now key m)) in
  let r := PremiumManager.isPremium now id m in
  r = match removal with
      | (Returned _, m') =>
          (Returned (VBool false),
           snd (PremiumManager.cache_set now key (VBool false) m'))
      | (Thrown err, m') => (Thrown err, m')
      end
  ∧ Storage.savePremium (removed e) (PremiumManager.storage m)
    = Returned (PremiumManager.storage (snd removal))
  ∧ (∃ e', Storage.findPremium id (PremiumManager.storage (snd r)) = Some e' ∧
           isPremium e' = false ∧ expiresAt e' = None)
  ∧ PremiumManager.cache (snd removal) !! key = None
  ∧ PremiumManager.cache (snd removal) !! PremiumManager.getCacheKey "premiumStatus" id = None
  ∧ PremiumManager.emitted (snd r) = PremiumManager.emitted m ++ [premiumRemoved id]
  ∧ fst r = match snd (call_listeners (PremiumManager.listeners m) (premiumRemoved id)) with
            | None => Returned (VBool false)
            | Some msg => Thrown (ListenerError msg)
            end.
Proof.
  intros Hmiss He Hflag Hexp Hpast key removal r.
  fold key in Hmiss. subst removal r.
  set (m1 := snd (PremiumManager.cache_get now key m)).
  set (removal := PremiumManager.removePremium id m1).
  set (r := PremiumManager.isPremium now id m).
  assert (PremiumManager.storage m1 = PremiumManager.storage m) as Hst1.
  { unfold m1, PremiumManager.cache_get. by destruct (NodeCache.get _ _ _). }
  assert (PremiumManager.listeners m1 = PremiumManager.listeners m) as Hls1.
  { unfold m1, PremiumManager.cache_get. by destruct (NodeCache.get _ _ _). }
  assert (PremiumManager.emitted m1 = PremiumManager.emitted m) as Hem1.
  { unfold m1, PremiumManager.cache_get. by destruct (NodeCache.get _ _ _). }
  assert (Storage.findPremium id (PremiumManager.storage m1) = Some e) as He1
    by by rewrite Hst1.
  destruct (removePremium_known id m1 e He1)
    as (st' & Hsave & Hst' & Hcache & Hem & Hls & _ & Hfst).
  simpl in Hst', Hcache, Hem, Hls, Hfst.
  fold removal in Hst', Hcache, Hem, Hls, Hfst.
  assert (r = match removal with
              | (Returned _, m') =>
                  (Returned (VBool false),
                   snd (PremiumManager.cache_set now key (VBool false) m'))
              | (Thrown err, m') => (Thrown err, m')
              end) as Hr.
  { unfold r, PremiumManager.isPremium, PremiumManager.bind. fold key.
    unfold removal. fold m1.
    unfold PremiumManager.cache_get in *.
    destruct (NodeCache.get now key (PremiumManager.cache m)) as [x data].
    simpl in Hmiss. subst x. simpl.
    unfold PremiumManager.storage_findPremium. simpl. rewrite He.
    rewrite Hflag, Hexp, (date_gt_past d now Hpast). simpl.
    by destruct (PremiumManager.removePremium id _) as [[[]|err] m']. }
  split; [exact Hr|].
  split; [by rewrite Hst', <- Hst1|].
  assert (PremiumManager.storage (snd r) = st') as Hstr.
  { rewrite Hr. by destruct removal as [[[]|err] m']. }
  assert (PremiumManager.emitted (snd r) = PremiumManager.emitted (snd removal)) as Hemr.
  { rewrite Hr. by destruct removal as [[[]|err] m']. }
  split.
  { exists (kept_premium (PremiumManager.storage m) (removed e)).
    rewrite Hstr. rewrite Hst1 in Hsave.
    rewrite <- (findPremium_entityId _ _ _ He) at 1.
    split; [exact (findPremium_savePremium _ _ _ Hsave)|].
    by destruct (PremiumManager.storage m). }
  split; [rewrite Hcache;
          rewrite lookup_delete_ne
            by exact (λ H, isPremium_key_ne_status _ _ (eq_sym H));
          apply lookup_delete_eq|].
  split; [rewrite Hcache; apply lookup_delete_eq|].
  split; [by rewrite Hemr, Hem, Hem1|].
  rewrite Hr. rewrite Hls1 in Hfst.
  destruct removal as [[[]|err] m']; simpl in *;
    destruct (call_listeners _ _) as [made [msg|]]; simpl in *; congruence.
Qed.

Lemma isPremium_lazy_expiry_witness :
  let now := 2 * 86400000 in
  let e := mkPremium "e" true (Some (DateObj 86400000)) (Some "admin") (Some (DateObj 0)) in
  fst (NodeCache.get now (PremiumManager.getCacheKey "isPremium" "e")
         (PremiumManager.cache one_day_premium)) = VUndefined ∧
  Storage.findPremium "e" (PremiumManager.storage one_day_premium) = Some e ∧
  getTime (DateObj 86400000) <= now ∧
  fst (PremiumManager.isPremium now "e" one_day_premium) = Returned (VBool false) ∧
  PremiumManager.emitted (snd (PremiumManager.isPremium now "e" one_day_premium))
    = PremiumManager.emitted one_day_premium ++ [premiumRemoved "e"].
Proof.
  intros now e.
  assert (fst (NodeCache.get now (PremiumManager.getCacheKey "isPremium" "e")
                 (PremiumManager.cache one_day_premium)) = VUndefined) as H1
    by (vm_compute; reflexivity).
  assert (Storage.findPremium "e" (PremiumManager.storage one_day_premium) = Some e) as H2
    by (vm_compute; reflexivity).
  assert (getTime (DateObj 86400000) <= now) as H3 by (vm_compute; discriminate).
  pose proof (isPremium_lazy_expiry now "e" one_day_premium e (DateObj 86400000)
                H1 H2 eq_refl eq_refl H3) as H.
  cbv zeta in H. destruct H as (_ & _ & _ & _ & _ & Hem & Hfst).
  split; [exact H1|]. split; [exact H2|]. split; [exact H3|].
  split; [exact Hfst|exact Hem].
Defined.

(** ** C4: exceptions thrown by listeners *)

(** C4, as stated, fails: [emit] is called with nothing around it, so the
    exception of the first listener is what [addPremium] rejects with, and
    the second listener is never called. *)
Lemma listener_exception_aborts_addPremium :
  let r := PremiumManager.addPremium 0 "e" 30 "admin" two_listeners in
  PremiumManager.listeners two_listeners
    = [(PremiumAdded, throwing_listener); (PremiumAdded, quiet_listener)] ∧
  fst r = Thrown (ListenerError "boom") ∧
  PremiumManager.calls (snd r)
    = [(1%nat, premiumAdded "e" (ValidDate (DateObj 2592000000)) "admin")].
Proof. by vm_compute. Qed.

Lemma event_name_eqb_refl n : event_name_eqb n n = true.
Proof. by destruct n. Qed.

(** As long as nobody throws, every listener of the event is called. *)
Lemma call_listeners_quiet ls e :
  snd (call_listeners ls e) = None →
  fst (call_listeners ls e) = (λ l, (lid l, e)) <$> listeners_of e ls.
Proof.
  unfold listeners_of.
  induction ls as [|[n l] ls IH]; simpl; [done|].
  destruct (event_name_eqb n (name_of e)); simpl; [|exact IH].
  destruct (react l e); [done|].
  destruct (call_listeners ls e) as [made r]. simpl in *.
  intros ->. by rewrite IH.
Qed.

(** The first listener that throws ends the delivery. *)
Lemma call_listeners_throw before l after e msg :
  snd (call_listeners before e) = None →
  react l e = Some msg →
  call_listeners (before ++ (name_of e, l) :: after) e
  = (fst (call_listeners before e) ++ [(lid l, e)], Some msg).
Proof.
  intros Hq Hl.
  induction before as [|[n' l'] before IH]; simpl in *.
  - by rewrite event_name_eqb_refl, Hl.
  - destruct (event_name_eqb n' (name_of e)); [|by apply IH].
    destruct (react l' e); [done|].
    destruct (call_listeners before e) as [made r]. simpl in *.
    by rewrite (IH Hq).
Qed.

Lemma emit_outcome e m :
  let r := PremiumManager.emit e m in
  fst r = match snd (call_listeners (PremiumManager.listeners m) e) with
          | None => Returned tt
          | Some msg => Thrown (ListenerError msg)
          end
  ∧ PremiumManager.storage (snd r) = PremiumManager.storage m
  ∧ PremiumManager.cache (snd r) = PremiumManager.cache m
  ∧ PremiumManager.config (snd r) = PremiumManager.config m
  ∧ PremiumManager.listeners (snd r) = PremiumManager.listeners m
  ∧ PremiumManager.emitted (snd r) = PremiumManager.emitted m ++ [e]
  ∧ PremiumManager.calls (snd r)
    = PremiumManager.calls m ++ fst (call_listeners (PremiumManager.listeners m) e).
Proof.
  unfold PremiumManager.emit.
  by destruct (call_listeners _ _) as [made [msg|]].
Qed.

(** ** [new Date(value)] *)

Lemma new_Date_valid t : valid_time t → new_Date t = ValidDate (DateObj t).
Proof.
  unfold valid_time, new_Date. intros H. by rewrite (proj2 (Z.leb_le _ _) H).
Qed.

Lemma new_Date_invalid t : ¬ valid_time t → new_Date t = InvalidDate.
Proof.
  unfold valid_time, new_Date. intros H.
  by destruct (Z.leb_spec (Z.abs t) max_time).
Qed.

(** ** What the emitting operations do, step by step *)

Lemma addPremium_effect now id d by_ m :
  valid_time (now + d * 24 * 60 * 60 * 1000) →
  let e := premiumAdded id (ValidDate (DateObj (now + d * 24 * 60 * 60 * 1000))) by_ in
  let r := PremiumManager.addPremium now id d by_ m in
  ∃ st', Storage.savePremium (granted now id d by_) (PremiumManager.storage m) = Returned st' ∧
    PremiumManager.storage (snd r) = st' ∧
    PremiumManager.cache (snd r)
      = delete (PremiumManager.getCacheKey "premiumStatus" id)
          (delete (PremiumManager.getCacheKey "isPremium" id) (PremiumManager.cache m)) ∧
    PremiumManager.emitted (snd r) = PremiumManager.emitted m ++ [e] ∧
    PremiumManager.calls (snd r)
      = PremiumManager.calls m ++ fst (call_listeners (PremiumManager.listeners m) e) ∧
    PremiumManager.listeners (snd r) = PremiumManager.listeners m ∧
    PremiumManager.config (snd r) = PremiumManager.config m ∧
    fst r = ends_with tt e m.
Proof.
  intros Hvalid e r.
  destruct (savePremium_returns (granted now id d by_) (PremiumManager.storage m))
    as [st' Hst'].
  exists st'. split; [done|].
  unfold r, ends_with, PremiumManager.addPremium, PremiumManager.bind,
    PremiumManager.storage_savePremium_literal, PremiumManager.storage_update.
  rewrite (new_Date_valid _ Hvalid).
  change (Storage.savePremium_literal _ _ (PremiumManager.storage m))
    with (Storage.savePremium (granted now id d by_) (PremiumManager.storage m)).
  rewrite Hst'. simpl.
  unfold PremiumManager.emit. simpl. fold e.
  destruct (call_listeners _ _) as [made [msg|]]; done.
Qed.

Lemma extendPremium_effect now id days m e :
  Storage.findPremium id (PremiumManager.storage m) = Some e →
  isPremium e = true →
  valid_time (extended_time now days e) →
  let ev := premiumExtended id (ValidDate (extended_expiry now days e)) in
  let r := PremiumManager.extendPremium now id days m in
  ∃ st', Storage.savePremium (extended now days e) (PremiumManager.storage m) = Returned st' ∧
    PremiumManager.storage (snd r) = st' ∧
    PremiumManager.cache (snd r)
      = delete (PremiumManager.getCacheKey "premiumStatus" id)
          (delete (PremiumManager.getCacheKey "isPremium" id) (PremiumManager.cache m)) ∧
    PremiumManager.emitted (snd r) = PremiumManager.emitted m ++ [ev] ∧
    PremiumManager.calls (snd r)
      = PremiumManager.calls m ++ fst (call_listeners (PremiumManager.listeners m) ev) ∧
    fst r = ends_with tt ev m.
Proof.
  intros He Hflag Hvalid ev r.
  destruct (savePremium_returns (extended now days e) (PremiumManager.storage m))
    as [st' Hst'].
  exists st'. split; [done|].
  unfold r, ev, ends_with, PremiumManager.extendPremium, PremiumManager.bind,
    PremiumManager.storage_findPremium.
  rewrite He, Hflag. cbn [negb].
  assert (match expiresAt e with
          | Some d => new_Date (getTime d + days * 86400000)
          | None => new_Date (now + days * 86400000)
          end = ValidDate (extended_expiry now days e)) as ->.
  { unfold extended_expiry. rewrite <- (new_Date_valid _ Hvalid).
    unfold extended_time. by destruct (expiresAt e). }
  unfold PremiumManager.storage_assign_expiresAt.
  change (Storage.assign_expiresAt (ValidDate (extended_expiry now days e)) e
            (PremiumManager.storage m)) with (extended now days e).
  unfold PremiumManager.storage_savePremium, PremiumManager.storage_update.
  rewrite Hst'. simpl. unfold PremiumManager.emit. simpl.
  destruct (call_listeners _ _) as [made [msg|]]; done.
Qed.


Lemma createPremiumCode_effect now token by_ d n m :
  let e := premiumCodeCreated token d by_ in
  let r := PremiumManager.createPremiumCode now token by_ d n m in
  match Storage.savePremiumCode
          (plain (created now token by_ d n (PremiumManager.config m)))
          (PremiumManager.storage m) with
  | Thrown err => r = (Thrown err, m)
  | Returned st' =>
      PremiumManager.storage (snd r) = st' ∧
      PremiumManager.cache (snd r) = PremiumManager.cache m ∧
      PremiumManager.emitted (snd r) = PremiumManager.emitted m ++ [e] ∧
      PremiumManager.calls (snd r)
        = PremiumManager.calls m ++ fst (call_listeners (PremiumManager.listeners m) e) ∧
      fst r = ends_with token e m
  end.
Proof.
  intros e r.
  unfold r, ends_with, PremiumManager.createPremiumCode, PremiumManager.bind,
    PremiumManager.storage_savePremiumCode, PremiumManager.storage_update.
  fold (created now token by_ d n (PremiumManager.config m)).
  destruct (Storage.savePremiumCode _ _) as [st'|err]; [|done]. simpl.
  unfold PremiumManager.emit. simpl. fold e.
  destruct (call_listeners _ _) as [made [msg|]]; done.
Qed.

Lemma capacity_left (c : Q) (n : nat) :
  (inject_Z (Z.of_nat n) < c)%Q → Qle_bool c (inject_Z (Z.of_nat n)) = false.
Proof.
  intros H. destruct (Qle_bool c (inject_Z (Z.of_nat n))) eqn:Hb; [|done].
  apply Qle_bool_iff in Hb. lra.
Qed.

Lemma savePremiumCode_found k st d a :
  Storage.findPremiumCode k st = Some d →
  ∃ st', Storage.savePremiumCode (Storage.push a d) st = Returned st'.
Proof.
  intros Hd. pose proof (findPremiumCode_code _ _ _ Hd) as Hk.
  destruct st as [s|s]; simpl in *; [|eauto].
  unfold MongoStorage.findPremiumCode in Hd.
  destruct (find _ _) as [c|] eqn:Hc; [|done]. simpl in Hd.
  injection Hd as <-. simpl in *.
  destruct (find_findIndex _ _ _ Hc) as (i & Hi & _).
  unfold MongoStorage.savePremiumCode, Storage.push. cbn [loaded body code].
  rewrite Hk, Hi. simpl. eauto.
Qed.

Lemma redeemPremiumCode_effect now id k by_ m d :
  Storage.findPremiumCode k (PremiumManager.storage m) = Some d →
  (inject_Z (Z.of_nat (length (activations (body d)))) < maxActivations (body d))%Q →
  valid_time (now + duration (body d) * 24 * 60 * 60 * 1000) →
  let a := {| Activation.entityId := Some id; Activation.activatedAt := DateObj now |} in
  let e1 := premiumAdded id
              (ValidDate (DateObj (now + duration (body d) * 24 * 60 * 60 * 1000))) by_ in
  let e2 := premiumCodeRedeemed id k by_ in
  let r := PremiumManager.redeemPremiumCode now id k by_ m in
  ∃ st1 st2,
    Storage.savePremiumCode (Storage.push a d) (PremiumManager.storage m) = Returned st1 ∧
    Storage.savePremium (granted now id (duration (body d)) by_) st1 = Returned st2 ∧
    PremiumManager.storage (snd r) = st2 ∧
    PremiumManager.calls (snd r)
      = PremiumManager.calls m
        ++ fst (call_listeners (PremiumManager.listeners m) e1)
        ++ match snd (call_listeners (PremiumManager.listeners m) e1) with
           | Some _ => []
           | None => fst (call_listeners (PremiumManager.listeners m) e2)
           end ∧
    match snd (call_listeners (PremiumManager.listeners m) e1) with
    | Some msg =>
        fst r = Thrown (ListenerError msg) ∧
        PremiumManager.emitted (snd r) = PremiumManager.emitted m ++ [e1]
    | None =>
        fst r = ends_with true e2 m ∧
        PremiumManager.emitted (snd r) = PremiumManager.emitted m ++ [e1; e2]
    end.
Proof.
  intros Hd Hlt Hvalid a e1 e2 r.
  destruct (savePremiumCode_found k _ d a Hd) as [st1 Hst1].
  pose proof (addPremium_effect now id (duration (body d)) by_
                (PremiumManager.with_storage st1 m) Hvalid) as Hadd.
  cbv zeta in Hadd. fold e1 in Hadd.
  destruct Hadd as (st2 & Hst2 & Hs & _ & Hem & Hcl & Hls & _ & Hfst).
  exists st1, st2. split; [done|]. split; [done|].
  unfold r, PremiumManager.redeemPremiumCode, PremiumManager.bind,
    PremiumManager.storage_findPremiumCode.
  rewrite Hd.
  rewrite (capacity_left _ _ Hlt).
  unfold PremiumManager.storage_savePremiumCode, PremiumManager.storage_update.
  fold a. rewrite Hst1.
  change (duration (body (Storage.push a d))) with (duration (body d)).
  unfold ends_with in *. simpl in Hfst, Hem, Hls, Hcl.
  destruct (PremiumManager.addPremium now id (duration (body d)) by_
              (PremiumManager.with_storage st1 m)) as [[[]|err] m2];
    simpl in *;
    destruct (call_listeners (PremiumManager.listeners m) e1) as [made1 [msg1|]];
    simpl in *; try discriminate.
  - unfold PremiumManager.emit. rewrite Hls, Hem, Hs, Hcl. fold e2.
    destruct (call_listeners (PremiumManager.listeners m) e2) as [made2 [msg2|]];
      simpl; rewrite <- !app_assoc; done.
  - injection Hfst as ->. by rewrite Hcl, app_nil_r.
Qed.

Lemma savePremium_findPremiumCode p st st' k :
  Storage.savePremium p st = Returned st' →
  Storage.findPremiumCode k st' = Storage.findPremiumCode k st.
Proof. destruct st; simpl; intros [= <-]; done. Qed.

Lemma kept_code_activations st c :
  length (activations (kept_code st c)) = length (activations c).
Proof. destruct st; simpl; apply length_fmap. Qed.

(** C4 (amended): an exception thrown by a listener is not caught. [emit]
    calls the listeners of the event in registration order up to the first
    one that throws and calls none of those registered after it; the
    emitting operation rejects with that exception, and what it wrote to
    the storage and to the cache before emitting stays written. This holds
    for [addPremium], [removePremium], [extendPremium], [createPremiumCode]
    and [redeemPremiumCode], the last both for the [premiumAdded] that its
    call of [addPremium] emits and for its own [premiumCodeRedeemed]; the
    expiry an operation computes is taken to be a time value and the save
    of a new code to succeed. *)
Theorem listener_exception_propagates (m : PremiumManager.t) (e : event)
    (before after : list (event_name * listener)) (l : listener) (msg : string) :
  PremiumManager.listeners m = before ++ (name_of e, l) :: after →
  snd (call_listeners before e) = None →
  react l e = Some msg →
  (let r := PremiumManager.emit e m in
   fst r = Thrown (ListenerError msg) ∧
   PremiumManager.calls (snd r)
     = PremiumManager.calls m
       ++ ((λ l', (lid l', e)) <$> listeners_of e before) ++ [(lid l, e)] ∧
   PremiumManager.storage (snd r) = PremiumManager.storage m ∧
   PremiumManager.cache (snd r) = PremiumManager.cache m)
  ∧ (∀ now id d by_,
       valid_time (now + d * 24 * 60 * 60 * 1000) →
       e = premiumAdded id (ValidDate (DateObj (now + d * 24 * 60 * 60 * 1000))) by_ →
       let r := PremiumManager.addPremium now id d by_ m in
       fst r = Thrown (ListenerError msg) ∧
       Storage.findPremium id (PremiumManager.storage (snd r))
         = Some (kept_premium (PremiumManager.storage m) (granted now id d by_)) ∧
       PremiumManager.cache (snd r) !! PremiumManager.getCacheKey "isPremium" id = None ∧
       PremiumManager.cache (snd r) !! PremiumManager.getCacheKey "premiumStatus" id = None)
  ∧ (∀ id p,
       e = premiumRemoved id →
       Storage.findPremium id (PremiumManager.storage m) = Some p →
       let r := PremiumManager.removePremium id m in
       fst r = Thrown (ListenerError msg) ∧
       Storage.findPremium id (PremiumManager.storage (snd r))
         = Some (kept_premium (PremiumManager.storage m) (removed p)))
  ∧ (∀ now id days p,
       Storage.findPremium id (PremiumManager.storage m) = Some p →
       isPremium p = true →
       valid_time (extended_time now days p) →
       e = premiumExtended id (ValidDate (extended_expiry now days p)) →
       let r := PremiumManager.extendPremium now id days m in
       fst r = Thrown (ListenerError msg) ∧
       Storage.findPremium id (PremiumManager.storage (snd r))
         = Some (kept_premium (PremiumManager.storage m) (extended now days p)))
  ∧ (∀ now token by_ d n st',
       e = premiumCodeCreated token d by_ →
       Storage.savePremiumCode
         (plain (created now token by_ d n (PremiumManager.config m)))
         (PremiumManager.storage m) = Returned st' →
       let r := PremiumManager.createPremiumCode now token by_ d n m in
       fst r = Thrown (ListenerError msg) ∧
       PremiumManager.storage (snd r) = st')
  ∧ (∀ now id k by_ c,
       Storage.findPremiumCode k (PremiumManager.storage m) = Some c →
       (inject_Z (Z.of_nat (length (activations (body c)))) < maxActivations (body c))%Q →
       valid_time (now + duration (body c) * 24 * 60 * 60 * 1000) →
       e = premiumAdded id
             (ValidDate (DateObj (now + duration (body c) * 24 * 60 * 60 * 1000))) by_ →
       let r := PremiumManager.redeemPremiumCode now id k by_ m in
       fst r = Thrown (ListenerError msg) ∧
       PremiumManager.emitted (snd r) = PremiumManager.emitted m ++ [e] ∧
       ∃ c', body <$> Storage.findPremiumCode k (PremiumManager.storage (snd r)) = Some c' ∧
             length (activations c') = S (length (activations (body c))))
  ∧ (∀ now id k by_ c,
       Storage.findPremiumCode k (PremiumManager.storage m) = Some c →
       (inject_Z (Z.of_nat (length (activations (body c)))) < maxActivations (body c))%Q →
       valid_time (now + duration (body c) * 24 * 60 * 60 * 1000) →
       let added := premiumAdded id
                      (ValidDate (DateObj (now + duration (body c) * 24 * 60 * 60 * 1000)))
                      by_ in
       snd (call_listeners (PremiumManager.listeners m) added) = None →
       e = premiumCodeRedeemed id k by_ →
       let r := PremiumManager.redeemPremiumCode now id k by_ m in
       fst r = Thrown (ListenerError msg) ∧
       PremiumManager.emitted (snd r) = PremiumManager.emitted m ++ [added; e] ∧
       PremiumManager.calls (snd r)
         = PremiumManager.calls m
           ++ ((λ l', (lid l', added)) <$> listeners_of added (PremiumManager.listeners m))
           ++ ((λ l', (lid l', e)) <$> listeners_of e before) ++ [(lid l, e)] ∧
       (∃ c', body <$> Storage.findPremiumCode k (PremiumManager.storage (snd r)) = Some c' ∧
              length (activations c') = S (length (activations (body c)))) ∧
       status_of <$> Storage.findPremium id (PremiumManager.storage (snd r))
         = Some (true, Some (now + duration (body c) * 24 * 60 * 60 * 1000),
                 Some by_, Some now)).
Proof.
  intros Hls Hquiet Hl.
  assert (call_listeners (PremiumManager.listeners m) e
          = (fst (call_listeners before e) ++ [(lid l, e)], Some msg)) as Hcall.
  { rewrite Hls. by apply call_listeners_throw. }
  assert (∀ A (a : A), ends_with a e m = Thrown (ListenerError msg)) as Hend.
  { intros A a. unfold ends_with. by rewrite Hcall. }
  assert (∀ now id k c,
            Storage.findPremiumCode k (PremiumManager.storage m) = Some c →
            ∀ st1 st2 p,
              Storage.savePremiumCode
                (Storage.push {| Activation.entityId := Some id;
                                 Activation.activatedAt := DateObj now |} c)
                (PremiumManager.storage m) = Returned st1 →
              Storage.savePremium p st1 = Returned st2 →
              ∃ c', body <$> Storage.findPremiumCode k st2 = Some c' ∧
                    length (activations c') = S (length (activations (body c))))
    as Hstored.
  { intros now id k c Hc st1 st2 p Hs1 Hs2.
    rewrite (savePremium_findPremiumCode _ _ _ k Hs2).
    pose proof (findPremiumCode_savePremiumCode _ _ _ Hs1) as Hfound.
    assert (code (body (Storage.push
              {| Activation.entityId := Some id;
                 Activation.activatedAt := DateObj now |} c)) = k) as Hk
      by exact (findPremiumCode_code _ _ _ Hc).
    rewrite Hk in Hfound. eexists. split; [exact Hfound|].
    rewrite kept_code_activations. simpl. rewrite length_app. simpl. lia. }
  split; [|split; [|split; [|split; [|split; [|split]]]]].
  - destruct (emit_outcome e m) as (Hfst & Hst & Hc & _ & _ & _ & Hcalls).
    cbv zeta. rewrite Hfst, Hcalls, Hcall. simpl.
    by rewrite (call_listeners_quiet _ _ Hquiet).
  - intros now id d by_ Hvalid ->.
    destruct (addPremium_effect now id d by_ m Hvalid)
      as (st' & Hsave & Hst & Hc & _ & _ & _ & _ & Hfst).
    cbv zeta. rewrite Hfst, Hend, Hst, Hc. split; [done|]. split; [|split].
    + exact (findPremium_savePremium _ _ _ Hsave).
    + rewrite lookup_delete_ne
        by exact (λ H, isPremium_key_ne_status _ _ (eq_sym H)).
      apply lookup_delete_eq.
    + apply lookup_delete_eq.
  - intros id p -> Hp.
    destruct (removePremium_known id m p Hp)
      as (st' & Hsave & Hst & _ & _ & _ & _ & Hfst).
    cbv zeta. simpl in Hst, Hfst. rewrite Hfst, Hst, Hcall. split; [done|].
    rewrite <- (findPremium_entityId _ _ _ Hp) at 1.
    exact (findPremium_savePremium _ _ _ Hsave).
  - intros now id days p Hp Hflag Hvalid ->.
    destruct (extendPremium_effect now id days m p Hp Hflag Hvalid)
      as (st' & Hsave & Hst & _ & _ & _ & Hfst).
    cbv zeta. rewrite Hfst, Hend, Hst. split; [done|].
    rewrite <- (findPremium_entityId _ _ _ Hp) at 1.
    exact (findPremium_savePremium _ _ _ Hsave).
  - intros now token by_ d n st' -> Hsave.
    pose proof (createPremiumCode_effect now token by_ d n m) as H.
    cbv zeta in H. rewrite Hsave in H.
    destruct H as (Hst & _ & _ & _ & Hfst).
    cbv zeta. by rewrite Hfst, Hend.
  - intros now id k by_ c Hc Hlt Hvalid ->.
    destruct (redeemPremiumCode_effect now id k by_ m c Hc Hlt Hvalid)
      as (st1 & st2 & Hs1 & Hs2 & Hst & _ & H).
    rewrite Hcall in H. simpl in H. destruct H as [Hfst Hem].
    cbv zeta. rewrite Hfst, Hem, Hst. split; [done|]. split; [done|].
    exact (Hstored now id k c Hc st1 st2 _ Hs1 Hs2).
  - intros now id k by_ c Hc Hlt Hvalid added Hadded ->.
    destruct (redeemPremiumCode_effect now id k by_ m c Hc Hlt Hvalid)
      as (st1 & st2 & Hs1 & Hs2 & Hst & Hcalls & H).
    fold added in H, Hcalls. rewrite Hadded in H. destruct H as [Hfst Hem].
    cbv zeta. rewrite Hfst, Hend, Hem, Hst, Hcalls, Hadded, Hcall.
    rewrite (call_listeners_quiet _ _ Hadded), (call_listeners_quiet _ _ Hquiet).
    split; [done|]. split; [done|]. split; [done|].
    split; [exact (Hstored now id k c Hc st1 st2 _ Hs1 Hs2)|].
    pose proof (findPremium_savePremium _ _ _ Hs2) as Hp.
    change (entityId (granted now id (duration (body c)) by_)) with id in Hp.
    rewrite Hp. by destruct st1.
Qed.

Lemma listener_exception_propagates_witness :
  let e := premiumAdded "e" (ValidDate (DateObj (0 + 30 * 24 * 60 * 60 * 1000))) "admin" in
  PremiumManager.listeners two_listeners
    = [] ++ (name_of e, throwing_listener) :: [(PremiumAdded, quiet_listener)] ∧
  snd (call_listeners [] e) = None ∧
  react throwing_listener e = Some "boom" ∧
  valid_time (0 + 30 * 24 * 60 * 60 * 1000) ∧
  fst (PremiumManager.emit e two_listeners) = Thrown (ListenerError "boom") ∧
  PremiumManager.calls (snd (PremiumManager.emit e two_listeners))
    = PremiumManager.calls two_listeners ++ [] ++ [(1%nat, e)] ∧
  (let r := PremiumManager.addPremium 0 "e" 30 "admin" two_listeners in
   fst r = Thrown (ListenerError "boom") ∧
   Storage.findPremium "e" (PremiumManager.storage (snd r))
     = Some (kept_premium (PremiumManager.storage two_listeners)
               (granted 0 "e" 30 "admin"))).
Proof.
  intros e.
  assert (PremiumManager.listeners two_listeners
          = [] ++ (name_of e, throwing_listener) :: [(PremiumAdded, quiet_listener)])
    as H1 by reflexivity.
  assert (snd (call_listeners [] e) = None) as H2 by reflexivity.
  assert (react throwing_listener e = Some "boom") as H3 by reflexivity.
  assert (valid_time (0 + 30 * 24 * 60 * 60 * 1000)) as H4
    by (vm_compute; discriminate).
  destruct (listener_exception_propagates two_listeners e [] _ throwing_listener
              "boom" H1 H2 H3) as [Hemit [Hadd _]].
  cbv zeta in Hemit. destruct Hemit as (Hfst & Hcalls & _).
  destruct (Hadd 0 "e" 30 "admin" H4 eq_refl) as (Hafst & Hafind & _).
  split; [exact H1|]. split; [exact H2|]. split; [exact H3|]. split; [exact H4|].
  split; [exact Hfst|]. split; [exact Hcalls|]. split; [exact Hafst|exact Hafind].
Defined.

(** ** C5: the days that remain *)

(** C5, as stated, fails: the stored flag is all [getPremiumTimeRemaining]
    looks at, so for an entitlement flagged premium whose expiry is one day
    in the past the answer is 0, not [null]. *)
Lemma time_remaining_of_expired_premium_is_zero :
  let now := 2 * 86400000 in
  (∃ e d, Storage.findPremium "e" (PremiumManager.storage one_day_premium) = Some e ∧
          isPremium e = true ∧ expiresAt e = Some d ∧ getTime d < now) ∧
  fst (PremiumManager.getPremiumTimeRemaining now "e" one_day_premium)
    = Returned (Some 0).
Proof.
  split; [|by vm_compute].
  eexists _, _. split; [vm_compute; reflexivity|].
  split; [done|]. split; [done|]. by vm_compute.
Qed.

Lemma ceil_div_bounds (a b : Z) :
  0 < b →
  a <= PremiumManager.ceil_div a b * b ∧ (PremiumManager.ceil_div a b - 1) * b < a.
Proof.
  intros Hb. unfold PremiumManager.ceil_div.
  pose proof (Z.div_mod (- a) b ltac:(lia)) as Hdm.
  pose proof (Z.mod_pos_bound (- a) b Hb) as Hmod.
  nia.
Qed.

Lemma getPremiumStatus_miss now id m :
  fst (NodeCache.get now (PremiumManager.getCacheKey "premiumStatus" id)
         (PremiumManager.cache m)) = VUndefined →
  fst (PremiumManager.getPremiumStatus now id m)
  = Returned (premium_or_null (Storage.findPremium id (PremiumManager.storage m))).
Proof.
  intros Hmiss.
  unfold PremiumManager.getPremiumStatus, PremiumManager.bind, PremiumManager.cache_get.
  destruct (NodeCache.get _ _ _) as [x data]. simpl in Hmiss. by subst x.
Qed.

(** C5 (amended): [getPremiumTimeRemaining] returns [null] whenever the
    status [getPremiumStatus] gives (the stored entitlement, when the cache
    has no live [premiumStatus] entry) is absent, has the stored flag
    false, or has no expiry; otherwise, whether the expiry is ahead or in
    the past, it returns [max(0, ceil((expiresAt - now) / 86400s))]: the
    least number of whole days, not negative, that reaches the expiry. *)
Theorem getPremiumTimeRemaining_spec (now : Z) (id : string) (m : PremiumManager.t) :
  let status := PremiumManager.getPremiumStatus now id m in
  let r := PremiumManager.getPremiumTimeRemaining now id m in
  snd r = snd status
  ∧ match fst status with
    | Returned (VPremium p) =>
        match isPremium p, expiresAt p with
        | true, Some d =>
            ∃ n, fst r = Returned (Some n) ∧
                 n = Z.max 0 (PremiumManager.ceil_div (getTime d - now) 86400000) ∧
                 0 <= n ∧
                 getTime d - now <= n * 86400000 ∧
                 (n = 0 ∨ (n - 1) * 86400000 < getTime d - now)
        | _, _ => fst r = Returned None
        end
    | Returned _ => fst r = Returned None
    | Thrown err => fst r = Thrown err
    end
  ∧ (fst (NodeCache.get now (PremiumManager.getCacheKey "premiumStatus" id)
            (PremiumManager.cache m)) = VUndefined →
     fst status
     = Returned (premium_or_null (Storage.findPremium id (PremiumManager.storage m)))).
Proof.
  intros status r. split; [|split].
  - unfold r, status, PremiumManager.getPremiumTimeRemaining, PremiumManager.bind.
    destruct (PremiumManager.getPremiumStatus now id m) as [[v|err] m']; [|done].
    destruct v as [| |b|p|c]; try done.
    destruct (isPremium p), (expiresAt p); done.
  - unfold r, status, PremiumManager.getPremiumTimeRemaining, PremiumManager.bind.
    destruct (PremiumManager.getPremiumStatus now id m) as [[v|err] m']; [|done].
    destruct v as [| |b|p|c]; try done. simpl.
    destruct (isPremium p), (expiresAt p) as [d|]; try done. simpl.
    eexists. split; [reflexivity|].
    change (1000 * 60 * 60 * 24) with 86400000.
    destruct (ceil_div_bounds (getTime d - now) 86400000 ltac:(lia)) as [H1 H2].
    split; [done|]. lia.
  - apply getPremiumStatus_miss.
Qed.

Lemma getPremiumTimeRemaining_spec_witness :
  let now := 2 * 86400000 in
  snd (PremiumManager.getPremiumTimeRemaining now "e" one_day_premium)
    = snd (PremiumManager.getPremiumStatus now "e" one_day_premium)
  ∧ ∃ n, fst (PremiumManager.getPremiumTimeRemaining now "e" one_day_premium)
           = Returned (Some n) ∧
         n = Z.max 0 (PremiumManager.ceil_div (getTime (DateObj 86400000) - now) 86400000) ∧
         0 <= n ∧
         getTime (DateObj 86400000) - now <= n * 86400000 ∧
         (n = 0 ∨ (n - 1) * 86400000 < getTime (DateObj 86400000) - now).
Proof.
  intros now.
  pose proof (getPremiumTimeRemaining_spec now "e" one_day_premium) as H.
  cbv zeta in H. destruct H as (H1 & H2 & _).
  split; [exact H1|exact H2].
Defined.

(** ** C8: [extendPremium] *)

Lemma kept_premium_fields st p :
  entityId (kept_premium st p) = entityId p ∧
  isPremium (kept_premium st p) = isPremium p ∧
  getTime <$> expiresAt (kept_premium st p) = getTime <$> expiresAt p ∧
  activatedBy (kept_premium st p) = activatedBy p ∧
  getTime <$> activatedAt (kept_premium st p) = getTime <$> activatedAt p.
Proof.
  destruct st; simpl; repeat split;
    (by destruct (expiresAt p)) || (by destruct (activatedAt p)).
Qed.





(** ** C10: the defaults of [createPremiumCode] *)

Lemma savePremiumCode_plain c st :
  match refusal c st with
  | Some err => Storage.savePremiumCode (plain c) st = Thrown err
  | None => ∃ st', Storage.savePremiumCode (plain c) st = Returned st'
  end.
Proof.
  destruct st as [s|s]; simpl; [|eauto].
  unfold MongoStorage.findPremiumCode, MongoStorage.savePremiumCode. simpl.
  destruct (MongoStorage.validate c); [|done].
  destruct (findIndex _ _) as [i|] eqn:Hi.
  - destruct (findIndex_find _ _ _ Hi) as (x & _ & _ & ->). done.
  - rewrite (findIndex_None _ _ Hi). simpl. eauto.
Qed.

Lemma kept_code_fields st c :
  code (kept_code st c) = code c ∧
  duration (kept_code st c) = duration c ∧
  maxActivations (kept_code st c) = maxActivations c ∧
  createdBy (kept_code st c) = createdBy c.
Proof. by destruct st. Qed.

Lemma number_or_falsy x fallback : falsy x → PremiumManager.number_or x fallback = fallback.
Proof. by intros [-> | ->]. Qed.

Lemma capacity_or_falsy x fallback :
  falsy_capacity x → PremiumManager.capacity_or x fallback = fallback.
Proof.
  destruct x as [q|]; simpl; [|done].
  intros H. by rewrite (proj2 (Qeq_bool_iff _ _) H).
Qed.

(** C10, as stated, fails: the code is not persisted in every call.
    [PremiumCodeSchema] requires [createdBy], and the validator of a
    required string refuses the empty one: on the Mongo storage the call
    rejects, no code is persisted and no event is emitted. *)
Lemma createPremiumCode_without_creator_is_refused :
  let r := PremiumManager.createPremiumCode 7 "abc" "" (Some 0) None mongo_manager in
  falsy (Some 0) ∧
  fst r = Thrown (ValidationError ["createdBy"]) ∧
  stored_codes (snd r) = [] ∧
  PremiumManager.emitted (snd r) = [].
Proof. split; [by right|by vm_compute]. Qed.

(** C10 (amended): when [duration] is omitted or 0 and the storage accepts
    the new code, the code [createPremiumCode] persists carries the
    configured [defaultPremiumDuration] (and the configured
    [maxActivationsPerCode] when [maxActivations] is omitted or 0), while
    the [premiumCodeCreated] event carries the [duration] argument as it
    was passed. The local storage accepts every code. The Mongo storage
    refuses a code whose name or [createdBy] is empty (the schema requires
    them) and a code whose name the collection already holds: the call
    then rejects with that error, and nothing is persisted or emitted. *)
Theorem createPremiumCode_falsy_duration (now : Z) (token by_ : string)
    (d : option Z) (n : option Q) (m : PremiumManager.t) :
  falsy d →
  let r := PremiumManager.createPremiumCode now token by_ d n m in
  let cfg := PremiumManager.config m in
  match refusal (created now token by_ d n cfg) (PremiumManager.storage m) with
  | Some err => r = (Thrown err, m)
  | None =>
    (∃ c, body <$> Storage.findPremiumCode token (PremiumManager.storage (snd r)) = Some c ∧
          duration c = Required.defaultPremiumDuration cfg ∧
          (falsy_capacity n → maxActivations c = Required.maxActivationsPerCode cfg) ∧
          createdBy c = by_)
    ∧ PremiumManager.emitted (snd r)
      = PremiumManager.emitted m ++ [premiumCodeCreated token d by_]
    ∧ fst r = match snd (call_listeners (PremiumManager.listeners m)
                           (premiumCodeCreated token d by_)) with
              | None => Returned token
              | Some msg => Thrown (ListenerError msg)
              end
  end.
Proof.
  intros Hd r cfg.
  pose proof (createPremiumCode_effect now token by_ d n m) as Heff.
  cbv zeta in Heff. fold r in Heff.
  pose proof (savePremiumCode_plain (created now token by_ d n cfg)
                (PremiumManager.storage m)) as Hsave.
  destruct (refusal _ _) as [err|].
  - fold cfg in Heff. by rewrite Hsave in Heff.
  - destruct Hsave as [st' Hst']. fold cfg in Heff. rewrite Hst' in Heff.
    destruct Heff as (Hst & _ & Hem & _ & Hfst).
    split; [|split; [exact Hem|exact Hfst]].
    exists (kept_code (PremiumManager.storage m) (created now token by_ d n cfg)).
    destruct (kept_code_fields (PremiumManager.storage m)
                (created now token by_ d n cfg)) as (_ & H2 & H3 & H4).
    rewrite Hst. split; [exact (findPremiumCode_savePremiumCode _ _ _ Hst')|].
    rewrite H2, H3, H4. simpl. split; [by apply number_or_falsy|].
    split; [|done]. intros Hn. by apply capacity_or_falsy.
Qed.

Lemma createPremiumCode_falsy_duration_witness :
  falsy (Some 0) ∧
  (let r := PremiumManager.createPremiumCode 7 "abc" "admin" (Some 0) None mongo_manager in
   (∃ c, body <$> Storage.findPremiumCode "abc" (PremiumManager.storage (snd r)) = Some c ∧
         duration c = 30 ∧
         (falsy_capacity None → maxActivations c = 1%Q) ∧
         createdBy c = "admin")
   ∧ PremiumManager.emitted (snd r) = [] ++ [premiumCodeCreated "abc" (Some 0) "admin"]
   ∧ fst r = Returned "abc").
Proof.
  assert (falsy (Some 0)) as H by (by right).
  split; [exact H|].
  exact (createPremiumCode_falsy_duration 7 "abc" "admin" (Some 0) None mongo_manager H).
Defined.

(** ** C2: the two storages side by side *)

(** C2, where it fails: a code object whose key is already stored.
    [LocalStorage.savePremiumCode] updates the record in place;
    [MongoStorage.savePremiumCode] calls [create], which inserts, and the
    unique index on [code] answers with a duplicate key error (an object
    that fails a validator of the schema is refused before that, with a
    validation error): the stored record is not updated. *)
Theorem savePremiumCode_existing_key_differs (c : IPremiumCode)
    (s1 : MongoStorage.t) (s2 : LocalStorage.t) :
  is_Some (Storage.findPremiumCode (code c) (Mongo s1)) →
  is_Some (Storage.findPremiumCode (code c) (Local s2)) →
  Storage.savePremiumCode (plain c) (Mongo s1)
    = Thrown (match MongoStorage.validate c with
              | [] => DuplicateKey (code c)
              | paths => ValidationError paths
              end) ∧
  ∃ st', Storage.savePremiumCode (plain c) (Local s2) = Returned st' ∧
         Storage.findPremiumCode (code c) st' = Some (plain (code_toJSON c)) ∧
         length (Storage.getAllPremiumCodes st')
           = length (Storage.getAllPremiumCodes (Local s2)).
Proof.
  intros [d1 H1] [d2 H2]. split.
  - pose proof (savePremiumCode_plain c (Mongo s1)) as H.
    simpl in H1. simpl in H. rewrite H1 in H.
    by destruct (MongoStorage.validate c).
  - clear H1. eexists. split; [reflexivity|]. split.
    + clear H2.
      pose proof (findPremiumCode_savePremiumCode (plain c) (Local s2) _ eq_refl) as H.
      cbn [body plain kept_code] in *.
      set (st' := Local _) in *.
      unfold Storage.findPremiumCode, LocalStorage.findPremiumCode in *.
      subst st'. cbv beta iota in *.
      destruct (find _ _) as [x|]; [|done].
      simpl in H. by injection H as ->.
    + simpl in H2. unfold LocalStorage.findPremiumCode in H2.
      destruct (find _ _) as [x|] eqn:Hx; [|done].
      destruct (find_findIndex _ _ _ Hx) as (i & Hi & Hix).
      simpl. rewrite length_fmap, Hi, Hix. apply length_insert.
Qed.

Lemma savePremiumCode_existing_key_differs_witness :
  Storage.findPremiumCode "abc" (Mongo (MongoStorage.mk [] [abc_stored]))
    = Some (mkDoc true abc_stored) ∧
  Storage.findPremiumCode "abc" (Local (LocalStorage.mk [] [code_toJSON abc_stored]))
    = Some (plain (code_toJSON abc_stored)) ∧
  Storage.savePremiumCode (plain abc_again)
    (Mongo (MongoStorage.mk [] [abc_stored])) = Thrown (DuplicateKey "abc") ∧
  ∃ st', Storage.savePremiumCode (plain abc_again)
           (Local (LocalStorage.mk [] [code_toJSON abc_stored])) = Returned st' ∧
         Storage.findPremiumCode "abc" st' = Some (plain (code_toJSON abc_again)) ∧
         length (Storage.getAllPremiumCodes st') = 1%nat.
Proof.
  split; [reflexivity|]. split; [reflexivity|].
  apply (savePremiumCode_existing_key_differs abc_again
           (MongoStorage.mk [] [abc_stored])
           (LocalStorage.mk [] [code_toJSON abc_stored]));
    vm_compute; eauto.
Defined.

(** The same divergence through the manager: the token drawn for a second
    code is the one of a code already redeemed. *)
Lemma createPremiumCode_same_token_differs :
  let calls := [(0, CreatePremiumCode "abc" "admin" None None);
                (1, RedeemPremiumCode "e" "abc" "user")] in
  fst (PremiumManager.createPremiumCode 2 "abc" "owner" (Some 7) (Some 5%Q)
         (run calls mongo_manager)) = Thrown (DuplicateKey "abc") ∧
  fst (PremiumManager.createPremiumCode 2 "abc" "owner" (Some 7) (Some 5%Q)
         (run calls local_manager)) = Returned "abc" ∧
  activations <$> stored_codes
    (snd (PremiumManager.createPremiumCode 2 "abc" "owner" (Some 7) (Some 5%Q)
            (run calls local_manager))) = [[]].
Proof. by vm_compute. Qed.

(** What [findPremium] gives back after the same [savePremium] differs as
    well: a [Date] from the Mongo collection, a string from the file. *)
Lemma findPremium_dates_differ (p : IPremium) (t : Z) (s1 : MongoStorage.t)
    (s2 : LocalStorage.t) (st1 st2 : IStorage) :
  expiresAt p = Some (DateObj t) →
  Storage.savePremium p (Mongo s1) = Returned st1 →
  Storage.savePremium p (Local s2) = Returned st2 →
  expiresAt <$> Storage.findPremium (entityId p) st1 = Some (Some (DateObj t)) ∧
  expiresAt <$> Storage.findPremium (entityId p) st2 = Some (Some (IsoString t)).
Proof.
  intros Hp H1 H2.
  rewrite (findPremium_savePremium _ _ _ H1), (findPremium_savePremium _ _ _ H2).
  simpl. by rewrite Hp.
Qed.

(** ** C7: the sweep of expired premiums *)

Lemma premium_toJSON_from_json p : from_json (premium_toJSON p).
Proof. unfold from_json. simpl. by destruct (expiresAt p). Qed.

(** No record read from the file passes the filter of
    [LocalStorage.findExpiredPremiums]: its [expiresAt] is a string, and
    [p.expiresAt < now] compares a string with a [Date]. *)
Lemma local_findExpiredPremiums_nil now s :
  Forall from_json (LocalStorage.premiumPath s) →
  LocalStorage.findExpiredPremiums now s = [].
Proof.
  unfold LocalStorage.findExpiredPremiums.
  induction 1 as [|p l Hp _ IH]; simpl; [done|].
  rewrite IH. unfold from_json in Hp.
  destruct (isPremium p); [|done].
  destruct (expiresAt p) as [[|]|]; done.
Qed.

(** So after any [savePremium] on the local storage, whatever the clock,
    nothing is found expired. *)
Lemma local_findExpiredPremiums_after_save now p s st' :
  Storage.savePremium p (Local s) = Returned st' →
  Storage.findExpiredPremiums now st' = [].
Proof.
  simpl. intros [= <-]. simpl. apply local_findExpiredPremiums_nil. simpl.
  apply Forall_fmap, Forall_true. intros x. apply premium_toJSON_from_json.
Qed.

(** What the Mongo collection selects. *)
Lemma mongo_findExpiredPremiums_spec now s p :
  p ∈ MongoStorage.findExpiredPremiums now s ↔
  p ∈ MongoStorage.premiumModel s ∧ isPremium p = true ∧
  ∃ d, expiresAt p = Some d ∧ getTime d < now.
Proof.
  unfold MongoStorage.findExpiredPremiums.
  rewrite list_elem_of_In, filter_In, <- list_elem_of_In.
  unfold MongoStorage.matches_lt.
  split.
  - intros [Hin Hsel]. split; [done|].
    destruct (isPremium p), (expiresAt p) as [d|]; try done.
    split; [done|]. exists d. split; [done|]. by apply Z.ltb_lt.
  - intros (Hin & -> & d & -> & Hlt). split; [done|]. by apply Z.ltb_lt.
Qed.

Lemma reachable_parsed_from_json m :
  reachable m → parsed_from_json (PremiumManager.storage m).
Proof.
  apply (reachable_inv parsed_from_json (λ _, True)).
  - intros p [s|s] st' _; simpl; intros [= <-]; simpl; [done|].
    apply Forall_fmap, Forall_true. intros x. apply premium_toJSON_from_json.
  - intros pc [s|s] st' _ Hst; simpl.
    + by destruct (MongoStorage.savePremiumCode pc s); simpl; intros [= <-].
    + by intros [= <-].
  - done.
  - done.
  - done.
  - constructor.
Qed.

(** C7, where it fails: on the local storage. In every state reached from
    an empty local storage the sweep selects nothing, whatever the clock
    and however long ago the stored premiums expired, and leaves the
    manager as it was. *)
Theorem checkExpiredPremiums_misses_local_storage (m : PremiumManager.t)
    (s : LocalStorage.t) (now : Z) :
  reachable m →
  PremiumManager.storage m = Local s →
  Storage.findExpiredPremiums now (PremiumManager.storage m) = [] ∧
  PremiumManager.checkExpiredPremiums now m = (Returned tt, m).
Proof.
  intros Hm Hs.
  pose proof (reachable_parsed_from_json m Hm) as Hjson.
  rewrite Hs in Hjson. simpl in Hjson.
  assert (Storage.findExpiredPremiums now (PremiumManager.storage m) = []) as Hnil.
  { rewrite Hs. simpl. by apply local_findExpiredPremiums_nil. }
  split; [exact Hnil|].
  unfold PremiumManager.checkExpiredPremiums, PremiumManager.bind.
  by rewrite Hnil.
Qed.

(** The failing input: an entitlement flagged premium whose expiry is nine
    days in the past, kept by the local storage, is still there after the
    sweep. *)
Lemma checkExpiredPremiums_misses_local_storage_witness :
  let now := 10 * 86400000 in
  stored_premiums local_one_day_premium
    = [mkPremium "e" true (Some (IsoString 86400000)) (Some "admin") (Some (IsoString 0))] ∧
  Storage.findExpiredPremiums now (PremiumManager.storage local_one_day_premium) = [] ∧
  PremiumManager.checkExpiredPremiums now local_one_day_premium
    = (Returned tt, local_one_day_premium).
Proof.
  intros now. split; [reflexivity|].
  exact (checkExpiredPremiums_misses_local_storage local_one_day_premium
           _ now (reachable_run _ _ _ (or_intror eq_refl)) eq_refl).
Defined.

(** On the Mongo storage the same calls remove the premium. *)
Lemma checkExpiredPremiums_removes_on_mongo :
  let now := 10 * 86400000 in
  stored_premiums one_day_premium
    = [mkPremium "e" true (Some (DateObj 86400000)) (Some "admin") (Some (DateObj 0))] ∧
  stored_premiums (snd (PremiumManager.checkExpiredPremiums now one_day_premium))
    = [mkPremium "e" false None (Some "admin") (Some (DateObj 0))].
Proof. by vm_compute. Qed.

(** ** C9: what [isPremium] leaves in the cache *)

(** For an entity the storage does not know, [isPremium] answers false
    and stores [undefined], the value it had before [|| false]. *)
Lemma isPremium_unknown_entity now id m :
  fst (NodeCache.get now (PremiumManager.getCacheKey "isPremium" id)
         (PremiumManager.cache m)) = VUndefined →
  Storage.findPremium id (PremiumManager.storage m) = None →
  let r := PremiumManager.isPremium now id m in
  fst r = Returned (VBool false) ∧
  PremiumManager.cache (snd r) !! PremiumManager.getCacheKey "isPremium" id
    = Some (NodeCache._wrap (Required.cacheTTL (PremiumManager.config m)) now VUndefined) ∧
  PremiumManager.storage (snd r) = PremiumManager.storage m ∧
  PremiumManager.config (snd r) = PremiumManager.config m.
Proof.
  intros Hmiss Hnone r.
  unfold r, PremiumManager.isPremium, PremiumManager.bind, PremiumManager.cache_get.
  destruct (NodeCache.get _ _ _) as [x data]. simpl in Hmiss. subst x. simpl.
  unfold PremiumManager.storage_findPremium. simpl. rewrite Hnone. simpl.
  split; [done|]. split; [|done].
  unfold NodeCache.set. apply lookup_insert_eq.
Qed.

(** An entry just written is alive, unless the configured lifetime is
    negative. *)
Lemma _check_fresh ttl now x :
  0 <= ttl → NodeCache._check now (NodeCache._wrap ttl now x) = true.
Proof.
  intros Httl. unfold NodeCache._check, NodeCache._wrap. simpl.
  destruct (Z.eqb_spec ttl 0) as [->|Hne]; [done|].
  destruct (Z.ltb_spec (now + ttl * 1000) now); [lia|].
  by rewrite andb_false_r.
Qed.

(** C9, where it fails: an entity the storage does not know. The first
    call returns false, but what it stores under the [isPremium] key is
    [undefined], not that boolean; the call repeated at once is answered
    from the cache with [null]. *)
Theorem isPremium_caches_undefined_for_unknown_entity (now : Z) (id : string)
    (m : PremiumManager.t) :
  0 <= Required.cacheTTL (PremiumManager.config m) →
  fst (NodeCache.get now (PremiumManager.getCacheKey "isPremium" id)
         (PremiumManager.cache m)) = VUndefined →
  Storage.findPremium id (PremiumManager.storage m) = None →
  let first := PremiumManager.isPremium now id m in
  let second := PremiumManager.isPremium now id (snd first) in
  fst first = Returned (VBool false) ∧
  NodeCache.v <$> PremiumManager.cache (snd first)
                    !! PremiumManager.getCacheKey "isPremium" id = Some VUndefined ∧
  fst second = Returned VNull.
Proof.
  intros Httl Hmiss Hnone first second.
  destruct (isPremium_unknown_entity now id m Hmiss Hnone) as (Hfst & Hc & _ & _).
  fold first in Hfst, Hc.
  split; [exact Hfst|]. split; [by rewrite Hc|].
  unfold second, PremiumManager.isPremium, PremiumManager.bind,
    PremiumManager.cache_get, NodeCache.get.
  rewrite Hc, (_check_fresh _ _ _ Httl). done.
Qed.

Lemma isPremium_caches_undefined_for_unknown_entity_witness :
  let key := PremiumManager.getCacheKey "isPremium" "ghost" in
  let first := PremiumManager.isPremium 5 "ghost" local_manager in
  let second := PremiumManager.isPremium 5 "ghost" (snd first) in
  0 <= Required.cacheTTL (PremiumManager.config local_manager) ∧
  fst (NodeCache.get 5 key (PremiumManager.cache local_manager)) = VUndefined ∧
  Storage.findPremium "ghost" (PremiumManager.storage local_manager) = None ∧
  fst first = Returned (VBool false) ∧
  NodeCache.v <$> PremiumManager.cache (snd first) !! key = Some VUndefined ∧
  fst second = Returned VNull.
Proof.
  intros key first second.
  assert (0 <= Required.cacheTTL (PremiumManager.config local_manager)) as H1
    by (vm_compute; discriminate).
  split; [exact H1|]. split; [reflexivity|]. split; [reflexivity|].
  exact (isPremium_caches_undefined_for_unknown_entity 5 "ghost" local_manager
           H1 eq_refl eq_refl).
Defined.

(** ** C6: preloading the cache *)

Lemma for_each_premiums now premiums m :
  PremiumManager.for_each premiums (λ premium,
    PremiumManager.bind
      (PremiumManager.cache_set now
         (PremiumManager.getCacheKey "isPremium" (entityId premium))
         (VBool (isPremium premium)))
      (λ _, PremiumManager.cache_set now
              (PremiumManager.getCacheKey "premiumStatus" (entityId premium))
              (VPremium premium))) m
  = (Returned tt,
     PremiumManager.with_cache
       (warm_premiums (Required.cacheTTL (PremiumManager.config m)) now premiums
          (PremiumManager.cache m)) m).
Proof.
  revert m. induction premiums as [|p l IH]; intros m; simpl.
  - by destruct m.
  - unfold PremiumManager.bind at 1. simpl. by rewrite IH.
Qed.

Lemma for_each_codes now codes m :
  PremiumManager.for_each codes (λ c,
    PremiumManager.cache_set now
      (PremiumManager.getCacheKey "premiumCodeInfo" (code c)) (VPremiumCode c)) m
  = (Returned tt,
     PremiumManager.with_cache
       (warm_codes (Required.cacheTTL (PremiumManager.config m)) now codes
          (PremiumManager.cache m)) m).
Proof.
  revert m. induction codes as [|c l IH]; intros m; simpl.
  - by destruct m.
  - unfold PremiumManager.bind at 1. simpl. by rewrite IH.
Qed.

Lemma preloadTables_warms now m :
  PremiumManager.preloadTables now m
  = (Returned tt,
     PremiumManager.with_cache
       (warm_codes (Required.cacheTTL (PremiumManager.config m)) now (stored_codes m)
          (warm_premiums (Required.cacheTTL (PremiumManager.config m)) now
             (stored_premiums m) (PremiumManager.cache m))) m).
Proof.
  unfold PremiumManager.preloadTables, PremiumManager.try_catch.
  unfold PremiumManager.bind at 1 2 3. rewrite for_each_premiums.
  rewrite for_each_codes. done.
Qed.

Lemma warm_premiums_keeps ttl now premiums data k :
  is_Some (data !! k) → is_Some (warm_premiums ttl now premiums data !! k).
Proof.
  unfold warm_premiums. revert data.
  induction premiums as [|p l IH]; intros data Hk; simpl; [done|].
  apply IH. unfold NodeCache.set. rewrite !lookup_insert.
  repeat case_decide; eauto.
Qed.

Lemma warm_codes_keeps ttl now codes data k :
  is_Some (data !! k) → is_Some (warm_codes ttl now codes data !! k).
Proof.
  unfold warm_codes. revert data.
  induction codes as [|c l IH]; intros data Hk; simpl; [done|].
  apply IH. unfold NodeCache.set. rewrite lookup_insert.
  case_decide; eauto.
Qed.

Lemma warm_premiums_has ttl now premiums data p :
  p ∈ premiums →
  is_Some (warm_premiums ttl now premiums data
             !! PremiumManager.getCacheKey "isPremium" (entityId p)) ∧
  is_Some (warm_premiums ttl now premiums data
             !! PremiumManager.getCacheKey "premiumStatus" (entityId p)).
Proof.
  revert data. induction premiums as [|q l IH]; intros data Hp.
  - by apply elem_of_nil in Hp.
  - apply elem_of_cons in Hp as [<- | Hp]; [|by apply IH].
    change (warm_premiums ttl now (p :: l) data)
      with (warm_premiums ttl now l
              (NodeCache.set ttl now
                 (PremiumManager.getCacheKey "premiumStatus" (entityId p)) (VPremium p)
                 (NodeCache.set ttl now
                    (PremiumManager.getCacheKey "isPremium" (entityId p))
                    (VBool (isPremium p)) data))).
    split; apply warm_premiums_keeps; unfold NodeCache.set.
    + rewrite lookup_insert_ne by apply not_eq_sym, isPremium_key_ne_status.
      rewrite lookup_insert_eq. eauto.
    + rewrite lookup_insert_eq. eauto.
Qed.

Lemma warm_codes_has ttl now codes data c :
  c ∈ codes →
  is_Some (warm_codes ttl now codes data
             !! PremiumManager.getCacheKey "premiumCodeInfo" (code c)).
Proof.
  revert data. induction codes as [|q l IH]; intros data Hc.
  - by apply elem_of_nil in Hc.
  - apply elem_of_cons in Hc as [<- | Hc]; [|by apply IH].
    change (warm_codes ttl now (c :: l) data)
      with (warm_codes ttl now l
              (NodeCache.set ttl now
                 (PremiumManager.getCacheKey "premiumCodeInfo" (code c))
                 (VPremiumCode c) data)).
    apply warm_codes_keeps. unfold NodeCache.set. rewrite lookup_insert_eq. eauto.
Qed.

(** [clearCache] does warm the cache when [preloadTables] is configured:
    after it, every stored entitlement and every stored code has its
    entries. *)
Lemma clearCache_preloads now m :
  Required.preloadTables (PremiumManager.config m) = true →
  let r := PremiumManager.clearCache now m in
  fst r = Returned tt ∧
  PremiumManager.cache (snd r)
    = warm_codes (Required.cacheTTL (PremiumManager.config m)) now (stored_codes m)
        (warm_premiums (Required.cacheTTL (PremiumManager.config m)) now
           (stored_premiums m) ∅) ∧
  (∀ p, p ∈ stored_premiums m →
     is_Some (PremiumManager.cache (snd r)
                !! PremiumManager.getCacheKey "isPremium" (entityId p)) ∧
     is_Some (PremiumManager.cache (snd r)
                !! PremiumManager.getCacheKey "premiumStatus" (entityId p))) ∧
  (∀ c, c ∈ stored_codes m →
     is_Some (PremiumManager.cache (snd r)
                !! PremiumManager.getCacheKey "premiumCodeInfo" (code c))).
Proof.
  intros Hcfg r.
  assert (r = (Returned tt,
               PremiumManager.with_cache
                 (warm_codes (Required.cacheTTL (PremiumManager.config m)) now
                    (stored_codes m)
                    (warm_premiums (Required.cacheTTL (PremiumManager.config m)) now
                       (stored_premiums m) ∅)) m)) as ->.
  { unfold r, PremiumManager.clearCache, PremiumManager.bind,
      PremiumManager.cache_flushAll. simpl. rewrite Hcfg.
    rewrite preloadTables_warms. done. }
  simpl. split; [done|]. split; [done|]. split.
  - intros p Hp.
    destruct (warm_premiums_has (Required.cacheTTL (PremiumManager.config m)) now
                (stored_premiums m) ∅ p Hp).
    split; by apply warm_codes_keeps.
  - intros c Hc. by apply warm_codes_has.
Qed.

(** C6, where it fails: the constructor. Whatever the configuration says
    about [preloadTables] and whatever the storage holds, the manager it
    builds has an empty cache: every key is a miss, and the first
    [isPremium], [getPremiumStatus] or [getPremiumCodeInfo] goes to the
    storage. *)
Theorem constructor_does_not_preload (cfg : IPremiumConfig) (st : IStorage)
    (now : Z) (key : string) :
  let m := PremiumManager.constructor cfg st in
  PremiumManager.cache m = ∅ ∧
  NodeCache.get now key (PremiumManager.cache m) = (VUndefined, ∅) ∧
  PremiumManager.storage m = st ∧
  Required.preloadTables (PremiumManager.config m) = default true (preloadTables cfg).
Proof. done. Qed.

(** The failing input: [preloadTables: true] over a storage that holds
    records; after [clearCache] the same manager has the entries. *)
Lemma constructor_does_not_preload_witness :
  let cfg := mkConfig None None None None (Some true) in
  let m := PremiumManager.constructor cfg stocked_storage in
  let m' := snd (PremiumManager.clearCache 0 m) in
  let get' key id := fst (NodeCache.get 0 (PremiumManager.getCacheKey key id)
                            (PremiumManager.cache m')) in
  (PremiumManager.cache m = ∅ ∧
   NodeCache.get 0 (PremiumManager.getCacheKey "isPremium" "e") (PremiumManager.cache m)
     = (VUndefined, ∅) ∧
   PremiumManager.storage m = stocked_storage ∧
   Required.preloadTables (PremiumManager.config m) = true) ∧
  length (stored_premiums m) = 1%nat ∧ length (stored_codes m) = 1%nat ∧
  get' "isPremium" "e" = VBool true ∧
  get' "premiumCodeInfo" "abc" = VPremiumCode (code_toJSON abc_stored).
Proof.
  intros cfg m m' get'.
  split; [|by vm_compute].
  exact (constructor_does_not_preload cfg stocked_storage 0
           (PremiumManager.getCacheKey "isPremium" "e")).
Defined.

(** ** The sweep on the Mongo storage *)

Lemma removePremium_mongo id m s :
  PremiumManager.storage m = Mongo s →
  quiet_removal m →
  let r := PremiumManager.removePremium id m in
  fst r = Returned tt ∧
  PremiumManager.storage (snd r)
    = Mongo (MongoStorage.mk (remove_doc (MongoStorage.premiumModel s) id)
               (MongoStorage.premiumCodeModel s)) ∧
  PremiumManager.listeners (snd r) = PremiumManager.listeners m.
Proof.
  intros Hs Hq r.
  destruct (Storage.findPremium id (PremiumManager.storage m)) as [p|] eqn:Hp.
  - destruct (removePremium_known id m p Hp)
      as (st' & Hsave & Hst & _ & _ & Hls & _ & Hfst).
    fold r in Hst, Hls, Hfst. rewrite Hfst, Hq, Hst. split; [done|]. split; [|done].
    rewrite Hs in Hsave, Hp. simpl in Hsave, Hp. injection Hsave as <-.
    f_equal. f_equal. unfold MongoStorage.findPremium in Hp.
    destruct (find_findIndex _ _ _ Hp) as (i & Hi & Hix).
    pose proof (find_some _ _ Hp) as [_ Hid]. apply String.eqb_eq in Hid.
    unfold remove_doc. simpl. rewrite Hid, Hi, Hix. done.
  - unfold r, PremiumManager.removePremium, PremiumManager.bind,
      PremiumManager.storage_findPremium.
    rewrite Hp. simpl. split; [done|]. split; [|done].
    rewrite Hs in *. simpl in Hp. unfold MongoStorage.findPremium in Hp.
    unfold remove_doc.
    destruct (findIndex _ _) as [i|] eqn:Hi; [|by destruct s].
    destruct (findIndex_find _ _ _ Hi) as (x & _ & _ & Hx). congruence.
Qed.

Lemma for_each_removePremium_mongo (l : list IPremium) m s :
  PremiumManager.storage m = Mongo s →
  quiet_removal m →
  let r := PremiumManager.for_each l (λ e, PremiumManager.removePremium (entityId e)) m in
  fst r = Returned tt ∧
  PremiumManager.storage (snd r)
    = Mongo (MongoStorage.mk
               (foldl (λ docs e, remove_doc docs (entityId e))
                      (MongoStorage.premiumModel s) l)
               (MongoStorage.premiumCodeModel s)).
Proof.
  revert m s. induction l as [|e l IH]; intros m s Hs Hq; simpl.
  - split; [done|]. rewrite Hs. by destruct s.
  - destruct (removePremium_mongo (entityId e) m s Hs Hq) as (Hfst & Hst & Hls).
    unfold PremiumManager.bind.
    destruct (PremiumManager.removePremium (entityId e) m) as [[[]|err] m1];
      simpl in *; [|done].
    apply (IH m1 _ Hst). intros id. rewrite Hls. apply Hq.
Qed.

Lemma findIndex_middle {A} (f : A → bool) (pre rest : list A) (x : A) :
  Forall (λ y, f y = false) pre → f x = true →
  findIndex f (pre ++ x :: rest) = Some (length pre).
Proof.
  intros Hpre Hx. induction Hpre as [|y pre Hy _ IH]; simpl.
  - by rewrite Hx.
  - by rewrite Hy, IH.
Qed.

Lemma swept_entityId now p : entityId (swept now p) = entityId p.
Proof. unfold swept. by destruct (expired now p). Qed.

(** With one document per entity, removing the selected entities one
    after the other rewrites exactly the selected documents. *)
Lemma sweep_docs now (pre rest : list IPremium) :
  NoDup (entityId <$> (pre ++ rest)) →
  foldl (λ docs e, remove_doc docs (entityId e)) (pre ++ rest)
        (List.filter (expired now) rest)
  = pre ++ (swept now <$> rest).
Proof.
  revert pre. induction rest as [|p rest IH]; intros pre Hnd; simpl; [done|].
  assert (NoDup (entityId <$> ((pre ++ [swept now p]) ++ rest))) as Hnd'.
  { rewrite <- app_assoc. simpl.
    rewrite !fmap_app in *. simpl in *. by rewrite swept_entityId. }
  specialize (IH (pre ++ [swept now p]) Hnd').
  rewrite <- !app_assoc in IH. simpl in IH.
  assert (swept now p = if expired now p
                        then MongoStorage.castPremium (removed p) else p) as Hp
    by done.
  destruct (expired now p) eqn:Hsel; simpl; rewrite Hp in IH |- *; [|exact IH].
  assert (remove_doc (pre ++ p :: rest) (entityId p)
          = pre ++ MongoStorage.castPremium (removed p) :: rest) as ->; [|exact IH].
  unfold remove_doc.
  rewrite (findIndex_middle _ pre rest p).
  - rewrite list_lookup_middle by done.
    rewrite <- (Nat.add_0_r (length pre)). by rewrite insert_app_r.
  - apply Forall_forall. intros y Hy. apply String.eqb_neq. intros Heq.
    rewrite fmap_app in Hnd. apply NoDup_app in Hnd as (_ & Hnd & _).
    apply (Hnd (entityId y)).
    + by apply list_elem_of_fmap_2.
    + rewrite Heq. simpl. apply list_elem_of_here.
  - apply String.eqb_refl.
Qed.

(** On the Mongo storage, with one document per entity and listeners of
    [premiumRemoved] that return, [checkExpiredPremiums] removes premium
    from exactly the entitlements flagged premium whose expiry is strictly
    before [now], and leaves the others, and the codes, as they were. *)
Lemma checkExpiredPremiums_mongo now m s :
  PremiumManager.storage m = Mongo s →
  NoDup (entityId <$> MongoStorage.premiumModel s) →
  quiet_removal m →
  let r := PremiumManager.checkExpiredPremiums now m in
  fst r = Returned tt ∧
  stored_premiums (snd r) = swept now <$> MongoStorage.premiumModel s ∧
  stored_codes (snd r) = stored_codes m.
Proof.
  intros Hs Hnd Hq r.
  unfold r, PremiumManager.checkExpiredPremiums, PremiumManager.bind.
  rewrite Hs. simpl.
  destruct (for_each_removePremium_mongo
              (MongoStorage.findExpiredPremiums now s) m s Hs Hq) as (Hfst & Hst).
  split; [exact Hfst|].
  unfold stored_premiums, stored_codes. rewrite Hst, Hs. simpl. split; [|done].
  exact (sweep_docs now [] (MongoStorage.premiumModel s) Hnd).
Qed.

Lemma swept_spec now p :
  (isPremium p = true ∧ ∃ d, expiresAt p = Some d ∧ getTime d < now) ∧
  isPremium (swept now p) = false ∧ expiresAt (swept now p) = None
  ∨ ¬ (isPremium p = true ∧ ∃ d, expiresAt p = Some d ∧ getTime d < now) ∧
    swept now p = p.
Proof.
  unfold swept, expired, MongoStorage.matches_lt.
  destruct (isPremium p) eqn:Hflag; simpl.
  - destruct (expiresAt p) as [d|] eqn:Hexp.
    + destruct (Z.ltb_spec (getTime d) now).
      * left. split; [|done]. split; [done|]. eauto.
      * right. split; [|done]. intros (_ & d' & [= <-] & ?). lia.
    + right. split; [|done]. by intros (_ & d' & ? & ?).
  - right. split; [|done]. by intros [? _].
Qed.

(** * Further properties *)

(** ** [generateCode] *)

Lemma hex_digit_is_hex (n : N) : (n < 16)%N → is_hex (hex_digit n) = true.
Proof.
  intros Hn. destruct n as [|p]; [reflexivity|].
  do 4 (destruct p as [p|p|]; try reflexivity); lia.
Qed.

Lemma toString_hex_length buffer :
  String.length (toString_hex buffer) = (2 * length buffer)%nat.
Proof. induction buffer as [|b l IH]; simpl; [done|]. rewrite IH. lia. Qed.

Lemma toString_hex_is_hex buffer :
  Forall (λ c, is_hex c = true) (String.list_ascii_of_string (toString_hex buffer)).
Proof.
  induction buffer as [|b l IH]; simpl; [constructor|].
  pose proof (Byte.to_N_bounded b) as Hb.
  constructor; [|constructor; [|exact IH]]; apply hex_digit_is_hex.
  - apply N.Div0.div_lt_upper_bound. lia.
  - apply N.mod_lt. done.
Qed.

Lemma substring_0_chars (n : nat) (s : string) :
  String.list_ascii_of_string (String.substring 0 n s)
  = take n (String.list_ascii_of_string s).
Proof.
  revert n. induction s as [|c s IH]; intros [|n]; simpl; try done.
  by rewrite IH.
Qed.

Lemma string_length_chars (s : string) :
  String.length s = length (String.list_ascii_of_string s).
Proof. induction s as [|c s IH]; simpl; [done|]. by rewrite IH. Qed.

(** X1: for a length that is not negative, [generateCode] returns exactly
    [length] characters, an odd length included (the last digit of the last
    byte is cut), and every one of them is a lowercase hexadecimal digit. *)
Theorem generateCode_length_and_alphabet (length_ : Z) (randomBytes : list Byte.byte) :
  0 <= length_ →
  Z.of_nat (length randomBytes) = PremiumManager.ceil_div length_ 2 →
  Z.of_nat (String.length (generateCode length_ randomBytes)) = length_ ∧
  Forall (λ c, is_hex c = true)
         (String.list_ascii_of_string (generateCode length_ randomBytes)).
Proof.
  intros Hlen Hsize.
  destruct (ceil_div_bounds length_ 2 ltac:(lia)) as [Hup _].
  unfold generateCode, slice0.
  destruct (Z.ltb_spec length_ 0); [lia|].
  rewrite toString_hex_length.
  split.
  - rewrite string_length_chars, substring_0_chars, length_take.
    rewrite <- string_length_chars, toString_hex_length. lia.
  - rewrite substring_0_chars. apply Forall_take, toString_hex_is_hex.
Qed.

Lemma generateCode_length_and_alphabet_witness :
  0 <= 5 ∧
  Z.of_nat (length [Byte.xab; Byte.x01; Byte.xff]) = PremiumManager.ceil_div 5 2 ∧
  Z.of_nat (String.length (generateCode 5 [Byte.xab; Byte.x01; Byte.xff])) = 5 ∧
  Forall (λ c, is_hex c = true)
         (String.list_ascii_of_string (generateCode 5 [Byte.xab; Byte.x01; Byte.xff])).
Proof.
  assert (0 <= 5) as H1 by lia.
  assert (Z.of_nat (length [Byte.xab; Byte.x01; Byte.xff])
          = PremiumManager.ceil_div 5 2) as H2 by reflexivity.
  split; [exact H1|]. split; [exact H2|].
  exact (generateCode_length_and_alphabet 5 [Byte.xab; Byte.x01; Byte.xff] H1 H2).
Defined.

(** X2: the code that [createPremiumCode] returns has [config.codeLength]
    hexadecimal characters, and it is the key under which the new code is
    stored, with no activation yet. *)
Theorem createPremiumCode_returns_stored_key (now : Z) (randomBytes : list Byte.byte)
    (by_ : string) (d : option Z) (n : option Q) (m : PremiumManager.t) (token : string) :
  let len := Required.codeLength (PremiumManager.config m) in
  let r := createPremiumCode_drawing now randomBytes by_ d n m in
  0 <= len →
  Z.of_nat (length randomBytes) = PremiumManager.ceil_div len 2 →
  fst r = Returned token →
  Z.of_nat (String.length token) = len ∧
  Forall (λ c, is_hex c = true) (String.list_ascii_of_string token) ∧
  ∃ c, body <$> Storage.findPremiumCode token (PremiumManager.storage (snd r)) = Some c ∧
       code c = token ∧ activations c = [] ∧ createdBy c = by_.
Proof.
  intros len r Hlen Hsize Hret.
  set (tok := generateCode len randomBytes).
  pose proof (createPremiumCode_effect now tok by_ d n m) as Heff.
  cbv zeta in Heff.
  change (PremiumManager.createPremiumCode now tok by_ d n m) with r in Heff.
  destruct (Storage.savePremiumCode _ _) as [st'|err] eqn:Hsave.
  - destruct Heff as (Hst & _ & _ & _ & Hfst).
    assert (token = tok) as ->.
    { rewrite Hfst in Hret. unfold ends_with in Hret.
      destruct (snd (call_listeners _ _)); congruence. }
    destruct (ceil_div_bounds len 2 ltac:(lia)) as [Hup _].
    unfold tok at 1 2, generateCode, slice0.
    destruct (Z.ltb_spec len 0); [lia|].
    rewrite toString_hex_length, substring_0_chars.
    split.
    { rewrite string_length_chars, substring_0_chars, length_take.
      rewrite <- string_length_chars, toString_hex_length. lia. }
    split; [apply Forall_take, toString_hex_is_hex|].
    exists (kept_code (PremiumManager.storage m)
              (created now tok by_ d n (PremiumManager.config m))).
    rewrite Hst. split; [exact (findPremiumCode_savePremiumCode _ _ _ Hsave)|].
    by destruct (PremiumManager.storage m).
  - rewrite Heff in Hret. done.
Qed.

Lemma createPremiumCode_returns_stored_key_witness :
  let bytes := [Byte.xab; Byte.x01; Byte.xff; Byte.x10; Byte.x00; Byte.x9c] in
  let r := createPremiumCode_drawing 0 bytes "admin" None None mongo_manager in
  fst r = Returned "ab01ff10009c" ∧
  Z.of_nat (String.length "ab01ff10009c") = 12 ∧
  Forall (λ c, is_hex c = true) (String.list_ascii_of_string "ab01ff10009c") ∧
  ∃ c, body <$> Storage.findPremiumCode "ab01ff10009c" (PremiumManager.storage (snd r))
         = Some c ∧
       code c = "ab01ff10009c" ∧ activations c = [] ∧ createdBy c = "admin".
Proof.
  intros bytes r.
  assert (fst r = Returned "ab01ff10009c") as H by reflexivity.
  split; [exact H|].
  apply (createPremiumCode_returns_stored_key 0 bytes "admin" None None mongo_manager
           "ab01ff10009c"); [by vm_compute|reflexivity|exact H].
Defined.

(** ** The storage contract *)

Section Keys.
Context {A : Type} (key : A → string).

Lemma findIndex_key_Some (l : list A) (k : string) (i : nat) (x : A) :
  findIndex (λ y, String.eqb (key y) k) l = Some i → key x = k →
  key <$> <[i := x]> l = key <$> l ∧ k ∈ key <$> l.
Proof.
  intros Hi Hx. destruct (findIndex_find _ _ _ Hi) as (y & Hy & Hk & _).
  apply String.eqb_eq in Hk. split.
  - rewrite list_fmap_insert, Hx, <- Hk. apply list_insert_id.
    by rewrite list_lookup_fmap, Hy.
  - rewrite <- Hk. apply list_elem_of_fmap_2. by eapply list_elem_of_lookup_2.
Qed.

Lemma findIndex_key_None (l : list A) (k : string) :
  findIndex (λ y, String.eqb (key y) k) l = None → k ∉ key <$> l.
Proof.
  intros Hi (y & -> & Hy)%list_elem_of_fmap.
  apply findIndex_None in Hi.
  apply list_elem_of_In in Hy.
  pose proof (find_none _ _ Hi y Hy) as Hf. simpl in Hf.
  by rewrite String.eqb_refl in Hf.
Qed.

Lemma upserted_insert (l : list A) (k : string) (i : nat) (x : A) :
  findIndex (λ y, String.eqb (key y) k) l = Some i → key x = k →
  key <$> <[i := x]> l = upserted k (key <$> l).
Proof.
  intros Hi Hx. destruct (findIndex_key_Some l k i x Hi Hx) as [-> Hin].
  unfold upserted. by rewrite decide_True.
Qed.

Lemma upserted_push (l : list A) (k : string) (x : A) :
  findIndex (λ y, String.eqb (key y) k) l = None → key x = k →
  key <$> (l ++ [x]) = upserted k (key <$> l).
Proof.
  intros Hi Hx. pose proof (findIndex_key_None l k Hi) as Hin.
  unfold upserted. rewrite decide_False by done.
  by rewrite fmap_app, <- Hx.
Qed.

Lemma find_other_insert (l : list A) (k k' : string) (i : nat) (x : A) :
  findIndex (λ y, String.eqb (key y) k) l = Some i → key x = k → k' ≠ k →
  find (λ y, String.eqb (key y) k') (<[i := x]> l)
  = find (λ y, String.eqb (key y) k') l.
Proof.
  intros Hi Hx Hne. revert i Hi. induction l as [|z l IH]; intros i; simpl; [done|].
  destruct (String.eqb_spec (key z) k) as [Hz|Hz].
  - intros [= <-]. simpl.
    destruct (String.eqb_spec (key x) k'), (String.eqb_spec (key z) k'); congruence.
  - destruct (findIndex _ l) as [j|]; [|done]. intros [= <-]. simpl.
    destruct (String.eqb (key z) k'); [done|]. by apply IH.
Qed.

Lemma find_other_push (l : list A) (k' : string) (x : A) :
  key x ≠ k' →
  find (λ y, String.eqb (key y) k') (l ++ [x])
  = find (λ y, String.eqb (key y) k') l.
Proof.
  intros Hx. induction l as [|z l IH]; simpl.
  - by destruct (String.eqb_spec (key x) k').
  - by destruct (String.eqb (key z) k').
Qed.

End Keys.

Lemma upserted_NoDup k keys : NoDup keys → NoDup (upserted k keys).
Proof.
  intros Hnd. unfold upserted. case_decide; [done|].
  apply NoDup_app. split; [done|]. split; [|apply NoDup_singleton].
  intros x Hx ->%list_elem_of_singleton. done.
Qed.

Lemma upserted_prefix k keys : keys `prefix_of` upserted k keys.
Proof.
  unfold upserted. case_decide; [done|]. by apply prefix_app_r.
Qed.

Lemma status_of_castPremium p : status_of (MongoStorage.castPremium p) = status_of p.
Proof. unfold status_of. simpl. by destruct (expiresAt p), (activatedAt p). Qed.

Lemma status_of_toJSON p : status_of (premium_toJSON p) = status_of p.
Proof. unfold status_of. simpl. by destruct (expiresAt p), (activatedAt p). Qed.

Lemma status_of_kept st p : status_of (kept_premium st p) = status_of p.
Proof. destruct st; [apply status_of_castPremium|apply status_of_toJSON]. Qed.

Lemma savePremium_entityIds p st st' :
  Storage.savePremium p st = Returned st' →
  entityIds st' = upserted (entityId p) (entityIds st).
Proof.
  unfold entityIds. destruct st as [s|s]; simpl; intros [= <-]; simpl.
  - destruct (findIndex _ _) as [i|] eqn:Hi.
    + by apply upserted_insert.
    + by apply upserted_push.
  - rewrite <- list_fmap_compose.
    change (entityId ∘ premium_toJSON) with entityId.
    destruct (findIndex _ _) as [i|] eqn:Hi.
    + by apply upserted_insert.
    + by apply upserted_push.
Qed.

Lemma savePremium_other p st st' id :
  Storage.savePremium p st = Returned st' → id ≠ entityId p →
  status_of <$> Storage.findPremium id st' = status_of <$> Storage.findPremium id st.
Proof.
  intros Hsave Hne. destruct st as [s|s]; simpl in *; injection Hsave as <-; simpl.
  - unfold MongoStorage.findPremium. simpl. f_equal.
    destruct (findIndex _ _) as [i|] eqn:Hi.
    + by apply (find_other_insert entityId _ (entityId p)).
    + apply (find_other_push entityId). simpl. congruence.
  - unfold LocalStorage.findPremium. simpl.
    rewrite find_fmap by done.
    assert (find (λ q, String.eqb (entityId q) id)
              match findIndex (λ q, String.eqb (entityId q) (entityId p))
                              (LocalStorage.premiumPath s) with
              | Some index => <[index := p]> (LocalStorage.premiumPath s)
              | None => LocalStorage.premiumPath s ++ [p]
              end
            = find (λ q, String.eqb (entityId q) id) (LocalStorage.premiumPath s)) as ->.
    { destruct (findIndex _ _) as [i|] eqn:Hi.
      + by apply (find_other_insert entityId _ (entityId p)).
      + apply (find_other_push entityId). congruence. }
    destruct (find _ _) as [q|]; simpl; [|done].
    by rewrite status_of_toJSON.
Qed.


Lemma code_status_of_kept st c : code_status_of (kept_code st c) = code_status_of c.
Proof. destruct st; unfold code_status_of; simpl; by rewrite length_fmap. Qed.

Lemma savePremiumCode_codes pc st st' :
  Storage.savePremiumCode pc st = Returned st' →
  codes st' = upserted (code (body pc)) (codes st).
Proof.
  unfold codes. destruct st as [s|s]; simpl.
  - destruct (MongoStorage.savePremiumCode pc s) as [s'|] eqn:Hs; simpl; [|done].
    intros [= <-].
    destruct (mongo_savePremiumCode_returned _ _ _ Hs)
      as [_ [(i & Hi & _ & Hc) | (Hi & _ & _ & Hc)]];
      simpl; unfold MongoStorage.getAllPremiumCodes; rewrite Hc.
    + by apply upserted_insert.
    + by apply upserted_push.
  - intros [= <-]. simpl. rewrite <- list_fmap_compose.
    change (code ∘ code_toJSON) with code.
    destruct (findIndex _ _) as [i|] eqn:Hi.
    + destruct (findIndex_find _ _ _ Hi) as (x & -> & _ & _).
      by apply upserted_insert.
    + by apply upserted_push.
Qed.

Lemma savePremiumCode_premiums pc st st' :
  Storage.savePremiumCode pc st = Returned st' →
  Storage.getAllPremiums st' = Storage.getAllPremiums st.
Proof.
  destruct st as [s|s]; simpl.
  - destruct (MongoStorage.savePremiumCode pc s) as [s'|] eqn:Hs; simpl; [|done].
    intros [= <-]. exact (proj1 (mongo_savePremiumCode_returned _ _ _ Hs)).
  - intros [= <-]. done.
Qed.

Lemma savePremiumCode_other pc st st' k :
  Storage.savePremiumCode pc st = Returned st' → k ≠ code (body pc) →
  code_status_of ∘ body <$> Storage.findPremiumCode k st'
  = code_status_of ∘ body <$> Storage.findPremiumCode k st.
Proof.
  intros Hsave Hne. destruct st as [s|s]; simpl in *.
  - destruct (MongoStorage.savePremiumCode pc s) as [s'|] eqn:Hs; simpl in Hsave;
      [|done].
    injection Hsave as <-.
    destruct (mongo_savePremiumCode_returned _ _ _ Hs)
      as [_ [(i & Hi & _ & Hc) | (Hi & _ & _ & Hc)]];
      unfold Storage.findPremiumCode, MongoStorage.findPremiumCode;
      rewrite Hc; do 2 f_equal.
    + by apply (find_other_insert code _ (code (body pc))).
    + apply (find_other_push code). simpl. congruence.
  - injection Hsave as <-.
    unfold Storage.findPremiumCode, LocalStorage.findPremiumCode,
      LocalStorage.writePremiumCodes.
    cbn [LocalStorage.premiumCodePath].
    rewrite find_fmap by done.
    assert (find (λ q, String.eqb (code q) k)
              match findIndex (λ c, String.eqb (code c) (code (body pc)))
                              (LocalStorage.premiumCodePath s) with
              | Some i =>
                  match LocalStorage.premiumCodePath s !! i with
                  | Some existing =>
                      <[i := LocalStorage.spread existing (body pc)]>
                        (LocalStorage.premiumCodePath s)
                  | None => LocalStorage.premiumCodePath s
                  end
              | None => LocalStorage.premiumCodePath s ++ [body pc]
              end
            = find (λ q, String.eqb (code q) k) (LocalStorage.premiumCodePath s)) as ->.
    { destruct (findIndex _ _) as [i|] eqn:Hi.
      + destruct (_ !! i); [|done].
        by apply (find_other_insert code _ (code (body pc))).
      + apply (find_other_push code). congruence. }
    destruct (find _ _) as [q|]; simpl; [|done].
    unfold code_status_of. simpl. by rewrite length_fmap.
Qed.

(** X4: when [savePremiumCode] succeeds, on either storage,
    [findPremiumCode] of that code gives the saved code, every other code
    reads as before, the list of stored codes is the old one, with the code
    added at the end if it was not there, and the entitlements are
    untouched. On the local storage it always succeeds. *)
Theorem savePremiumCode_round_trip (pc : doc IPremiumCode) (st st' : IStorage) :
  Storage.savePremiumCode pc st = Returned st' →
  code_status_of ∘ body <$> Storage.findPremiumCode (code (body pc)) st'
    = Some (code_status_of (body pc)) ∧
  (∀ k, k ≠ code (body pc) →
     code_status_of ∘ body <$> Storage.findPremiumCode k st'
     = code_status_of ∘ body <$> Storage.findPremiumCode k st) ∧
  codes st' = upserted (code (body pc)) (codes st) ∧
  Storage.getAllPremiums st' = Storage.getAllPremiums st ∧
  (∀ s, ∃ st'', Storage.savePremiumCode pc (Local s) = Returned st'').
Proof.
  intros Hsave. split; [|split; [|split; [|split]]].
  - pose proof (findPremiumCode_savePremiumCode _ _ _ Hsave) as H.
    destruct (Storage.findPremiumCode _ st') as [d|]; [|done].
    simpl in *. injection H as ->. by rewrite code_status_of_kept.
  - intros k Hne. exact (savePremiumCode_other _ _ _ _ Hsave Hne).
  - exact (savePremiumCode_codes _ _ _ Hsave).
  - exact (savePremiumCode_premiums _ _ _ Hsave).
  - intros s. simpl. eauto.
Qed.

Lemma savePremiumCode_round_trip_witness :
  let st := Mongo (MongoStorage.mk [] [abc_stored]) in
  let pc := mkDoc true abc_again in
  let st' := Mongo (MongoStorage.mk [] [abc_again]) in
  Storage.savePremiumCode pc st = Returned st' ∧
  code_status_of ∘ body <$> Storage.findPremiumCode "abc" st'
    = Some (code_status_of abc_again) ∧
  codes st' = upserted "abc" (codes st).
Proof.
  intros st pc st'.
  assert (Storage.savePremiumCode pc st = Returned st') as H by reflexivity.
  destruct (savePremiumCode_round_trip pc st st' H) as (H1 & _ & H3 & _).
  split; [exact H|]. split; [exact H1|exact H3].
Defined.

(** ** What every call keeps *)

(** X5: in every state reached by calls in sequence from an empty storage,
    on either storage, no two stored entitlements have the same [entityId]
    and no two stored codes have the same [code]. *)
Theorem one_record_per_key (m : PremiumManager.t) :
  reachable m →
  NoDup (entityIds (PremiumManager.storage m)) ∧
  NoDup (codes (PremiumManager.storage m)).
Proof.
  apply (reachable_inv (λ st, NoDup (entityIds st) ∧ NoDup (codes st)) (λ _, True)).
  - intros p st st' [H1 H2] Hsave. split.
    + rewrite (savePremium_entityIds _ _ _ Hsave). by apply upserted_NoDup.
    + unfold codes. by rewrite (savePremium_codes _ _ _ Hsave).
  - intros pc st st' _ [H1 H2] Hsave. split.
    + unfold entityIds. by rewrite (savePremiumCode_premiums _ _ _ Hsave).
    + rewrite (savePremiumCode_codes _ _ _ Hsave). by apply upserted_NoDup.
  - done.
  - done.
  - split; constructor.
  - split; constructor.
Qed.

Lemma one_record_per_key_witness :
  reachable code_used_up ∧
  entityIds (PremiumManager.storage code_used_up) = ["e"] ∧
  NoDup (entityIds (PremiumManager.storage code_used_up)) ∧
  NoDup (codes (PremiumManager.storage code_used_up)).
Proof.
  assert (reachable code_used_up) as H
    by exact (reachable_run _ _ _ (or_intror eq_refl)).
  split; [exact H|]. split; [reflexivity|].
  exact (one_record_per_key code_used_up H).
Defined.

(** X6: no call deletes an entitlement or a code, or reorders them: the
    entities and the codes stored before a call are, in the same order, the
    first ones stored after it; a call adds at the end or adds nothing. *)
Theorem nothing_is_deleted (now : Z) (c : call) (m : PremiumManager.t) :
  entityIds (PremiumManager.storage m)
    `prefix_of` entityIds (PremiumManager.storage (exec now c m)) ∧
  codes (PremiumManager.storage m)
    `prefix_of` codes (PremiumManager.storage (exec now c m)).
Proof.
  apply (exec_inv_kept
           (λ st, entityIds (PremiumManager.storage m) `prefix_of` entityIds st ∧
                  codes (PremiumManager.storage m) `prefix_of` codes st)
           (λ _, True)).
  - intros p st st' [H1 H2] Hsave. split.
    + rewrite (savePremium_entityIds _ _ _ Hsave).
      etrans; [exact H1|apply upserted_prefix].
    + unfold codes in *. by rewrite (savePremium_codes _ _ _ Hsave).
  - intros pc st st' _ [H1 H2] Hsave. split.
    + unfold entityIds in *. by rewrite (savePremiumCode_premiums _ _ _ Hsave).
    + rewrite (savePremiumCode_codes _ _ _ Hsave).
      etrans; [exact H2|apply upserted_prefix].
  - done.
  - done.
  - done.
Qed.

(** ** Cache keys *)

(** X7: the keys of the three kinds of cache entry never collide: two
    keys are equal only for the same kind and the same id, whatever
    characters the ids contain. *)
Theorem getCacheKey_no_collision (type type' a b : string) :
  type ∈ categories → type' ∈ categories →
  PremiumManager.getCacheKey type a = PremiumManager.getCacheKey type' b →
  type = type' ∧ a = b.
Proof.
  unfold categories. rewrite !elem_of_cons, !elem_of_nil.
  intros [->|[->|[->|[]]]] [->|[->|[->|[]]]] H;
    try (split; [reflexivity|exact (getCacheKey_inj _ _ _ H)]);
    exfalso; revert H.
  - apply isPremium_key_ne_status.
  - apply isPremium_key_ne_codeInfo.
  - apply not_eq_sym, isPremium_key_ne_status.
  - apply status_key_ne_codeInfo.
  - apply not_eq_sym, isPremium_key_ne_codeInfo.
  - apply not_eq_sym, status_key_ne_codeInfo.
Qed.

Lemma getCacheKey_no_collision_witness :
  "premiumStatus" ∈ categories ∧
  PremiumManager.getCacheKey "premiumStatus" "a_b" = PremiumManager.getCacheKey "premiumStatus" "a_b" ∧
  ("premiumStatus" = "premiumStatus" ∧ "a_b" = "a_b").
Proof.
  assert ("premiumStatus" ∈ categories) as H by (unfold categories; set_solver).
  split; [exact H|]. split; [reflexivity|].
  exact (getCacheKey_no_collision "premiumStatus" "premiumStatus" "a_b" "a_b" H H eq_refl).
Defined.

(** ** Reading through the cache *)

Lemma get_absent now key (data : gmap string NodeCache.entry) :
  data !! key = None → NodeCache.get now key data = (VUndefined, data).
Proof. intros H. unfold NodeCache.get. by rewrite H. Qed.

Lemma get_live now key (data : gmap string NodeCache.entry) e :
  data !! key = Some e → NodeCache._check now e = true →
  NodeCache.get now key data = (NodeCache._unwrap e, data).
Proof. intros H Hc. unfold NodeCache.get. by rewrite H, Hc. Qed.

Lemma get_miss_storage now key m :
  PremiumManager.storage (snd (PremiumManager.cache_get now key m))
  = PremiumManager.storage m.
Proof. unfold PremiumManager.cache_get. by destruct (NodeCache.get _ _ _). Qed.

(** [isPremium] when the cache has nothing for the entity and what the
    storage holds calls for no removal. *)
Lemma isPremium_without_removal now id m :
  fst (NodeCache.get now (PremiumManager.getCacheKey "isPremium" id)
         (PremiumManager.cache m)) = VUndefined →
  let v := effective now (Storage.findPremium id (PremiumManager.storage m)) in
  negb (truthy v) &&
    match Storage.findPremium id (PremiumManager.storage m) with
    | Some entity => isPremium entity
    | None => false
    end = false →
  let r := PremiumManager.isPremium now id m in
  fst r = Returned (if truthy v then v else VBool false) ∧
  PremiumManager.storage (snd r) = PremiumManager.storage m ∧
  PremiumManager.emitted (snd r) = PremiumManager.emitted m ∧
  PremiumManager.calls (snd r) = PremiumManager.calls m ∧
  PremiumManager.config (snd r) = PremiumManager.config m ∧
  PremiumManager.cache (snd r) !! PremiumManager.getCacheKey "isPremium" id
    = Some (NodeCache._wrap (Required.cacheTTL (PremiumManager.config m)) now v).
Proof.
  intros Hmiss v Hno r.
  unfold r, PremiumManager.isPremium, PremiumManager.bind, PremiumManager.cache_get.
  destruct (NodeCache.get _ _ _) as [x data]. simpl in Hmiss. subst x. simpl.
  unfold PremiumManager.storage_findPremium. simpl.
  fold (effective now (Storage.findPremium id (PremiumManager.storage m))). fold v.
  rewrite Hno. simpl. repeat split.
  unfold NodeCache.set. apply lookup_insert_eq.
Qed.

(** [isPremium] when the cache has nothing for the entity and the stored
    entitlement is flagged premium with an expiry that does not compare as
    later than now. *)
Lemma isPremium_with_removal now id m e d :
  fst (NodeCache.get now (PremiumManager.getCacheKey "isPremium" id)
         (PremiumManager.cache m)) = VUndefined →
  Storage.findPremium id (PremiumManager.storage m) = Some e →
  isPremium e = true → expiresAt e = Some d → date_gt d now = false →
  let r := PremiumManager.isPremium now id m in
  fst r = ends_with (VBool false) (premiumRemoved id) m ∧
  Storage.findPremium id (PremiumManager.storage (snd r))
    = Some (kept_premium (PremiumManager.storage m) (removed e)) ∧
  PremiumManager.emitted (snd r) = PremiumManager.emitted m ++ [premiumRemoved id].
Proof.
  intros Hmiss He Hflag Hexp Hgt r.
  set (key := PremiumManager.getCacheKey "isPremium" id) in *.
  set (m1 := snd (PremiumManager.cache_get now key m)).
  assert (PremiumManager.storage m1 = PremiumManager.storage m) as Hst1
    by apply get_miss_storage.
  assert (PremiumManager.listeners m1 = PremiumManager.listeners m ∧
          PremiumManager.emitted m1 = PremiumManager.emitted m) as [Hls1 Hem1].
  { unfold m1, PremiumManager.cache_get. by destruct (NodeCache.get _ _ _). }
  assert (Storage.findPremium id (PremiumManager.storage m1) = Some e) as He1
    by by rewrite Hst1.
  destruct (removePremium_known id m1 e He1)
    as (st' & Hsave & Hst' & _ & Hem & _ & _ & Hfst).
  simpl in Hst', Hem, Hfst.
  assert (r = match PremiumManager.removePremium id m1 with
              | (Returned _, m') =>
                  (Returned (VBool false),
                   snd (PremiumManager.cache_set now key (VBool false) m'))
              | (Thrown err, m') => (Thrown err, m')
              end) as Hr.
  { unfold r, PremiumManager.isPremium, PremiumManager.bind. fold key.
    unfold m1, PremiumManager.cache_get in *.
    destruct (NodeCache.get now key (PremiumManager.cache m)) as [x data].
    simpl in Hmiss. subst x. simpl.
    unfold PremiumManager.storage_findPremium. simpl. rewrite He.
    rewrite Hflag, Hexp, Hgt. simpl.
    by destruct (PremiumManager.removePremium id _) as [[[]|err] m']. }
  rewrite Hst1 in Hsave. rewrite Hls1 in Hfst. rewrite Hem1 in Hem.
  rewrite Hr. unfold ends_with.
  destruct (PremiumManager.removePremium id m1) as [[[]|err] m']; simpl in *;
    destruct (snd (call_listeners _ _)); try discriminate;
    (split; [congruence|]); (split; [|done]);
    rewrite Hst', <- (findPremium_entityId _ _ _ He);
    exact (findPremium_savePremium _ _ _ Hsave).
Qed.

(** ** [addPremium] and what follows it *)

Lemma valid_time_ms now d :
  valid_time (now + d * 86400000) → valid_time (now + d * 24 * 60 * 60 * 1000).
Proof. by replace (now + d * 24 * 60 * 60 * 1000) with (now + d * 86400000) by lia. Qed.

(** [addPremium] on the local storage when the expiry it computes is no
    time value: the [Date] is an Invalid Date, and the file gets [null]. *)
Lemma addPremium_invalid_local now id d by_ m s :
  PremiumManager.storage m = Local s →
  ¬ valid_time (now + d * 24 * 60 * 60 * 1000) →
  let e := premiumAdded id InvalidDate by_ in
  let r := PremiumManager.addPremium now id d by_ m in
  ∃ st', Storage.savePremium (without_expiry (granted now id d by_))
           (PremiumManager.storage m) = Returned st' ∧
    PremiumManager.storage (snd r) = st' ∧
    PremiumManager.cache (snd r)
      = delete (PremiumManager.getCacheKey "premiumStatus" id)
          (delete (PremiumManager.getCacheKey "isPremium" id) (PremiumManager.cache m)) ∧
    PremiumManager.emitted (snd r) = PremiumManager.emitted m ++ [e] ∧
    PremiumManager.listeners (snd r) = PremiumManager.listeners m ∧
    fst r = ends_with tt e m.
Proof.
  intros Hs Hinvalid e r.
  destruct (savePremium_returns (without_expiry (granted now id d by_))
              (PremiumManager.storage m)) as [st' Hst'].
  exists st'. split; [done|].
  unfold r, ends_with, PremiumManager.addPremium, PremiumManager.bind,
    PremiumManager.storage_savePremium_literal, PremiumManager.storage_update.
  rewrite (new_Date_invalid _ Hinvalid). rewrite Hs in *.
  change (Storage.savePremium_literal InvalidDate _ (Local s))
    with (Storage.savePremium (without_expiry (granted now id d by_)) (Local s)).
  rewrite Hst'. simpl.
  unfold PremiumManager.emit. simpl. fold e.
  destruct (call_listeners _ _) as [made [msg|]]; done.
Qed.

(** X8: when the expiry it computes, [duration] days after now, is a time
    value, [addPremium] replaces whatever the entity had: afterwards its
    entitlement is flagged premium, expires then and records who activated
    it and when; every other entity and every code is as before; the
    entity's [isPremium] and [premiumStatus] cache entries are gone and
    [premiumAdded] has been emitted with the new expiry. *)
Theorem addPremium_grants (now : Z) (id : string) (d : Z) (by_ : string)
    (m : PremiumManager.t) :
  valid_time (now + d * 86400000) →
  let r := PremiumManager.addPremium now id d by_ m in
  status_of <$> Storage.findPremium id (PremiumManager.storage (snd r))
    = Some (true, Some (now + d * 86400000), Some by_, Some now) ∧
  (∀ id', id' ≠ id →
     status_of <$> Storage.findPremium id' (PremiumManager.storage (snd r))
     = status_of <$> Storage.findPremium id' (PremiumManager.storage m)) ∧
  stored_codes (snd r) = stored_codes m ∧
  PremiumManager.cache (snd r) !! PremiumManager.getCacheKey "isPremium" id = None ∧
  PremiumManager.cache (snd r) !! PremiumManager.getCacheKey "premiumStatus" id = None ∧
  PremiumManager.emitted (snd r)
    = PremiumManager.emitted m
      ++ [premiumAdded id (ValidDate (DateObj (now + d * 86400000))) by_].
Proof.
  intros Hvalid r.
  destruct (addPremium_effect now id d by_ m (valid_time_ms _ _ Hvalid))
    as (st' & Hsave & Hst & Hc & Hem & _).
  fold r in Hst, Hc, Hem.
  assert (now + d * 24 * 60 * 60 * 1000 = now + d * 86400000) as Hms by lia.
  split; [|split; [|split; [|split; [|split]]]].
  - pose proof (findPremium_savePremium _ _ _ Hsave) as H.
    change (entityId (granted now id d by_)) with id in H.
    rewrite Hst, H. simpl.
    rewrite status_of_kept. unfold status_of. simpl. by rewrite Hms.
  - intros id' Hne. rewrite Hst. exact (savePremium_other _ _ _ _ Hsave Hne).
  - unfold stored_codes. rewrite Hst. exact (savePremium_codes _ _ _ Hsave).
  - rewrite Hc.
    rewrite lookup_delete_ne by exact (λ H, isPremium_key_ne_status _ _ (eq_sym H)).
    apply lookup_delete_eq.
  - rewrite Hc. apply lookup_delete_eq.
  - rewrite Hem, Hms. done.
Qed.

Lemma addPremium_grants_witness :
  let r := PremiumManager.addPremium 7 "e" 30 "admin" stocked_manager in
  valid_time (7 + 30 * 86400000) ∧
  status_of <$> Storage.findPremium "e" (PremiumManager.storage (snd r))
    = Some (true, Some (7 + 30 * 86400000), Some "admin", Some 7) ∧
  stored_codes (snd r) = stored_codes stocked_manager ∧
  PremiumManager.emitted (snd r)
    = PremiumManager.emitted stocked_manager
      ++ [premiumAdded "e" (ValidDate (DateObj (7 + 30 * 86400000))) "admin"].
Proof.
  intros r.
  assert (valid_time (7 + 30 * 86400000)) as H by (vm_compute; discriminate).
  destruct (addPremium_grants 7 "e" 30 "admin" stocked_manager H)
    as (H1 & _ & H3 & _ & _ & H6).
  split; [exact H|]. split; [exact H1|]. split; [exact H3|exact H6].
Defined.

(** X9: on the Mongo storage, when the expiry [addPremium] computes is a
    time value, [isPremium] right after it, at any time before that expiry,
    answers true; it reads the storage, caches the answer, and changes no
    entitlement and emits nothing. *)
Theorem addPremium_then_isPremium_mongo (now now' : Z) (id : string) (d : Z)
    (by_ : string) (m : PremiumManager.t) (s : MongoStorage.t) :
  PremiumManager.storage m = Mongo s →
  valid_time (now + d * 86400000) →
  now' < now + d * 86400000 →
  let m1 := snd (PremiumManager.addPremium now id d by_ m) in
  let r := PremiumManager.isPremium now' id m1 in
  fst r = Returned (VBool true) ∧
  PremiumManager.storage (snd r) = PremiumManager.storage m1 ∧
  PremiumManager.emitted (snd r) = PremiumManager.emitted m1 ∧
  NodeCache.v <$> PremiumManager.cache (snd r) !! PremiumManager.getCacheKey "isPremium" id
    = Some (VBool true).
Proof.
  intros Hs Hvalid Hlt m1 r.
  destruct (addPremium_effect now id d by_ m (valid_time_ms _ _ Hvalid))
    as (st' & Hsave & Hst & Hc & _).
  fold m1 in Hst, Hc.
  assert (Storage.findPremium id (PremiumManager.storage m1)
          = Some (MongoStorage.castPremium (granted now id d by_))) as Hfind.
  { rewrite Hst. pose proof (findPremium_savePremium _ _ _ Hsave) as H.
    rewrite Hs in H. exact H. }
  assert (fst (NodeCache.get now' (PremiumManager.getCacheKey "isPremium" id)
                 (PremiumManager.cache m1)) = VUndefined) as Hmiss.
  { rewrite get_absent; [done|]. rewrite Hc.
    rewrite lookup_delete_ne by exact (λ H, isPremium_key_ne_status _ _ (eq_sym H)).
    apply lookup_delete_eq. }
  assert (effective now' (Storage.findPremium id (PremiumManager.storage m1))
          = VBool true) as Hv.
  { rewrite Hfind. simpl. f_equal. apply Z.ltb_lt. lia. }
  pose proof (isPremium_without_removal now' id m1 Hmiss) as H.
  cbv zeta in H. rewrite Hv in H. fold r in H.
  destruct (H eq_refl) as (Hfst & Hst2 & Hem2 & _ & _ & Hc2).
  split; [exact Hfst|]. split; [exact Hst2|]. split; [exact Hem2|].
  by rewrite Hc2.
Qed.

Lemma addPremium_then_isPremium_mongo_witness :
  let m1 := snd (PremiumManager.addPremium 0 "e" 30 "admin" mongo_manager) in
  let r := PremiumManager.isPremium 1000 "e" m1 in
  valid_time (0 + 30 * 86400000) ∧
  1000 < 0 + 30 * 86400000 ∧
  fst r = Returned (VBool true) ∧
  PremiumManager.storage (snd r) = PremiumManager.storage m1 ∧
  PremiumManager.emitted (snd r) = PremiumManager.emitted m1 ∧
  NodeCache.v <$> PremiumManager.cache (snd r) !! PremiumManager.getCacheKey "isPremium" "e"
    = Some (VBool true).
Proof.
  intros m1 r.
  assert (valid_time (0 + 30 * 86400000)) as Hv by (vm_compute; discriminate).
  assert (1000 < 0 + 30 * 86400000) as H by lia.
  split; [exact Hv|]. split; [exact H|].
  exact (addPremium_then_isPremium_mongo 0 1000 "e" 30 "admin" mongo_manager
           MongoStorage.empty eq_refl Hv H).
Defined.

(** X10: on the local storage, when the expiry [addPremium] computes is a
    time value, [isPremium] right after it answers false whatever the
    duration and the time, and takes the premium away again: the expiry
    read back from the file is a string, which never compares as later
    than now, so the entitlement is treated as expired, [removePremium]
    runs and [premiumRemoved] is emitted (if a [premiumRemoved] listener
    throws, the call rejects instead of answering). When the expiry is no
    time value, the file holds [expiresAt: null], and [isPremium] answers
    true and removes nothing. *)
Theorem addPremium_then_isPremium_local (now now' : Z) (id : string) (d : Z)
    (by_ : string) (m : PremiumManager.t) (s : LocalStorage.t) :
  PremiumManager.storage m = Local s →
  let m1 := snd (PremiumManager.addPremium now id d by_ m) in
  let r := PremiumManager.isPremium now' id m1 in
  (valid_time (now + d * 86400000) →
   fst r = match snd (call_listeners (PremiumManager.listeners m) (premiumRemoved id)) with
           | None => Returned (VBool false)
           | Some msg => Thrown (ListenerError msg)
           end ∧
   status_of <$> Storage.findPremium id (PremiumManager.storage (snd r))
     = Some (false, None, Some by_, Some now) ∧
   PremiumManager.emitted (snd r) = PremiumManager.emitted m1 ++ [premiumRemoved id])
  ∧ (¬ valid_time (now + d * 86400000) →
     fst r = Returned (VBool true) ∧
     status_of <$> Storage.findPremium id (PremiumManager.storage (snd r))
       = Some (true, None, Some by_, Some now) ∧
     PremiumManager.emitted (snd r) = PremiumManager.emitted m1).
Proof.
  intros Hs m1 r.
  assert (∀ c, c = delete (PremiumManager.getCacheKey "premiumStatus" id)
                     (delete (PremiumManager.getCacheKey "isPremium" id)
                        (PremiumManager.cache m)) →
               fst (NodeCache.get now' (PremiumManager.getCacheKey "isPremium" id) c)
               = VUndefined) as Hgone.
  { intros c ->. rewrite get_absent; [done|].
    rewrite lookup_delete_ne by exact (λ H, isPremium_key_ne_status _ _ (eq_sym H)).
    apply lookup_delete_eq. }
  split.
  - intros Hvalid.
    destruct (addPremium_effect now id d by_ m (valid_time_ms _ _ Hvalid))
      as (st' & Hsave & Hst & Hc & _ & _ & Hls & _).
    fold m1 in Hst, Hc, Hls.
    assert (Storage.findPremium id (PremiumManager.storage m1)
            = Some (premium_toJSON (granted now id d by_))) as Hfind.
    { rewrite Hst. pose proof (findPremium_savePremium _ _ _ Hsave) as H.
      rewrite Hs in H. exact H. }
    destruct (isPremium_with_removal now' id m1 _ _ (Hgone _ Hc) Hfind
                eq_refl eq_refl eq_refl) as (Hfst & Hfind2 & Hem2).
    fold r in Hfst, Hfind2, Hem2.
    split; [|split; [|exact Hem2]].
    + rewrite Hfst. unfold ends_with. by rewrite Hls.
    + rewrite Hfind2. simpl. by rewrite status_of_kept.
  - intros Hinvalid.
    assert (¬ valid_time (now + d * 24 * 60 * 60 * 1000)) as Hinvalid'
      by by replace (now + d * 24 * 60 * 60 * 1000) with (now + d * 86400000) by lia.
    destruct (addPremium_invalid_local now id d by_ m s Hs Hinvalid')
      as (st' & Hsave & Hst & Hc & _).
    fold m1 in Hst, Hc.
    assert (Storage.findPremium id (PremiumManager.storage m1)
            = Some (premium_toJSON (without_expiry (granted now id d by_)))) as Hfind.
    { rewrite Hst. pose proof (findPremium_savePremium _ _ _ Hsave) as H.
      rewrite Hs in H. exact H. }
    pose proof (isPremium_without_removal now' id m1 (Hgone _ Hc)) as H.
    cbv zeta in H. rewrite Hfind in H. fold r in H.
    destruct (H eq_refl) as (Hfst & Hst2 & Hem2 & _).
    split; [exact Hfst|]. split; [|exact Hem2].
    by rewrite Hst2, Hfind.
Qed.

Lemma addPremium_then_isPremium_local_witness :
  let m1 := snd (PremiumManager.addPremium 0 "e" 30 "admin" local_manager) in
  let r := PremiumManager.isPremium 1000 "e" m1 in
  PremiumManager.storage local_manager = Local LocalStorage.empty ∧
  valid_time (0 + 30 * 86400000) ∧
  fst r = Returned (VBool false) ∧
  status_of <$> Storage.findPremium "e" (PremiumManager.storage (snd r))
    = Some (false, None, Some "admin", Some 0) ∧
  PremiumManager.emitted (snd r) = PremiumManager.emitted m1 ++ [premiumRemoved "e"].
Proof.
  intros m1 r. split; [reflexivity|].
  assert (valid_time (0 + 30 * 86400000)) as Hv by (vm_compute; discriminate).
  split; [exact Hv|].
  exact (proj1 (addPremium_then_isPremium_local 0 1000 "e" 30 "admin" local_manager
                  LocalStorage.empty eq_refl) Hv).
Defined.




(** ** [removePremium] and what follows it *)

(** X12: [removePremium] of an entity the storage does not know does
    nothing at all. For a known entity the stored flag becomes false and
    the expiry null, whoever activated it stays on record, and [isPremium]
    asked next answers false from the storage without removing or emitting
    anything again. *)
Theorem removePremium_then_isPremium (now : Z) (id : string) (m : PremiumManager.t) :
  match Storage.findPremium id (PremiumManager.storage m) with
  | None => PremiumManager.removePremium id m = (Returned tt, m)
  | Some e =>
      let m1 := snd (PremiumManager.removePremium id m) in
      let r := PremiumManager.isPremium now id m1 in
      status_of <$> Storage.findPremium id (PremiumManager.storage m1)
        = Some (false, None, activatedBy e, getTime <$> activatedAt e) ∧
      PremiumManager.emitted m1 = PremiumManager.emitted m ++ [premiumRemoved id] ∧
      fst r = Returned (VBool false) ∧
      PremiumManager.storage (snd r) = PremiumManager.storage m1 ∧
      PremiumManager.emitted (snd r) = PremiumManager.emitted m1
  end.
Proof.
  destruct (Storage.findPremium id (PremiumManager.storage m)) as [e|] eqn:He.
  - intros m1 r.
    destruct (removePremium_known id m e He) as (st' & Hsave & Hst & Hc & Hem & _).
    fold m1 in Hst, Hc, Hem.
    assert (Storage.findPremium id (PremiumManager.storage m1)
            = Some (kept_premium (PremiumManager.storage m) (removed e))) as Hfind.
    { rewrite Hst, <- (findPremium_entityId _ _ _ He).
      exact (findPremium_savePremium _ _ _ Hsave). }
    assert (fst (NodeCache.get now (PremiumManager.getCacheKey "isPremium" id)
                   (PremiumManager.cache m1)) = VUndefined) as Hmiss.
    { rewrite get_absent; [done|]. rewrite Hc.
      rewrite lookup_delete_ne by exact (λ H, isPremium_key_ne_status _ _ (eq_sym H)).
      apply lookup_delete_eq. }
    assert (effective now (Storage.findPremium id (PremiumManager.storage m1))
            = VBool false) as Hv.
    { rewrite Hfind. by destruct (PremiumManager.storage m). }
    pose proof (isPremium_without_removal now id m1 Hmiss) as H.
    cbv zeta in H. rewrite Hv in H. fold r in H.
    destruct (H ltac:(rewrite Hfind; by destruct (PremiumManager.storage m)))
      as (Hfst & Hst2 & Hem2 & _).
    split; [|done].
    rewrite Hfind. simpl. by rewrite status_of_kept.
  - unfold PremiumManager.removePremium, PremiumManager.bind,
      PremiumManager.storage_findPremium. by rewrite He.
Qed.

(** ** [getPremiumStatus] and the life of a cache entry *)

(** X13: when the cache has nothing for the entity, [getPremiumStatus]
    answers with what the storage holds ([null] for an unknown entity) and
    caches it. From then on, and until [cacheTTL] seconds have passed (for
    ever when [cacheTTL] is 0), it gives that same answer without looking
    at the storage, whatever the storage holds by then; once the entry is
    out of date it reads the storage again. *)
Theorem getPremiumStatus_served_from_cache (now : Z) (id : string)
    (m : PremiumManager.t) :
  fst (NodeCache.get now (PremiumManager.getCacheKey "premiumStatus" id)
         (PremiumManager.cache m)) = VUndefined →
  let ttl := Required.cacheTTL (PremiumManager.config m) in
  let r := PremiumManager.getPremiumStatus now id m in
  fst r = Returned (premium_or_null (Storage.findPremium id (PremiumManager.storage m))) ∧
  ∀ now2 st2,
    let m2 := PremiumManager.with_storage st2 (snd r) in
    (ttl = 0 ∨ now2 <= now + ttl * 1000 →
     PremiumManager.getPremiumStatus now2 id m2 = (fst r, m2)) ∧
    (0 <= now → 0 < ttl → now + ttl * 1000 < now2 →
     fst (PremiumManager.getPremiumStatus now2 id m2)
     = Returned (premium_or_null (Storage.findPremium id st2))).
Proof.
  intros Hmiss ttl r.
  set (key := PremiumManager.getCacheKey "premiumStatus" id) in *.
  set (v := premium_or_null (Storage.findPremium id (PremiumManager.storage m))).
  assert (∃ data, r = (Returned v,
                       PremiumManager.with_cache
                         (<[key := NodeCache._wrap ttl now v]> data) m)) as [data Hr].
  { unfold r, PremiumManager.getPremiumStatus, PremiumManager.bind,
      PremiumManager.cache_get. fold key.
    destruct (NodeCache.get now key (PremiumManager.cache m)) as [x data].
    simpl in Hmiss. subst x. simpl. by exists data. }
  rewrite Hr. simpl. split; [done|].
  intros now2 st2. split.
  - intros Halive.
    unfold PremiumManager.getPremiumStatus, PremiumManager.bind,
      PremiumManager.cache_get. fold key. simpl.
    rewrite (get_live now2 key _ (NodeCache._wrap ttl now v)).
    + simpl. by destruct (Storage.findPremium id (PremiumManager.storage m)).
    + apply lookup_insert_eq.
    + unfold NodeCache._check, NodeCache._wrap. simpl.
      destruct (Z.eqb_spec ttl 0) as [->|Hne]; [done|].
      destruct Halive as [?|Halive]; [done|].
      destruct (Z.ltb_spec (now + ttl * 1000) now2); [lia|].
      by rewrite andb_false_r.
  - intros Hnow Httl Hlate.
    unfold PremiumManager.getPremiumStatus, PremiumManager.bind,
      PremiumManager.cache_get, NodeCache.get. fold key. simpl.
    rewrite lookup_insert_eq.
    unfold NodeCache._check, NodeCache._wrap. simpl.
    destruct (Z.eqb_spec ttl 0) as [->|Hne]; [lia|].
    destruct (Z.eqb_spec (now + ttl * 1000) 0); [lia|].
    destruct (Z.ltb_spec (now + ttl * 1000) now2); [|lia].
    done.
Qed.

Lemma getPremiumStatus_served_from_cache_witness :
  let r := PremiumManager.getPremiumStatus 5 "e" one_day_premium in
  let m2 := PremiumManager.with_storage (Mongo MongoStorage.empty) (snd r) in
  fst (NodeCache.get 5 (PremiumManager.getCacheKey "premiumStatus" "e")
         (PremiumManager.cache one_day_premium)) = VUndefined ∧
  fst r = Returned (VPremium (mkPremium "e" true (Some (DateObj 86400000))
                                (Some "admin") (Some (DateObj 0)))) ∧
  PremiumManager.getPremiumStatus 9000 "e" m2 = (fst r, m2).
Proof.
  intros r m2.
  assert (fst (NodeCache.get 5 (PremiumManager.getCacheKey "premiumStatus" "e")
                 (PremiumManager.cache one_day_premium)) = VUndefined) as H
    by reflexivity.
  destruct (getPremiumStatus_served_from_cache 5 "e" one_day_premium H) as [H1 H2].
  split; [exact H|]. split; [exact H1|].
  exact (proj1 (H2 9000 (Mongo MongoStorage.empty)) (or_introl eq_refl)).
Defined.

(** ** Redeeming a code *)

Section CodeEntries.
Import PremiumManager.
Variable k : string.

Lemma same_code_entry_refl m : same_code_entry k m m.
Proof. done. Qed.

Lemma same_code_entry_trans a b c :
  same_code_entry k a b → same_code_entry k b c → same_code_entry k a c.
Proof. unfold same_code_entry. congruence. Qed.

Lemma entry_kept_same_cache {A} (c : M A) :
  (∀ m, cache (snd (c m)) = cache m) → keeps (same_code_entry k) c.
Proof. intros H m. unfold same_code_entry. by rewrite H. Qed.

Lemma entry_kept_savePremium p : keeps (same_code_entry k) (storage_savePremium p).
Proof.
  apply entry_kept_same_cache. intros m.
  unfold storage_savePremium, storage_update.
  by destruct (Storage.savePremium p (storage m)).
Qed.

Lemma entry_kept_savePremium_literal d p :
  keeps (same_code_entry k) (storage_savePremium_literal d p).
Proof.
  apply entry_kept_same_cache. intros m.
  unfold storage_savePremium_literal, storage_update.
  by destruct (Storage.savePremium_literal d p (storage m)).
Qed.

Lemma entry_kept_savePremiumCode pc :
  keeps (same_code_entry k) (storage_savePremiumCode pc).
Proof.
  apply entry_kept_same_cache. intros m.
  unfold storage_savePremiumCode, storage_update.
  by destruct (Storage.savePremiumCode pc (storage m)).
Qed.

Lemma entry_kept_findPremiumCode c : keeps (same_code_entry k) (storage_findPremiumCode c).
Proof. by apply entry_kept_same_cache. Qed.

Lemma entry_kept_emit e : keeps (same_code_entry k) (emit e).
Proof.
  apply entry_kept_same_cache. intros m. unfold emit.
  by destruct (call_listeners (listeners m) e) as [? []].
Qed.

Lemma entry_kept_del_isPremium id :
  keeps (same_code_entry k) (cache_del (getCacheKey "isPremium" id)).
Proof.
  intros m. unfold same_code_entry. simpl.
  apply lookup_delete_ne, isPremium_key_ne_codeInfo.
Qed.

Lemma entry_kept_del_status id :
  keeps (same_code_entry k) (cache_del (getCacheKey "premiumStatus" id)).
Proof.
  intros m. unfold same_code_entry. simpl.
  apply lookup_delete_ne, status_key_ne_codeInfo.
Qed.

Lemma entry_kept_redeemPremiumCode now id c by_ :
  keeps (same_code_entry k) (redeemPremiumCode now id c by_).
Proof.
  unfold redeemPremiumCode, addPremium.
  keeps_steps same_code_entry_refl same_code_entry_trans;
    auto using entry_kept_savePremium, entry_kept_savePremium_literal,
      entry_kept_savePremiumCode, entry_kept_findPremiumCode, entry_kept_emit,
      entry_kept_del_isPremium, entry_kept_del_status.
Qed.

End CodeEntries.

(** [addPremium] leaves the codes alone, whatever becomes of its save. *)
Lemma same_codes_refl m : same_codes m m.
Proof. done. Qed.

Lemma same_codes_trans a b c : same_codes a b → same_codes b c → same_codes a c.
Proof. unfold same_codes. intros H1 H2 k. by rewrite H2, H1. Qed.

Lemma same_codes_same_storage {A} (c : PremiumManager.M A) :
  (∀ m, PremiumManager.storage (snd (c m)) = PremiumManager.storage m) →
  keeps same_codes c.
Proof. intros H m k. by rewrite H. Qed.

Lemma same_codes_savePremium_literal d p :
  keeps same_codes (PremiumManager.storage_savePremium_literal d p).
Proof.
  intros m k.
  unfold PremiumManager.storage_savePremium_literal, PremiumManager.storage_update.
  destruct (Storage.savePremium_literal d p (PremiumManager.storage m)) as [st'|] eqn:H;
    [|done].
  simpl. unfold Storage.savePremium_literal in H.
  destruct d as [d|]; [exact (savePremium_findPremiumCode _ _ _ k H)|].
  destruct (PremiumManager.storage m) as [s|s] eqn:Hs; [done|].
  exact (savePremium_findPremiumCode _ _ _ k H).
Qed.

Lemma same_codes_emit e : keeps same_codes (PremiumManager.emit e).
Proof.
  apply same_codes_same_storage. intros m. unfold PremiumManager.emit.
  by destruct (call_listeners (PremiumManager.listeners m) e) as [? []].
Qed.

Lemma same_codes_addPremium now id d by_ :
  keeps same_codes (PremiumManager.addPremium now id d by_).
Proof.
  unfold PremiumManager.addPremium.
  keeps_steps same_codes_refl same_codes_trans;
    auto using same_codes_savePremium_literal, same_codes_emit.
  all: by apply same_codes_same_storage.
Qed.

(** The code after a redemption that is accepted, whatever becomes of the
    entitlement. *)
Lemma redeemPremiumCode_code_stored now id k by_ m d :
  Storage.findPremiumCode k (PremiumManager.storage m) = Some d →
  (inject_Z (Z.of_nat (length (activations (body d)))) < maxActivations (body d))%Q →
  let m1 := snd (PremiumManager.redeemPremiumCode now id k by_ m) in
  ∃ d', Storage.findPremiumCode k (PremiumManager.storage m1) = Some d' ∧
        code_status_of (body d')
        = (code (body d), duration (body d), maxActivations (body d),
           S (length (activations (body d))), createdBy (body d)).
Proof.
  intros Hd Hlt m1.
  set (a := {| Activation.entityId := Some id; Activation.activatedAt := DateObj now |}).
  destruct (savePremiumCode_found k _ d a Hd) as [st1 Hs1].
  assert (Storage.findPremiumCode k (PremiumManager.storage m1)
          = Storage.findPremiumCode k st1) as ->.
  { unfold m1, PremiumManager.redeemPremiumCode, PremiumManager.bind,
      PremiumManager.storage_findPremiumCode.
    rewrite Hd, (capacity_left _ _ Hlt).
    unfold PremiumManager.storage_savePremiumCode, PremiumManager.storage_update.
    fold a. rewrite Hs1.
    pose proof (same_codes_addPremium now id (duration (body (Storage.push a d))) by_
                  (PremiumManager.with_storage st1 m) k) as Hadd.
    destruct (PremiumManager.addPremium _ _ _ _ _) as [[[]|err] m2]; simpl in *;
      [|exact Hadd].
    rewrite <- Hadd.
    pose proof (same_codes_emit (premiumCodeRedeemed id k by_) m2 k) as Hemit.
    by destruct (PremiumManager.emit _ m2) as [[[]|err] m3]. }
  pose proof (findPremiumCode_savePremiumCode _ _ _ Hs1) as Hfound.
  assert (code (body (Storage.push a d)) = k) as Hk
    by exact (findPremiumCode_code _ _ _ Hd).
  rewrite Hk in Hfound.
  destruct (Storage.findPremiumCode k st1) as [d'|]; [|done].
  exists d'. split; [done|]. simpl in Hfound. injection Hfound as ->.
  rewrite code_status_of_kept. unfold code_status_of. simpl.
  rewrite length_app. simpl. do 2 f_equal. f_equal. lia.
Qed.

Lemma redeemPremiumCode_stored now id k by_ m d :
  Storage.findPremiumCode k (PremiumManager.storage m) = Some d →
  (inject_Z (Z.of_nat (length (activations (body d)))) < maxActivations (body d))%Q →
  valid_time (now + duration (body d) * 86400000) →
  let m1 := snd (PremiumManager.redeemPremiumCode now id k by_ m) in
  Storage.findPremium id (PremiumManager.storage m1)
    = Some (kept_premium (PremiumManager.storage m)
              (granted now id (duration (body d)) by_)).
Proof.
  intros Hd Hlt Hvalid m1.
  destruct (redeemPremiumCode_effect now id k by_ m d Hd Hlt (valid_time_ms _ _ Hvalid))
    as (st1 & st2 & Hs1 & Hs2 & Hst & _).
  fold m1 in Hst. rewrite Hst.
  pose proof (findPremium_savePremium _ _ _ Hs2) as H.
  change (entityId (granted now id (duration (body d)) by_)) with id in H.
  rewrite H. f_equal.
  destruct (PremiumManager.storage m) as [s|s]; simpl in Hs1.
  - destruct (MongoStorage.savePremiumCode _ s); simpl in Hs1;
      [by injection Hs1 as <-|discriminate].
  - by injection Hs1 as <-.
Qed.

(** X14: a redemption that is accepted (the code is known and has fewer
    activations than [maxActivations]) persists the code with one more
    activation and everything else as it was; and when the instant
    [code.duration] days after now is a time value, it gives the entity an
    entitlement flagged premium that expires then, activated by
    [redeemedBy]. *)
Theorem redeemPremiumCode_accepted (now : Z) (id k by_ : string)
    (m : PremiumManager.t) (d : doc IPremiumCode) :
  Storage.findPremiumCode k (PremiumManager.storage m) = Some d →
  (inject_Z (Z.of_nat (length (activations (body d)))) < maxActivations (body d))%Q →
  let m1 := snd (PremiumManager.redeemPremiumCode now id k by_ m) in
  (∃ d', Storage.findPremiumCode k (PremiumManager.storage m1) = Some d' ∧
         code_status_of (body d')
         = (code (body d), duration (body d), maxActivations (body d),
            S (length (activations (body d))), createdBy (body d))) ∧
  (valid_time (now + duration (body d) * 86400000) →
   status_of <$> Storage.findPremium id (PremiumManager.storage m1)
     = Some (true, Some (now + duration (body d) * 86400000), Some by_, Some now)).
Proof.
  intros Hd Hlt m1.
  split; [exact (redeemPremiumCode_code_stored now id k by_ m d Hd Hlt)|].
  intros Hvalid.
  pose proof (redeemPremiumCode_stored now id k by_ m d Hd Hlt Hvalid) as H2.
  fold m1 in H2.
  rewrite H2. simpl. rewrite status_of_kept. unfold status_of. simpl.
  replace (now + duration (body d) * 24 * 60 * 60 * 1000)
    with (now + duration (body d) * 86400000) by lia.
  done.
Qed.

Lemma redeemPremiumCode_accepted_witness :
  let m := snd (PremiumManager.createPremiumCode 0 "abc" "admin" (Some 7) (Some 2%Q)
                  mongo_manager) in
  let m1 := snd (PremiumManager.redeemPremiumCode 5 "e" "abc" "user" m) in
  Storage.findPremiumCode "abc" (PremiumManager.storage m)
    = Some (mkDoc true (mkPremiumCode "abc" 7 2%Q [] "admin" (DateObj 0))) ∧
  valid_time (5 + 7 * 86400000) ∧
  (∃ d', Storage.findPremiumCode "abc" (PremiumManager.storage m1) = Some d' ∧
         code_status_of (body d') = ("abc", 7, 2%Q, 1%nat, "admin")) ∧
  status_of <$> Storage.findPremium "e" (PremiumManager.storage m1)
    = Some (true, Some (5 + 7 * 86400000), Some "user", Some 5).
Proof.
  intros m m1.
  assert (Storage.findPremiumCode "abc" (PremiumManager.storage m)
          = Some (mkDoc true (mkPremiumCode "abc" 7 2%Q [] "admin" (DateObj 0)))) as H
    by reflexivity.
  assert (valid_time (5 + 7 * 86400000)) as Hv by (vm_compute; discriminate).
  split; [exact H|]. split; [exact Hv|].
  destruct (redeemPremiumCode_accepted 5 "e" "abc" "user" m _ H ltac:(by vm_compute))
    as [H1 H2].
  split; [exact H1|exact (H2 Hv)].
Defined.

(** X15: the redemption that takes the last free activation closes the
    code: the next [redeemPremiumCode] of it, by anyone at any time,
    returns false and changes nothing. The last free activation is the one
    taken when the activations are fewer than [maxActivations] and one more
    reaches it; for a whole capacity, when they are [maxActivations - 1]. *)
Theorem redeemPremiumCode_last_activation (now now2 : Z) (id id2 k by_ by2 : string)
    (m : PremiumManager.t) (d : doc IPremiumCode) :
  Storage.findPremiumCode k (PremiumManager.storage m) = Some d →
  (inject_Z (Z.of_nat (length (activations (body d)))) < maxActivations (body d))%Q →
  (maxActivations (body d) <= inject_Z (Z.of_nat (length (activations (body d)))) + 1)%Q →
  let m1 := snd (PremiumManager.redeemPremiumCode now id k by_ m) in
  PremiumManager.redeemPremiumCode now2 id2 k by2 m1 = (Returned false, m1).
Proof.
  intros Hd Hfree Hlast m1.
  destruct (redeemPremiumCode_code_stored now id k by_ m d Hd Hfree)
    as (d' & Hd' & Hstat).
  fold m1 in Hd'. unfold code_status_of in Hstat.
  injection Hstat as _ _ Hmax Hlen _.
  unfold PremiumManager.redeemPremiumCode, PremiumManager.bind,
    PremiumManager.storage_findPremiumCode.
  rewrite Hd', Hmax, Hlen.
  assert (Qle_bool (maxActivations (body d))
            (inject_Z (Z.of_nat (S (length (activations (body d)))))) = true) as ->;
    [|done].
  apply Qle_bool_iff.
  rewrite Nat2Z.inj_succ. unfold Z.succ. rewrite inject_Z_plus.
  by change (inject_Z 1) with 1%Q.
Qed.

Lemma redeemPremiumCode_last_activation_witness :
  let m := snd (PremiumManager.createPremiumCode 0 "abc" "admin" None None
                  local_manager) in
  let m1 := snd (PremiumManager.redeemPremiumCode 5 "e" "abc" "user" m) in
  Storage.findPremiumCode "abc" (PremiumManager.storage m)
    = Some (plain (mkPremiumCode "abc" 30 1%Q [] "admin" (IsoString 0))) ∧
  PremiumManager.redeemPremiumCode 9 "f" "abc" "other" m1 = (Returned false, m1).
Proof.
  intros m m1.
  assert (Storage.findPremiumCode "abc" (PremiumManager.storage m)
          = Some (plain (mkPremiumCode "abc" 30 1%Q [] "admin" (IsoString 0)))) as H
    by reflexivity.
  split; [exact H|].
  apply (redeemPremiumCode_last_activation 5 9 "e" "f" "abc" "user" "other" m _ H).
  - by vm_compute.
  - vm_compute. discriminate.
Defined.

(** ** [getPremiumCodeInfo] *)

(** X16: [redeemPremiumCode] does not touch the [premiumCodeInfo] cache
    entry of the code. With the default [cacheTTL] of 0, once
    [getPremiumCodeInfo] has read a code from the storage it keeps
    answering with that copy: after an accepted redemption the stored code
    has one more activation, and [getPremiumCodeInfo] still returns the
    code without it. *)
Theorem getPremiumCodeInfo_stale_after_redeem (now now1 now2 : Z) (id k by_ : string)
    (m : PremiumManager.t) (d : doc IPremiumCode) :
  Required.cacheTTL (PremiumManager.config m) = 0 →
  fst (NodeCache.get now (PremiumManager.getCacheKey "premiumCodeInfo" k)
         (PremiumManager.cache m)) = VUndefined →
  Storage.findPremiumCode k (PremiumManager.storage m) = Some d →
  (inject_Z (Z.of_nat (length (activations (body d)))) < maxActivations (body d))%Q →
  let r1 := PremiumManager.getPremiumCodeInfo now k m in
  let m2 := snd (PremiumManager.redeemPremiumCode now1 id k by_ (snd r1)) in
  fst r1 = Returned (VPremiumCode (body d)) ∧
  (∃ d', Storage.findPremiumCode k (PremiumManager.storage m2) = Some d' ∧
         length (activations (body d')) = S (length (activations (body d)))) ∧
  fst (PremiumManager.getPremiumCodeInfo now2 k m2) = Returned (VPremiumCode (body d)).
Proof.
  intros Httl Hmiss Hd Hlt r1 m2.
  set (key := PremiumManager.getCacheKey "premiumCodeInfo" k) in *.
  assert (∃ data, r1 = (Returned (VPremiumCode (body d)),
                        PremiumManager.with_cache
                          (<[key := NodeCache._wrap 0 now (VPremiumCode (body d))]> data)
                          m)) as [data Hr1].
  { unfold r1, PremiumManager.getPremiumCodeInfo, PremiumManager.bind,
      PremiumManager.cache_get. fold key.
    destruct (NodeCache.get now key (PremiumManager.cache m)) as [x data].
    simpl in Hmiss. subst x. simpl.
    unfold PremiumManager.storage_findPremiumCode. simpl. rewrite Hd. simpl.
    unfold PremiumManager.cache_set. simpl. rewrite Httl. by exists data. }
  assert (Storage.findPremiumCode k (PremiumManager.storage (snd r1)) = Some d) as Hd1
    by by rewrite Hr1.
  split; [by rewrite Hr1|]. split.
  - destruct (redeemPremiumCode_code_stored now1 id k by_ (snd r1) d Hd1 Hlt)
      as (d' & Hd' & Hstat).
    exists d'. split; [exact Hd'|].
    unfold code_status_of in Hstat. by injection Hstat.
  - pose proof (entry_kept_redeemPremiumCode k now1 id k by_ (snd r1)) as Hkept.
    unfold same_code_entry in Hkept. fold m2 key in Hkept.
    rewrite Hr1 in Hkept. simpl in Hkept. rewrite lookup_insert_eq in Hkept.
    unfold PremiumManager.getPremiumCodeInfo, PremiumManager.bind,
      PremiumManager.cache_get. fold key.
    by rewrite (get_live now2 key _ _ Hkept eq_refl).
Qed.

Lemma getPremiumCodeInfo_stale_after_redeem_witness :
  let m := snd (PremiumManager.createPremiumCode 0 "abc" "admin" None (Some 3%Q)
                  mongo_manager) in
  let r1 := PremiumManager.getPremiumCodeInfo 1 "abc" m in
  let m2 := snd (PremiumManager.redeemPremiumCode 2 "e" "abc" "user" (snd r1)) in
  Storage.findPremiumCode "abc" (PremiumManager.storage m)
    = Some (mkDoc true (mkPremiumCode "abc" 30 3%Q [] "admin" (DateObj 0))) ∧
  fst r1 = Returned (VPremiumCode (mkPremiumCode "abc" 30 3%Q [] "admin" (DateObj 0))) ∧
  (∃ d', Storage.findPremiumCode "abc" (PremiumManager.storage m2) = Some d' ∧
         length (activations (body d')) = 1%nat) ∧
  fst (PremiumManager.getPremiumCodeInfo 3 "abc" m2)
    = Returned (VPremiumCode (mkPremiumCode "abc" 30 3%Q [] "admin" (DateObj 0))).
Proof.
  intros m r1 m2.
  assert (Storage.findPremiumCode "abc" (PremiumManager.storage m)
          = Some (mkDoc true (mkPremiumCode "abc" 30 3%Q [] "admin" (DateObj 0)))) as H
    by reflexivity.
  split; [exact H|].
  apply (getPremiumCodeInfo_stale_after_redeem 1 2 3 "e" "abc" "user" m _
           eq_refl eq_refl H).
  by vm_compute.
Defined.

(** ** [extendPremium] twice *)

(** X17: extensions add up: after [extendPremium(id, a)] and then
    [extendPremium(id, b)] the stored expiry is [(a + b) * 86400s] after
    the expiry the entitlement had (after the time of the first call, when
    it had none), on either storage, as long as the expiry each of the two
    calls computes is a time value. *)
Theorem extendPremium_twice (now1 now2 : Z) (id : string) (a b : Z)
    (m : PremiumManager.t) (e : IPremium) :
  Storage.findPremium id (PremiumManager.storage m) = Some e →
  isPremium e = true →
  let base := match expiresAt e with Some d => getTime d | None => now1 end in
  valid_time (base + a * 86400000) →
  valid_time (base + (a + b) * 86400000) →
  let m2 := snd (PremiumManager.extendPremium now2 id b
                   (snd (PremiumManager.extendPremium now1 id a m))) in
  status_of <$> Storage.findPremium id (PremiumManager.storage m2)
    = Some (true, Some (base + (a + b) * 86400000), activatedBy e,
            getTime <$> activatedAt e).
Proof.
  intros He Hflag base Hvalid1 Hvalid2 m2.
  destruct (extendPremium_effect now1 id a m e He Hflag Hvalid1)
    as (st1 & Hs1 & Hst1 & _).
  set (m1 := snd (PremiumManager.extendPremium now1 id a m)) in *.
  set (e1 := kept_premium (PremiumManager.storage m) (extended now1 a e)).
  assert (Storage.findPremium id (PremiumManager.storage m1) = Some e1) as He1.
  { rewrite Hst1, <- (findPremium_entityId _ _ _ He).
    exact (findPremium_savePremium _ _ _ Hs1). }
  destruct (kept_premium_fields (PremiumManager.storage m) (extended now1 a e))
    as (_ & Hf1 & Hx1 & Hb1 & Ha1).
  fold e1 in Hf1, Hx1, Hb1, Ha1. simpl in Hf1, Hx1, Hb1, Ha1.
  assert (isPremium e1 = true) as Hflag1 by congruence.
  assert (extended_time now2 b e1 = base + (a + b) * 86400000) as Ht2.
  { unfold extended_time. destruct (expiresAt e1) as [d1|]; [|done].
    simpl in Hx1. injection Hx1 as ->. unfold extended_time. fold base. lia. }
  assert (valid_time (extended_time now2 b e1)) as Hvalid2' by by rewrite Ht2.
  destruct (extendPremium_effect now2 id b m1 e1 He1 Hflag1 Hvalid2')
    as (st2 & Hs2 & Hst2 & _).
  fold m2 in Hst2.
  rewrite Hst2, <- (findPremium_entityId _ _ _ He1).
  pose proof (findPremium_savePremium _ _ _ Hs2) as Hfind2.
  change (entityId (extended now2 b e1)) with (entityId e1) in Hfind2.
  rewrite Hfind2. simpl.
  rewrite status_of_kept. unfold status_of, extended, extended_expiry. simpl.
  by rewrite Hflag1, Hb1, Ha1, Ht2.
Qed.

Lemma extendPremium_twice_witness :
  let m2 := snd (PremiumManager.extendPremium 9 "e" 3
                   (snd (PremiumManager.extendPremium 5 "e" 2 local_one_day_premium))) in
  Storage.findPremium "e" (PremiumManager.storage local_one_day_premium)
    = Some (mkPremium "e" true (Some (IsoString 86400000)) (Some "admin")
              (Some (IsoString 0))) ∧
  valid_time (86400000 + 2 * 86400000) ∧
  valid_time (86400000 + (2 + 3) * 86400000) ∧
  status_of <$> Storage.findPremium "e" (PremiumManager.storage m2)
    = Some (true, Some (86400000 + (2 + 3) * 86400000), Some "admin", Some 0).
Proof.
  intros m2.
  assert (Storage.findPremium "e" (PremiumManager.storage local_one_day_premium)
          = Some (mkPremium "e" true (Some (IsoString 86400000)) (Some "admin")
                    (Some (IsoString 0)))) as H by reflexivity.
  assert (valid_time (86400000 + 2 * 86400000)) as H1 by (vm_compute; discriminate).
  assert (valid_time (86400000 + (2 + 3) * 86400000)) as H2
    by (vm_compute; discriminate).
  split; [exact H|]. split; [exact H1|]. split; [exact H2|].
  exact (extendPremium_twice 5 9 "e" 2 3 local_one_day_premium _ H eq_refl H1 H2).
Defined.

(** ** Listeners *)




(** ** [clearCache] and what follows it *)

Lemma clearCache_warm now m :
  Required.preloadTables (PremiumManager.config m) = true →
  PremiumManager.clearCache now m
  = (Returned tt,
     PremiumManager.with_cache
       (warm_codes (Required.cacheTTL (PremiumManager.config m)) now (stored_codes m)
          (warm_premiums (Required.cacheTTL (PremiumManager.config m)) now
             (stored_premiums m) ∅)) m).
Proof.
  intros Hcfg.
  unfold PremiumManager.clearCache, PremiumManager.bind, PremiumManager.cache_flushAll.
  simpl. rewrite Hcfg. rewrite preloadTables_warms. done.
Qed.

Lemma warm_premiums_cons ttl now p l data :
  warm_premiums ttl now (p :: l) data
  = warm_premiums ttl now l
      (NodeCache.set ttl now (PremiumManager.getCacheKey "premiumStatus" (entityId p))
         (VPremium p)
         (NodeCache.set ttl now (PremiumManager.getCacheKey "isPremium" (entityId p))
            (VBool (isPremium p)) data)).
Proof. done. Qed.

Lemma warm_premiums_other ttl now l data id :
  id ∉ entityId <$> l →
  warm_premiums ttl now l data !! PremiumManager.getCacheKey "isPremium" id
  = data !! PremiumManager.getCacheKey "isPremium" id.
Proof.
  revert data. induction l as [|q l IH]; intros data Hid; [done|].
  rewrite warm_premiums_cons. simpl in Hid.
  apply not_elem_of_cons in Hid as [Hne Hid].
  rewrite (IH _ Hid). unfold NodeCache.set.
  rewrite lookup_insert_ne by apply not_eq_sym, isPremium_key_ne_status.
  apply lookup_insert_ne. intros H. apply getCacheKey_inj in H. congruence.
Qed.

Lemma warm_premiums_flag ttl now l data p :
  NoDup (entityId <$> l) → p ∈ l →
  warm_premiums ttl now l data !! PremiumManager.getCacheKey "isPremium" (entityId p)
  = Some (NodeCache._wrap ttl now (VBool (isPremium p))).
Proof.
  revert data. induction l as [|q l IH]; intros data Hnd Hp.
  - by apply elem_of_nil in Hp.
  - simpl in Hnd. apply NoDup_cons in Hnd as [Hq Hnd].
    rewrite warm_premiums_cons.
    apply elem_of_cons in Hp as [-> | Hp]; [|by apply IH].
    rewrite (warm_premiums_other _ _ _ _ _ Hq). unfold NodeCache.set.
    rewrite lookup_insert_ne by apply not_eq_sym, isPremium_key_ne_status.
    apply lookup_insert_eq.
Qed.

Lemma warm_codes_other ttl now cs data id :
  warm_codes ttl now cs data !! PremiumManager.getCacheKey "isPremium" id
  = data !! PremiumManager.getCacheKey "isPremium" id.
Proof.
  unfold warm_codes. revert data.
  induction cs as [|c cs IH]; intros data; simpl; [done|].
  rewrite IH. unfold NodeCache.set.
  apply lookup_insert_ne, not_eq_sym, isPremium_key_ne_codeInfo.
Qed.

(** X19: after [clearCache] with [preloadTables] configured, with one
    stored entitlement per entity, [isPremium] of a stored entity answers
    with the stored flag as it is, straight from the cache: the expiry is
    not looked at, nothing is removed and nothing is emitted, even when the
    entitlement has expired. *)
Theorem clearCache_then_isPremium (now : Z) (m : PremiumManager.t) (p : IPremium) :
  Required.preloadTables (PremiumManager.config m) = true →
  0 <= Required.cacheTTL (PremiumManager.config m) →
  NoDup (entityIds (PremiumManager.storage m)) →
  p ∈ stored_premiums m →
  let m1 := snd (PremiumManager.clearCache now m) in
  let r := PremiumManager.isPremium now (entityId p) m1 in
  fst r = Returned (VBool (isPremium p)) ∧
  PremiumManager.storage (snd r) = PremiumManager.storage m ∧
  PremiumManager.emitted (snd r) = PremiumManager.emitted m.
Proof.
  intros Hcfg Httl Hnd Hp m1 r.
  unfold r, m1. rewrite (clearCache_warm now m Hcfg). simpl.
  unfold PremiumManager.isPremium, PremiumManager.bind, PremiumManager.cache_get.
  simpl.
  rewrite (get_live now _ _
             (NodeCache._wrap (Required.cacheTTL (PremiumManager.config m)) now
                (VBool (isPremium p)))).
  - done.
  - rewrite warm_codes_other. by apply warm_premiums_flag.
  - by apply _check_fresh.
Qed.

Lemma clearCache_then_isPremium_witness :
  let m := one_day_premium in
  let p := mkPremium "e" true (Some (DateObj 86400000)) (Some "admin") (Some (DateObj 0)) in
  let now := 10 * 86400000 in
  let r := PremiumManager.isPremium now "e" (snd (PremiumManager.clearCache now m)) in
  Required.preloadTables (PremiumManager.config m) = true ∧
  0 <= Required.cacheTTL (PremiumManager.config m) ∧
  NoDup (entityIds (PremiumManager.storage m)) ∧
  p ∈ stored_premiums m ∧
  fst r = Returned (VBool true) ∧
  PremiumManager.storage (snd r) = PremiumManager.storage m ∧
  PremiumManager.emitted (snd r) = PremiumManager.emitted m.
Proof.
  intros m p now r.
  assert (Required.preloadTables (PremiumManager.config m) = true) as H1 by reflexivity.
  assert (0 <= Required.cacheTTL (PremiumManager.config m)) as H2
    by (vm_compute; discriminate).
  assert (NoDup (entityIds (PremiumManager.storage m))) as H3.
  { change (NoDup ["e"]). apply NoDup_singleton. }
  assert (p ∈ stored_premiums m) as H4.
  { change (p ∈ [p]). apply list_elem_of_here. }
  split; [exact H1|]. split; [exact H2|]. split; [exact H3|]. split; [exact H4|].
  exact (clearCache_then_isPremium now m p H1 H2 H3 H4).
Defined.

(** ** The sweep on the Mongo storage, entitlement by entitlement *)

(** X20: on the Mongo storage, with one document per entity and listeners
    of [premiumRemoved] that return, [checkExpiredPremiums] rewrites every
    entitlement flagged premium whose expiry is strictly before now to
    flag false and expiry null, and leaves every other entitlement, the
    order of the entitlements and the codes exactly as they were. *)
Theorem checkExpiredPremiums_exact_on_mongo (now : Z) (m : PremiumManager.t)
    (s : MongoStorage.t) :
  PremiumManager.storage m = Mongo s →
  NoDup (entityIds (PremiumManager.storage m)) →
  quiet_removal m →
  let r := PremiumManager.checkExpiredPremiums now m in
  fst r = Returned tt ∧
  stored_codes (snd r) = stored_codes m ∧
  length (stored_premiums (snd r)) = length (stored_premiums m) ∧
  ∀ i p, stored_premiums m !! i = Some p →
    ∃ q, stored_premiums (snd r) !! i = Some q ∧
         entityId q = entityId p ∧
         ((isPremium p = true ∧ ∃ d, expiresAt p = Some d ∧ getTime d < now) ∧
          isPremium q = false ∧ expiresAt q = None ∧ activatedBy q = activatedBy p
          ∨ ¬ (isPremium p = true ∧ ∃ d, expiresAt p = Some d ∧ getTime d < now) ∧
            q = p).
Proof.
  intros Hs Hnd Hq r.
  assert (NoDup (entityId <$> MongoStorage.premiumModel s)) as Hnd'.
  { unfold entityIds in Hnd. by rewrite Hs in Hnd. }
  destruct (checkExpiredPremiums_mongo now m s Hs Hnd' Hq) as (Hfst & Hprem & Hcodes).
  fold r in Hfst, Hprem, Hcodes.
  assert (stored_premiums m = MongoStorage.premiumModel s) as Hm
    by (unfold stored_premiums; by rewrite Hs).
  split; [exact Hfst|]. split; [exact Hcodes|].
  rewrite Hprem, Hm. split; [apply length_fmap|].
  intros i p Hp. exists (swept now p).
  rewrite list_lookup_fmap, Hp. split; [done|].
  split; [apply swept_entityId|].
  destruct (swept_spec now p) as [(Hsel & Hflag & Hexp)|[Hsel Heq]].
  - left. split; [exact Hsel|]. split; [exact Hflag|]. split; [exact Hexp|].
    unfold swept, expired, MongoStorage.matches_lt.
    destruct Hsel as (-> & d & -> & Hlt). simpl.
    by destruct (Z.ltb_spec (getTime d) now); [|lia].
  - right. done.
Qed.

Lemma checkExpiredPremiums_exact_on_mongo_witness :
  let now := 10 * 86400000 in
  let p := mkPremium "e" true (Some (DateObj 86400000)) (Some "admin") (Some (DateObj 0)) in
  let r := PremiumManager.checkExpiredPremiums now one_day_premium in
  PremiumManager.storage one_day_premium = Mongo (MongoStorage.mk [p] []) ∧
  NoDup (entityIds (PremiumManager.storage one_day_premium)) ∧
  quiet_removal one_day_premium ∧
  fst r = Returned tt ∧
  stored_codes (snd r) = stored_codes one_day_premium ∧
  length (stored_premiums (snd r)) = length (stored_premiums one_day_premium).
Proof.
  intros now p r.
  assert (PremiumManager.storage one_day_premium = Mongo (MongoStorage.mk [p] [])) as H1
    by reflexivity.
  assert (NoDup (entityIds (PremiumManager.storage one_day_premium))) as H2.
  { change (NoDup ["e"]). apply NoDup_singleton. }
  assert (quiet_removal one_day_premium) as H3 by (intros id; reflexivity).
  destruct (checkExpiredPremiums_exact_on_mongo now one_day_premium _ H1 H2 H3)
    as (H4 & H5 & H6 & _).
  split; [exact H1|]. split; [exact H2|]. split; [exact H3|].
  split; [exact H4|]. split; [exact H5|exact H6].
Defined.

(** ** From a new code to a premium *)

(** X21: a code just created, which the storage accepted and whose
    capacity (given, or the configured default) is more than 0, can be
    redeemed: the redemption records one activation and, when the instant
    [duration] days after it is a time value, gives the redeemer an
    entitlement that expires then, [duration] being the one given at
    creation or, when that was omitted or 0, the configured
    [defaultPremiumDuration]. *)
Theorem createPremiumCode_then_redeemPremiumCode (now now2 : Z)
    (token by_ id by2 : string) (d : option Z) (n : option Q) (m : PremiumManager.t) :
  let cfg := PremiumManager.config m in
  let days := PremiumManager.number_or d (Required.defaultPremiumDuration cfg) in
  refusal (created now token by_ d n cfg) (PremiumManager.storage m) = None →
  (0 < PremiumManager.capacity_or n (Required.maxActivationsPerCode cfg))%Q →
  let m1 := snd (PremiumManager.createPremiumCode now token by_ d n m) in
  let m2 := snd (PremiumManager.redeemPremiumCode now2 id token by2 m1) in
  (∃ c, Storage.findPremiumCode token (PremiumManager.storage m2) = Some c ∧
        length (activations (body c)) = 1%nat ∧ duration (body c) = days) ∧
  (valid_time (now2 + days * 86400000) →
   status_of <$> Storage.findPremium id (PremiumManager.storage m2)
     = Some (true, Some (now2 + days * 86400000), Some by2, Some now2)).
Proof.
  intros cfg days Hfree Hcap m1 m2.
  pose proof (createPremiumCode_effect now token by_ d n m) as Heff.
  cbv zeta in Heff. fold m1 cfg in Heff.
  pose proof (savePremiumCode_plain (created now token by_ d n cfg)
                (PremiumManager.storage m)) as Hsave.
  rewrite Hfree in Hsave. destruct Hsave as [st' Hst'].
  rewrite Hst' in Heff. destruct Heff as (Hst & _).
  pose proof (findPremiumCode_savePremiumCode _ _ _ Hst') as Hfound.
  change (code (body (plain (created now token by_ d n cfg)))) with token in Hfound.
  rewrite <- Hst in Hfound.
  destruct (Storage.findPremiumCode token (PremiumManager.storage m1)) as [c0|] eqn:Hc0;
    [|done].
  simpl in Hfound. injection Hfound as Hbody.
  assert (code_status_of (body c0)
          = (token, days,
             PremiumManager.capacity_or n (Required.maxActivationsPerCode cfg),
             0%nat, by_)) as Hstat.
  { rewrite Hbody, code_status_of_kept. done. }
  unfold code_status_of in Hstat. injection Hstat as _ Hdur Hmax Hlen _.
  assert (inject_Z (Z.of_nat (length (activations (body c0))))
          < maxActivations (body c0))%Q as Hlt.
  { by rewrite Hlen, Hmax. }
  split.
  - destruct (redeemPremiumCode_code_stored now2 id token by2 m1 c0 Hc0 Hlt)
      as (c & Hc & Hcs).
    fold m2 in Hc. exists c. split; [exact Hc|]. unfold code_status_of in Hcs.
    injection Hcs as _ Hd' _ Hl' _. by rewrite Hl', Hlen, Hd', Hdur.
  - intros Hvalid. rewrite <- Hdur in Hvalid.
    pose proof (redeemPremiumCode_stored now2 id token by2 m1 c0 Hc0 Hlt Hvalid)
      as Hprem.
    fold m2 in Hprem. rewrite Hprem. simpl. rewrite status_of_kept.
    unfold status_of. simpl. rewrite Hdur.
    replace (now2 + days * 24 * 60 * 60 * 1000) with (now2 + days * 86400000) by lia.
    done.
Qed.

Lemma createPremiumCode_then_redeemPremiumCode_witness :
  let m1 := snd (PremiumManager.createPremiumCode 0 "abc" "admin" (Some 0) None
                   mongo_manager) in
  let m2 := snd (PremiumManager.redeemPremiumCode 5 "e" "abc" "user" m1) in
  refusal (created 0 "abc" "admin" (Some 0) None (PremiumManager.config mongo_manager))
    (PremiumManager.storage mongo_manager) = None ∧
  (0 < PremiumManager.capacity_or None
         (Required.maxActivationsPerCode (PremiumManager.config mongo_manager)))%Q ∧
  valid_time (5 + 30 * 86400000) ∧
  (∃ c, Storage.findPremiumCode "abc" (PremiumManager.storage m2) = Some c ∧
        length (activations (body c)) = 1%nat ∧ duration (body c) = 30) ∧
  status_of <$> Storage.findPremium "e" (PremiumManager.storage m2)
    = Some (true, Some (5 + 30 * 86400000), Some "user", Some 5).
Proof.
  intros m1 m2.
  assert (refusal (created 0 "abc" "admin" (Some 0) None
                     (PremiumManager.config mongo_manager))
            (PremiumManager.storage mongo_manager) = None) as H1 by reflexivity.
  assert (0 < PremiumManager.capacity_or None
                (Required.maxActivationsPerCode (PremiumManager.config mongo_manager)))%Q
    as H2 by (by vm_compute).
  assert (valid_time (5 + 30 * 86400000)) as H3 by (vm_compute; discriminate).
  split; [exact H1|]. split; [exact H2|]. split; [exact H3|].
  destruct (createPremiumCode_then_redeemPremiumCode 0 5 "abc" "admin" "e" "user"
              (Some 0) None mongo_manager H1 H2) as [Hc Hp].
  split; [exact Hc|exact (Hp H3)].
Defined.

(** ** The answer of [isPremium], once cached *)

(** X22: when [isPremium] has answered true from the storage (no cache
    entry, entitlement flagged premium with no expiry or an expiry that
    compares as later than now), the answer stays in the cache: with
    [cacheTTL] 0, [isPremium] asked at any later time, past the expiry
    included, still answers true, and reads nothing from the storage and
    removes nothing. *)
Theorem isPremium_true_stays_cached (now now2 : Z) (id : string)
    (m : PremiumManager.t) (e : IPremium) (st2 : IStorage) :
  Required.cacheTTL (PremiumManager.config m) = 0 →
  fst (NodeCache.get now (PremiumManager.getCacheKey "isPremium" id)
         (PremiumManager.cache m)) = VUndefined →
  Storage.findPremium id (PremiumManager.storage m) = Some e →
  isPremium e = true →
  match expiresAt e with Some d => date_gt d now = true | None => True end →
  let r := PremiumManager.isPremium now id m in
  let m2 := PremiumManager.with_storage st2 (snd r) in
  fst r = Returned (VBool true) ∧
  PremiumManager.storage (snd r) = PremiumManager.storage m ∧
  PremiumManager.isPremium now2 id m2 = (Returned (VBool true), m2).
Proof.
  intros Httl Hmiss He Hflag Hlater r m2.
  assert (effective now (Storage.findPremium id (PremiumManager.storage m))
          = VBool true) as Hv.
  { rewrite He. simpl. rewrite Hflag.
    destruct (expiresAt e); simpl; [by rewrite Hlater|done]. }
  set (key := PremiumManager.getCacheKey "isPremium" id) in *.
  assert (∃ data, r = (Returned (VBool true),
                       PremiumManager.with_cache
                         (<[key := NodeCache._wrap 0 now (VBool true)]> data) m))
    as [data Hr].
  { unfold r, PremiumManager.isPremium, PremiumManager.bind,
      PremiumManager.cache_get. fold key.
    destruct (NodeCache.get now key (PremiumManager.cache m)) as [x data].
    simpl in Hmiss. subst x. simpl.
    unfold PremiumManager.storage_findPremium. simpl.
    fold (effective now (Storage.findPremium id (PremiumManager.storage m))).
    rewrite Hv. simpl.
    unfold PremiumManager.cache_set. simpl. rewrite Httl. by exists data. }
  unfold m2. rewrite Hr. simpl. split; [done|]. split; [done|].
  unfold PremiumManager.isPremium, PremiumManager.bind, PremiumManager.cache_get.
  fold key. simpl.
  rewrite (get_live now2 key _ (NodeCache._wrap 0 now (VBool true))); [done| |done].
  apply lookup_insert_eq.
Qed.

Lemma isPremium_true_stays_cached_witness :
  let e := mkPremium "e" true (Some (DateObj 86400000)) (Some "admin") (Some (DateObj 0)) in
  let r := PremiumManager.isPremium 1 "e" one_day_premium in
  let m2 := PremiumManager.with_storage (PremiumManager.storage one_day_premium) (snd r) in
  Storage.findPremium "e" (PremiumManager.storage one_day_premium) = Some e ∧
  date_gt (DateObj 86400000) 1 = true ∧
  fst r = Returned (VBool true) ∧
  PremiumManager.isPremium (2 * 86400000) "e" m2 = (Returned (VBool true), m2).
Proof.
  intros e r m2.
  assert (Storage.findPremium "e" (PremiumManager.storage one_day_premium) = Some e)
    as H by reflexivity.
  assert (date_gt (DateObj 86400000) 1 = true) as H' by reflexivity.
  destruct (isPremium_true_stays_cached 1 (2 * 86400000) "e" one_day_premium e
              (PremiumManager.storage one_day_premium) eq_refl eq_refl H eq_refl H')
    as (H1 & _ & H3).
  split; [exact H|]. split; [exact H'|]. split; [exact H1|exact H3].
Defined.
